(** * Alba365 Hub: outbox, push/pull engines, receipt numbers, PIN limiter

    A shallow embedding of the hub's sync core.  The SQLite store is a
    record of tables, the engines and HTTP handlers are functions that
    thread the store, and everything outside the repository (the HTTP
    network, bcrypt, JSON text handling, the SQL constraint checker) is an
    interface whose methods the theorems quantify over. *)

From Stdlib Require Import ZArith String Ascii List Bool Lia Permutation Sorted.
From Stdlib Require Import DecimalString DecimalNat.
From stdpp Require Import base gmap strings list fin_maps.

Local Open Scope Z_scope.

(** ** JavaScript values

    Request bodies, cloud payloads and bound SQL parameters are JSON-shaped
    values; [VUndefined] is what a missing property reads as.  Number
    literals are kept as integers: nothing below inspects a fractional
    amount. *)

#[local] Unset Elimination Schemes.
Inductive JsVal : Type :=
| VUndefined
| VNull
| VBool (b : bool)
| VNum (n : Z)
| VStr (s : string)
| VArr (xs : list JsVal)
| VObj (fields : list (string * JsVal)).
#[local] Set Elimination Schemes.

(** [!!v] *)
Definition truthy (v : JsVal) : bool :=
  match v with
  | VUndefined | VNull => false
  | VBool b => b
  | VNum n => negb (n =? 0)
  | VStr s => negb (String.eqb s "")
  | VArr _ | VObj _ => true
  end.

(** [v ?? d] *)
Definition nullish (v d : JsVal) : JsVal :=
  match v with
  | VUndefined | VNull => d
  | _ => v
  end.

Fixpoint assoc_get (k : string) (fs : list (string * JsVal)) : JsVal :=
  match fs with
  | [] => VUndefined
  | (k', v) :: rest => if String.eqb k k' then v else assoc_get k rest
  end.

(** ** Decimal text of integers, as [String(n)] and template literals print
    them *)

Definition String_of_nat (n : nat) : string :=
  NilZero.string_of_uint (Nat.to_uint n).

Definition String_of_Z (z : Z) : string :=
  if z <? 0 then "-" +:+ String_of_nat (Z.to_nat (- z))
  else String_of_nat (Z.to_nat z).

(** [`${v}`] for the values a TEXT or INTEGER column can hold. *)
Definition js_to_string (v : JsVal) : string :=
  match v with
  | VUndefined => "undefined"
  | VNull => "null"
  | VBool true => "true"
  | VBool false => "false"
  | VNum n => String_of_Z n
  | VStr s => s
  | VArr _ | VObj _ => "[object Object]"
  end.

(** Exceptions are values: [Throw msg] is a thrown [Error] with that message. *)
Inductive Result (A : Type) : Type :=
| Ok (a : A)
| Throw (msg : string).
Arguments Ok {A} a.
Arguments Throw {A} msg.

(** [o.k]: reading a property of [null] or [undefined] throws a TypeError;
    on any other non-object it reads as [undefined]. *)
Definition prop (o : JsVal) (k : string) : Result JsVal :=
  match o with
  | VObj fs => Ok (assoc_get k fs)
  | VUndefined | VNull => Throw "Cannot read properties of null"
  | _ => Ok VUndefined
  end.

(** ** What the hub takes from its runtime

    None of these is code of the repository: the JSON codec, the URL
    constructor, bcrypt, and SQLite's own acceptance of a row (parameter
    binding, NOT NULL, UNIQUE and foreign keys). *)

Abbreviation Row := (gmap string JsVal).
Abbreviation Tables := (gmap string (list (gmap string JsVal))).

Class Runtime : Type := {
  JSON_stringify : JsVal -> string;
  JSON_parse : string -> option JsVal;
  (* [new URL(path, base)] succeeds *)
  URL_ok : string -> string -> bool;
  (* [bcrypt.compare(pin, hash)]; [None] when it throws on a corrupt hash *)
  bcrypt_compare : string -> string -> option bool;
  (* [bcrypt.hashSync(pin, 12)] *)
  bcrypt_hashSync : string -> string;
  (* SQLite accepts inserting this row into this table in this state *)
  sql_accepts : Tables -> string -> Row -> bool;
  (* SQLite lets the whole table be deleted (no foreign key holds a row) *)
  sql_can_clear : Tables -> string -> bool;
  (* SQLite compiles an INSERT that names these columns of this table: the
     table exists and has every one of them *)
  sql_prepares : string -> list string -> bool;
  (* [s.toLowerCase()] *)
  toLowerCase : string -> string;
}.

(** ** Configuration ([config.ts] is not part of the sources; only the four
    keys the engines read are kept) *)

Record Config : Type := {
  cloudApiUrl : option string;
  cloudApiKey : option string;
  tenantId : option string;
  locationId : option string;
}.

(** ** Cloud client ([src/sync/cloud-client.ts]) *)

Inductive Method := GET | POST.

Record Request : Type := {
  req_method : Method;
  req_path : string;
  req_params : list (string * string);
  req_body : JsVal;
}.

Inductive HttpBody :=
| NotJson                      (* content-type is not application/json *)
| JsonBody (v : JsVal)
| BadJson (msg : string).      (* res.json() rejects *)

Inductive FetchOutcome :=
| Http (status : Z) (body : HttpBody)
| FetchFailed (msg : string).  (* network error or timeout abort *)

(** The cloud as the hub sees it: the answer to a request may depend on the
    requests sent before it (oldest first). *)
Definition Net : Type := list Request -> Request -> FetchOutcome.

Record CloudResponse : Type := {
  res_ok : bool;
  res_status : Z;
  res_data : JsVal;
  res_error : option string;
}.

(** [s.replace(/\/$/, "")] *)
Fixpoint strip_trailing_slash (s : string) : string :=
  match s with
  | EmptyString => EmptyString
  | String c EmptyString => if Ascii.eqb c "/" then EmptyString else s
  | String c rest => String c (strip_trailing_slash rest)
  end.

Definition baseUrl (cfg : Config) : string :=
  strip_trailing_slash (default "" (cloudApiUrl cfg)).

Definition apiKey (cfg : Config) : string := default "" (cloudApiKey cfg).

Definition isConfigured (cfg : Config) : bool :=
  negb (String.eqb (baseUrl cfg) "") && negb (String.eqb (apiKey cfg) "").

(** [res.ok] of the Fetch API *)
Definition http_ok (st : Z) : bool := (200 <=? st) && (st <=? 299).

Definition envelope_of (o : FetchOutcome) : CloudResponse :=
  match o with
  | Http st NotJson => {| res_ok := http_ok st; res_status := st; res_data := VNull; res_error := None |}
  | Http st (JsonBody v) => {| res_ok := http_ok st; res_status := st; res_data := v; res_error := None |}
  | Http st (BadJson m) => {| res_ok := false; res_status := 0; res_data := VNull; res_error := Some m |}
  | FetchFailed m => {| res_ok := false; res_status := 0; res_data := VNull; res_error := Some m |}
  end.

(** One call of [CloudClient.get] / [CloudClient.post]: the URL constructor
    runs outside the [try], so its failure propagates to the caller; every
    other failure is folded into the envelope.  The request is appended to
    the log of requests sent. *)
Definition cloud_call `{Runtime} (cfg : Config) (net : Net) (rq : Request)
    (log : list Request) : Result CloudResponse * list Request :=
  if URL_ok (req_path rq) (baseUrl cfg)
  then (Ok (envelope_of (net log rq)), log ++ [rq])
  else (Throw "Invalid URL", log).

Definition cloud_get `{Runtime} cfg net (path : string)
    (params : list (string * string)) log :=
  cloud_call cfg net
    {| req_method := GET; req_path := path; req_params := params; req_body := VUndefined |} log.

Definition cloud_post `{Runtime} cfg net (path : string) (body : JsVal) log :=
  cloud_call cfg net
    {| req_method := POST; req_path := path; req_params := []; req_body := body |} log.

(** ** The store ([src/db/schema.ts], [db/index.ts])

    [outbox_queue], [order_sequence] and [sync_state] are typed, because the
    engines compute on their columns; every other table is a list of rows
    in insertion order, a row being a map from column name to value (an
    absent column is NULL). *)

Inductive OutboxStatus := PENDING | PROCESSING | SYNCED | DEAD_LETTER.

Record OutboxItem : Type := {
  item_id : Z;                       (* id INTEGER PRIMARY KEY AUTOINCREMENT *)
  entity_type : string;
  entity_id : string;
  action : string;
  payload : string;
  correlation_id : option string;
  priority : Z;
  status : OutboxStatus;
  attempts : Z;
  max_attempts : Z;
  error : option string;
  created_at : string;
  synced_at : option string;
}.

Record SyncState : Type := {
  last_synced_at : option string;
  last_sync_cursor : option string;
  record_count : Z;
  sync_status : string;              (* the [status] column *)
  updated_at : option string;
}.

Record Db : Type := {
  outbox_queue : list OutboxItem;
  outbox_seq : Z;                    (* highest id handed out so far *)
  order_sequence : gmap string Z;    (* date_key -> current_value *)
  sync_state : gmap string SyncState;
  tables : Tables;
}.

Definition with_outbox (f : list OutboxItem -> list OutboxItem) (db : Db) : Db :=
  {| outbox_queue := f (outbox_queue db); outbox_seq := outbox_seq db;
     order_sequence := order_sequence db; sync_state := sync_state db;
     tables := tables db |}.

Definition with_order_sequence (f : gmap string Z -> gmap string Z) (db : Db) : Db :=
  {| outbox_queue := outbox_queue db; outbox_seq := outbox_seq db;
     order_sequence := f (order_sequence db); sync_state := sync_state db;
     tables := tables db |}.

Definition with_sync_state (f : gmap string SyncState -> gmap string SyncState)
    (db : Db) : Db :=
  {| outbox_queue := outbox_queue db; outbox_seq := outbox_seq db;
     order_sequence := order_sequence db; sync_state := f (sync_state db);
     tables := tables db |}.

Definition with_tables (f : Tables -> Tables) (db : Db) : Db :=
  {| outbox_queue := outbox_queue db; outbox_seq := outbox_seq db;
     order_sequence := order_sequence db; sync_state := sync_state db;
     tables := f (tables db) |}.

Definition empty_db : Db :=
  {| outbox_queue := []; outbox_seq := 0; order_sequence := ∅;
     sync_state := ∅; tables := ∅ |}.

(** A column of a row; an absent column reads as NULL. *)
Definition col (r : Row) (c : string) : JsVal := default VNull (r !! c).

Definition table (t : Tables) (name : string) : list Row := default [] (t !! name).

Definition JsVal_is_str (v : JsVal) (s : string) : bool :=
  match v with VStr s' => String.eqb s' s | _ => false end.

(** [UPDATE t SET ... WHERE p] *)
Definition update_where (name : string) (p : Row -> bool) (f : Row -> Row)
    (t : Tables) : Tables :=
  <[name := map (fun r => if p r then f r else r) (table t name)]> t.

(** [INSERT INTO t ...]: the row is appended when SQLite accepts it,
    otherwise the statement throws. *)
Definition insert_row `{Runtime} (name : string) (r : Row) (db : Db) : Result Db :=
  if sql_accepts (tables db) name r
  then Ok (with_tables (fun t => <[name := table t name ++ [r]]> t) db)
  else Throw ("SQLITE_CONSTRAINT: " +:+ name).

(** [transaction(fn)]: commit what [fn] did when it returns, restore the
    store and rethrow when it throws. *)
Definition transaction {A : Type} (fn : Db -> Result (A * Db)) (db : Db)
    : Result A * Db :=
  match fn db with
  | Ok (a, db') => (Ok a, db')
  | Throw e => (Throw e, db)
  end.

(** The outbox insert every enqueuing route shares: columns not named by
    the statement take their schema defaults ([status] 'PENDING',
    [attempts] 0, [max_attempts] 5). *)
Definition enqueue (etype eid act body : string) (corr : option string)
    (prio : Z) (now : string) (db : Db) : Db :=
  let i := outbox_seq db + 1 in
  {| outbox_queue := outbox_queue db ++
       [{| item_id := i; entity_type := etype; entity_id := eid; action := act;
           payload := body; correlation_id := corr; priority := prio;
           status := PENDING; attempts := 0; max_attempts := 5; error := None;
           created_at := now; synced_at := None |}];
     outbox_seq := i;
     order_sequence := order_sequence db; sync_state := sync_state db;
     tables := tables db |}.

(** ** Push engine ([src/sync/push-sync.ts]) *)

Record PushResult : Type := {
  processed : Z;
  succeeded : Z;
  failed : Z;
  deadLettered : Z;
}.

Definition no_result : PushResult :=
  {| processed := 0; succeeded := 0; failed := 0; deadLettered := 0 |}.

(** ** Reading an object literal at a computed key

    [obj[key]] finds the object's own property or, failing that, the one
    every object literal inherits from [Object.prototype]: a built-in
    method, or for [__proto__] the prototype object itself.  Every
    inherited value is truthy; [property_text] is what [String(value)]
    makes of a value ([new URL(value, base)] converts that way). *)
Inductive Property : Type :=
| OwnString (s : string)
| BuiltIn (text : string).

Definition Object_prototype_names : list string :=
  ["constructor"; "__defineGetter__"; "__defineSetter__"; "hasOwnProperty";
   "__lookupGetter__"; "__lookupSetter__"; "isPrototypeOf"; "propertyIsEnumerable";
   "toString"; "valueOf"; "__proto__"; "toLocaleString"].

Definition inherited (key : string) : option Property :=
  if String.eqb key "__proto__" then Some (BuiltIn "[object Object]")
  else if String.eqb key "constructor"
  then Some (BuiltIn "function Object() { [native code] }")
  else if existsb (String.eqb key) Object_prototype_names
  then Some (BuiltIn ("function " +:+ key +:+ "() { [native code] }"))
  else None.

Definition object_get (own : gmap string string) (key : string) : option Property :=
  match own !! key with
  | Some s => Some (OwnString s)
  | None => inherited key
  end.

Definition property_truthy (v : Property) : bool :=
  match v with
  | OwnString s => negb (String.eqb s "")
  | BuiltIn _ => true
  end.

Definition property_text (v : Property) : string :=
  match v with OwnString s => s | BuiltIn text => text end.

(** The object literal's own properties. *)
Definition pushEndpoints : gmap string string :=
  list_to_map
    [("sale", "/api/hub/push/sale");
     ("kitchen_order", "/api/hub/push/kitchen-order");
     ("cash_drawer", "/api/hub/push/cash-drawer");
     ("shift_log", "/api/hub/push/shift");
     ("gift_card", "/api/hub/push/gift-card");
     ("refund", "/api/hub/push/refund");
     ("store_credit", "/api/hub/push/store-credit")].

(** [this.pushEndpoints[entityType]] when it is truthy, as the path
    [CloudClient.post] is then called with. *)
Definition endpoint_of (entityType : string) : option string :=
  match object_get pushEndpoints entityType with
  | Some v => if property_truthy v then Some (property_text v) else None
  | None => None
  end.

(** The entity types of the [INSERT INTO outbox_queue] statements of the
    routes ([src/api/*.ts]); each is a literal of its statement. *)
Definition enqueued_entity_types : list string :=
  ["cash_drawer"; "cash_drawer_transaction"; "customer"; "gift_card"; "guest_check";
   "guest_check_item"; "inventory"; "kitchen_order"; "refund"; "sale"; "shift_break";
   "shift_log"; "staff_bank_transaction"; "store_credit"; "table_session"; "user"].

Definition set_item (i : Z) (f : OutboxItem -> OutboxItem) (db : Db) : Db :=
  with_outbox (map (fun r => if item_id r =? i then f r else r)) db.

Definition find_item (i : Z) (db : Db) : option OutboxItem :=
  List.find (fun r => item_id r =? i) (outbox_queue db).

(** The SET clauses of the engine's UPDATE statements. *)
Definition mark_processing (r : OutboxItem) : OutboxItem :=
  {| item_id := item_id r; entity_type := entity_type r; entity_id := entity_id r;
     action := action r; payload := payload r; correlation_id := correlation_id r;
     priority := priority r; status := PROCESSING; attempts := attempts r + 1;
     max_attempts := max_attempts r; error := error r; created_at := created_at r;
     synced_at := synced_at r |}.

Definition mark (st : OutboxStatus) (err : option string) (r : OutboxItem) : OutboxItem :=
  {| item_id := item_id r; entity_type := entity_type r; entity_id := entity_id r;
     action := action r; payload := payload r; correlation_id := correlation_id r;
     priority := priority r; status := st; attempts := attempts r;
     max_attempts := max_attempts r; error := err; created_at := created_at r;
     synced_at := synced_at r |}.

(** [SET status = 'SYNCED', synced_at = datetime('now')], with or without
    [error = ...] *)
Definition mark_synced (now : string) (err : option (option string))
    (r : OutboxItem) : OutboxItem :=
  {| item_id := item_id r; entity_type := entity_type r; entity_id := entity_id r;
     action := action r; payload := payload r; correlation_id := correlation_id r;
     priority := priority r; status := SYNCED; attempts := attempts r;
     max_attempts := max_attempts r; error := default (error r) err;
     created_at := created_at r; synced_at := Some now |}.

Definition opt_str (o : option string) : JsVal :=
  match o with Some s => VStr s | None => VNull end.

Definition push_envelope (item : OutboxItem) (parsed : JsVal) : JsVal :=
  VObj [("entityType", VStr (entity_type item));
        ("entityId", VStr (entity_id item));
        ("action", VStr (action item));
        ("payload", parsed);
        ("correlationId", opt_str (correlation_id item))].

Record PushState : Type := {
  p_db : Db;
  p_log : list Request;
  p_result : PushResult;
}.

Definition bump_processed (r : PushResult) : PushResult :=
  {| processed := processed r + 1; succeeded := succeeded r;
     failed := failed r; deadLettered := deadLettered r |}.
Definition bump_succeeded (r : PushResult) : PushResult :=
  {| processed := processed r; succeeded := succeeded r + 1;
     failed := failed r; deadLettered := deadLettered r |}.
Definition bump_failed (r : PushResult) : PushResult :=
  {| processed := processed r; succeeded := succeeded r;
     failed := failed r + 1; deadLettered := deadLettered r |}.
Definition bump_dead (r : PushResult) : PushResult :=
  {| processed := processed r; succeeded := succeeded r;
     failed := failed r; deadLettered := deadLettered r + 1 |}.

(** What the engine does with the cloud's answer (lines 126-153). *)
Definition settle (now : string) (item : OutboxItem) (res : CloudResponse)
    (db : Db) (r : PushResult) : Db * PushResult :=
  let i := item_id item in
  if res_ok res then
    (set_item i (mark_synced now None) db, bump_succeeded r)
  else if res_status res =? 409 then
    (set_item i (mark_synced now (Some (Some "Duplicate (409)"))) db, bump_succeeded r)
  else if (400 <=? res_status res) && (res_status res <? 500) then
    (set_item i (mark DEAD_LETTER
       (Some ("HTTP " +:+ String_of_Z (res_status res) +:+ ": " +:+
              default "Client error" (res_error res)))) db, bump_dead r)
  else
    let newAttempts := attempts item + 1 in
    if max_attempts item <=? newAttempts then
      (set_item i (mark DEAD_LETTER
         (Some ("Max attempts reached. Last: HTTP " +:+ String_of_Z (res_status res)))) db,
       bump_dead r)
    else
      (set_item i (mark PENDING
         (Some ("HTTP " +:+ String_of_Z (res_status res) +:+ ": " +:+
                default "Server error" (res_error res)))) db, bump_failed r).

(** One turn of the [for (const item of items)] loop.  [item] is the row as
    the SELECT returned it, so [item.attempts] is the count before this
    turn's increment. *)
Definition process_item `{Runtime} (cfg : Config) (net : Net) (now : string)
    (st : PushState) (item : OutboxItem) : PushState :=
  let i := item_id item in
  let r := bump_processed (p_result st) in
  let db := set_item i mark_processing (p_db st) in
  match endpoint_of (entity_type item) with
  | None =>
      {| p_db := set_item i (mark DEAD_LETTER (Some "Unknown entity type")) db;
         p_log := p_log st; p_result := bump_dead r |}
  | Some endpoint =>
      match JSON_parse (payload item) with
      | None =>
          {| p_db := set_item i (mark DEAD_LETTER (Some "Invalid JSON payload")) db;
             p_log := p_log st; p_result := bump_dead r |}
      | Some parsed =>
          match cloud_post cfg net endpoint (push_envelope item parsed) (p_log st) with
          | (Ok res, log') =>
              let '(db', r') := settle now item res db r in
              {| p_db := db'; p_log := log'; p_result := r' |}
          | (Throw msg, log') =>
              {| p_db := set_item i (mark PENDING (Some msg)) db;
                 p_log := log'; p_result := bump_failed r |}
          end
      end
  end.

(** [ORDER BY priority DESC, created_at ASC]; rows that tie keep their
    table order. *)
Definition outbox_before (a b : OutboxItem) : bool :=
  (priority b <? priority a) ||
  ((priority a =? priority b) && String.leb (created_at a) (created_at b)).

Fixpoint insert_sorted {A : Type} (le : A -> A -> bool) (x : A) (l : list A) : list A :=
  match l with
  | [] => [x]
  | y :: l' => if le y x then y :: insert_sorted le x l' else x :: l
  end.

Definition order_by {A : Type} (le : A -> A -> bool) (l : list A) : list A :=
  fold_left (fun acc x => insert_sorted le x acc) l [].

(** [LIMIT n]: a negative limit means no limit. *)
Definition limit {A : Type} (n : Z) (l : list A) : list A :=
  if n <? 0 then l else take (Z.to_nat n) l.

Definition eligible (r : OutboxItem) : bool :=
  match status r with PENDING => attempts r <? max_attempts r | _ => false end.

Definition select_pending (batchSize : Z) (db : Db) : list OutboxItem :=
  limit batchSize (order_by outbox_before (List.filter eligible (outbox_queue db))).

Record PushSyncEngine : Type := { running : bool }.

(** [processOutbox(batchSize)]: both early returns leave everything as it
    was; otherwise the [finally] clears the flag. *)
Definition processOutbox `{Runtime} (cfg : Config) (net : Net) (now : string)
    (batchSize : Z) (eng : PushSyncEngine) (db : Db) (log : list Request)
    : PushResult * PushSyncEngine * Db * list Request :=
  if running eng then (no_result, eng, db, log)
  else if negb (isConfigured cfg) then (no_result, eng, db, log)
  else
    let items := select_pending batchSize db in
    let st := fold_left (process_item cfg net now) items
                {| p_db := db; p_log := log; p_result := no_result |} in
    (p_result st, {| running := false |}, p_db st, p_log st).

(** [retryDeadLetters(entityType?)]: returns the number of rows changed. *)
Definition retryDeadLetters (entityType : option string) (db : Db) : Z * Db :=
  let hit r :=
    match status r with
    | DEAD_LETTER =>
        match entityType with
        | Some t => if String.eqb t "" then true else String.eqb (entity_type r) t
        | None => true
        end
    | _ => false
    end in
  let reset r :=
    {| item_id := item_id r; entity_type := entity_type r; entity_id := entity_id r;
       action := action r; payload := payload r; correlation_id := correlation_id r;
       priority := priority r; status := PENDING; attempts := 0;
       max_attempts := max_attempts r; error := error r; created_at := created_at r;
       synced_at := synced_at r |} in
  (Z.of_nat (length (List.filter hit (outbox_queue db))),
   with_outbox (map (fun r => if hit r then reset r else r)) db).

(** *** The row-level reading of one turn

    A turn rewrites exactly one row: which way is decided by the endpoint
    table, the payload and the cloud's answer ([decide_outcome]); the row
    it leaves is [apply_outcome] of the row it found. *)

Inductive Outcome :=
| OSynced (note : option (option string))
| ODead (msg : string)
| ORetry (msg : string).

Definition outcome_of_response (item : OutboxItem) (res : CloudResponse) : Outcome :=
  if res_ok res then OSynced None
  else if res_status res =? 409 then OSynced (Some (Some "Duplicate (409)"))
  else if (400 <=? res_status res) && (res_status res <? 500) then
    ODead ("HTTP " +:+ String_of_Z (res_status res) +:+ ": " +:+
           default "Client error" (res_error res))
  else if max_attempts item <=? attempts item + 1 then
    ODead ("Max attempts reached. Last: HTTP " +:+ String_of_Z (res_status res))
  else
    ORetry ("HTTP " +:+ String_of_Z (res_status res) +:+ ": " +:+
            default "Server error" (res_error res)).

Definition decide_outcome `{Runtime} (cfg : Config) (net : Net)
    (log : list Request) (item : OutboxItem) : Outcome * list Request :=
  match endpoint_of (entity_type item) with
  | None => (ODead "Unknown entity type", log)
  | Some endpoint =>
      match JSON_parse (payload item) with
      | None => (ODead "Invalid JSON payload", log)
      | Some parsed =>
          match cloud_post cfg net endpoint (push_envelope item parsed) log with
          | (Ok res, log') => (outcome_of_response item res, log')
          | (Throw msg, log') => (ORetry msg, log')
          end
      end
  end.

Definition apply_outcome (now : string) (o : Outcome) (r : OutboxItem) : OutboxItem :=
  match o with
  | OSynced note => mark_synced now note (mark_processing r)
  | ODead m => mark DEAD_LETTER (Some m) (mark_processing r)
  | ORetry m => mark PENDING (Some m) (mark_processing r)
  end.

(** [k] successive calls of [processOutbox] on a timer, the engine idle
    between them. *)
Fixpoint push_cycles `{Runtime} (cfg : Config) (net : Net) (now : string)
    (batchSize : Z) (k : nat) (db : Db) (log : list Request) : Db * list Request :=
  match k with
  | O => (db, log)
  | S k' =>
      let '(_, _, db', log') :=
        processOutbox cfg net now batchSize {| running := false |} db log in
      push_cycles cfg net now batchSize k' db' log'
  end.

(** ** Receipt numbers ([nextReceiptNumber], [db/index.ts] lines 49-62) *)

(** [s.slice(0, n)] *)
Fixpoint slice0 (n : nat) (s : string) : string :=
  match n, s with
  | S n', String c rest => String c (slice0 n' rest)
  | _, _ => EmptyString
  end.

(** [s.replace(/-/g, "")] *)
Fixpoint remove_dashes (s : string) : string :=
  match s with
  | EmptyString => EmptyString
  | String c rest =>
      if Ascii.eqb c "-" then remove_dashes rest else String c (remove_dashes rest)
  end.

(** The date key of a clock reading given as its [toISOString()] text. *)
Definition dateKey_of (iso : string) : string := remove_dashes (slice0 10 iso).

Fixpoint repeat_char (n : nat) (c : ascii) : string :=
  match n with
  | O => EmptyString
  | S n' => String c (repeat_char n' c)
  end.

(** [s.padStart(n, c)] for a one-character pad *)
Definition padStart (n : nat) (c : ascii) (s : string) : string :=
  repeat_char (n - String.length s) c +:+ s.

(** The statement
    [INSERT INTO order_sequence (date_key, current_value) VALUES (?, 1)
     ON CONFLICT(date_key) DO UPDATE SET current_value = current_value + 1
     RETURNING current_value]
    is one atomic step of the store. *)
Definition bump_sequence (dateKey : string) (db : Db) : Z * Db :=
  let v := match order_sequence db !! dateKey with
           | Some c => c + 1
           | None => 1
           end in
  (v, with_order_sequence (fun m => <[dateKey := v]> m) db).

Definition nextReceiptNumber (iso : string) (db : Db) : string * Db :=
  let dateKey := dateKey_of iso in
  let '(current_value, db') := bump_sequence dateKey db in
  let seq := padStart 4 "0" (String_of_Z current_value) in
  (dateKey +:+ "-" +:+ seq, db').

(** A run of calls, each with its own clock reading, in the order in which
    the store serialises them. *)
Fixpoint receipt_calls (isos : list string) (db : Db) : list string * Db :=
  match isos with
  | [] => ([], db)
  | iso :: rest =>
      let '(v, db1) := nextReceiptNumber iso db in
      let '(vs, db2) := receipt_calls rest db1 in
      (v :: vs, db2)
  end.

(** Reading a receipt number back: the text after [dateKey-], as a decimal
    numeral (leading zeros allowed). *)
Fixpoint drop_chars (n : nat) (s : string) : string :=
  match n, s with
  | S n', String _ rest => drop_chars n' rest
  | _, _ => s
  end.

Definition parse_decimal (s : string) : option nat :=
  match s with
  | EmptyString => None
  | _ => option_map Nat.of_uint (NilEmpty.uint_of_string s)
  end.

Definition receipt_suffix (dateKey receipt : string) : option nat :=
  parse_decimal (drop_chars (String.length dateKey + 1) receipt).

Definition receipt_format (dateKey : string) (k : nat) : string :=
  dateKey +:+ "-" +:+ padStart 4 "0" (String_of_nat k).

(** ** The hub process: store plus in-memory state *)

Record RateEntry : Type := { count : Z; resetAt : Z }.

(** A realtime frame handed to [broadcast(event, data, filter?)]. *)
Record Broadcast : Type := {
  event : string;
  event_data : JsVal;
  role_filter : option string;
}.

Record Hub : Type := {
  hub_db : Db;
  pinAttempts : gmap string RateEntry;   (* auth.ts, module level *)
  recentUserIds : list string;           (* auth.ts, module level *)
  broadcasts : list Broadcast;           (* frames sent so far, oldest first *)
}.

Definition with_db (f : Db -> Db) (h : Hub) : Hub :=
  {| hub_db := f (hub_db h); pinAttempts := pinAttempts h;
     recentUserIds := recentUserIds h; broadcasts := broadcasts h |}.

Definition send (b : Broadcast) (h : Hub) : Hub :=
  {| hub_db := hub_db h; pinAttempts := pinAttempts h;
     recentUserIds := recentUserIds h; broadcasts := broadcasts h ++ [b] |}.

(** An HTTP reply: status code and JSON body.  A handler that throws is
    answered by the framework with 500. *)
Record Reply : Type := { code : Z; body : JsVal }.

Definition reply_ok (v : JsVal) : Reply := {| code := 200; body := v |}.
Definition reply_error (c : Z) (msg : string) : Reply :=
  {| code := c; body := VObj [("error", VStr msg)] |}.
Definition reply_thrown (msg : string) : Reply := reply_error 500 msg.

#[global] Instance result_ret : MRet Result := fun A a => Ok a.
#[global] Instance result_bind : MBind Result :=
  fun A B f r => match r with Ok a => f a | Throw e => Throw e end.

(** Reading fields of a request body that is known not to be nullish. *)
Definition field (o : JsVal) (k : string) : JsVal :=
  match o with VObj fs => assoc_get k fs | _ => VUndefined end.

Definition is_nullish (v : JsVal) : bool :=
  match v with VUndefined | VNull => true | _ => false end.

(** The cells an outbox INSERT binds, for SQLite's acceptance check. *)
Definition outbox_cells (etype eid act payload_text : string) (corr : option string)
    (prio : Z) (now : string) : Row :=
  list_to_map
    [("entity_type", VStr etype); ("entity_id", VStr eid); ("action", VStr act);
     ("payload", VStr payload_text); ("correlation_id", opt_str corr);
     ("priority", VNum prio); ("created_at", VStr now)].

(** [INSERT INTO outbox_queue (...) VALUES (...)] inside a transaction. *)
Definition enqueue_stmt `{Runtime} (etype eid act payload_text : string)
    (corr : option string) (prio : Z) (now : string) (db : Db) : Result Db :=
  if sql_accepts (tables db) "outbox_queue"
       (outbox_cells etype eid act payload_text corr prio now)
  then Ok (enqueue etype eid act payload_text corr prio now db)
  else Throw "SQLITE_CONSTRAINT: outbox_queue".

Definition find_row (name : string) (p : Row -> bool) (db : Db) : option Row :=
  List.find p (table (tables db) name).

Definition set_cols (cs : list (string * JsVal)) (r : Row) : Row :=
  fold_left (fun acc kv => <[kv.1 := kv.2]> acc) cs r.

Arguments set_cols : simpl never.

(** ** PIN authentication ([api/auth.ts]) *)

Definition PIN_RATE_LIMIT : Z := 10.
Definition PIN_RATE_WINDOW_MS : Z := 5 * 60 * 1000.

Definition checkPinRateLimit (now : Z) (ip : string) (m : gmap string RateEntry)
    : bool * gmap string RateEntry :=
  let fresh := <[ip := {| count := 1; resetAt := now + PIN_RATE_WINDOW_MS |}]> m in
  match m !! ip with
  | None => (true, fresh)
  | Some entry =>
      if resetAt entry <=? now then (true, fresh)
      else
        let c := count entry + 1 in
        (c <=? PIN_RATE_LIMIT, <[ip := {| count := c; resetAt := resetAt entry |}]> m)
  end.

(** The ten-minute timer that drops expired buckets. *)
Definition cleanup_pinAttempts (now : Z) (m : gmap string RateEntry)
    : gmap string RateEntry :=
  filter (fun kv => now < resetAt kv.2) m.

Definition MAX_RECENT_USERS : nat := 5.

Fixpoint remove_first (x : string) (l : list string) : list string :=
  match l with
  | [] => []
  | y :: l' => if String.eqb y x then l' else y :: remove_first x l'
  end.

(** [indexOf]/[splice], [unshift], then [pop] when over the bound. *)
Definition recordRecentUser (userId : string) (l : list string) : list string :=
  let l1 := userId :: remove_first userId l in
  if (MAX_RECENT_USERS <? length l1)%nat then removelast l1 else l1.

(** The request as the handler's type annotation has it:
    [{ pin?: string; terminalId?: string }], plus what it reads from the
    request and the clock. *)
Record PinRequest : Type := {
  pin : option string;
  terminalId_field : option string;
  ip : option string;                  (* req.ip *)
  x_terminal_id : option string;       (* header *)
  at_ms : Z;                           (* Date.now() *)
  at_sql : string;                     (* datetime('now') *)
  new_session : string;                (* generateId() *)
}.

(** [s.length]: the number of UTF-16 code units of a text that is held
    here as its UTF-8 bytes.  A byte below 0x80 and the lead byte of a two-
    or three-byte sequence stand for one unit, the lead byte of a four-byte
    sequence for a surrogate pair, a continuation byte for none. *)
Fixpoint js_length (s : string) : nat :=
  match s with
  | EmptyString => 0%nat
  | String c rest =>
      let b := nat_of_ascii c in
      ((if (b <? 128)%nat then 1
        else if (b <? 192)%nat then 0
        else if (b <? 240)%nat then 1
        else 2) + js_length rest)%nat
  end.

(** [!pin || pin.length < 4 || pin.length > 10] *)
Definition pin_malformed (p : option string) : bool :=
  match p with
  | None => true
  | Some s =>
      String.eqb s "" || (js_length s <? 4)%nat || (10 <? js_length s)%nat
  end.

Definition active_users (cfg : Config) (db : Db) : list Row :=
  List.filter
    (fun u => JsVal_is_str (col u "tenant_id") (default "" (tenantId cfg))
              && match col u "is_active" with VNum 1 => true | _ => false end
              && negb (is_nullish (col u "pin_hash")))
    (table (tables db) "users").

(** [try { if (await bcrypt.compare(pin, candidate.pin_hash)) ... } catch {}] *)
Definition pin_matches `{Runtime} (p : string) (u : Row) : bool :=
  match col u "pin_hash" with
  | VStr h => default false (bcrypt_compare p h)
  | _ => false
  end.

Definition has_id (i : string) (u : Row) : bool := JsVal_is_str (col u "id") i.

(** First loop: the recent ids, most recent first. *)
Fixpoint try_recent `{Runtime} (p : string) (users : list Row) (recent : list string)
    : option Row :=
  match recent with
  | [] => None
  | recentId :: rest =>
      match List.find (has_id recentId) users with
      | Some candidate =>
          if pin_matches p candidate then Some candidate else try_recent p users rest
      | None => try_recent p users rest
      end
  end.

Definition in_recent (recent : list string) (u : Row) : bool :=
  existsb (fun i => has_id i u) recent.

(** Both loops. *)
Definition find_user `{Runtime} (p : string) (users : list Row) (recent : list string)
    : option Row :=
  match try_recent p users recent with
  | Some u => Some u
  | None => List.find (pin_matches p)
              (List.filter (fun u => negb (in_recent recent u)) users)
  end.

Definition js_id (u : Row) : string :=
  match col u "id" with VStr s => s | _ => "" end.

Definition safeParseJson `{Runtime} (v : JsVal) (fallback : JsVal) : JsVal :=
  match v with
  | VStr s => default fallback (JSON_parse s)
  | _ => fallback
  end.

(** [POST /api/auth/pin], served with no other request run while the
    handler waits on [bcrypt.compare].  The handler reads [users] once,
    before its loops, and reads the recent-user array again at every turn
    of the first loop: a login recorded by another request during one of
    these waits can move the array under the loop, so that a cached user
    is tried twice and another not at all.  The properties of the search
    are therefore stated so that they hold in whatever order the
    candidates are tried. *)
Definition post_auth_pin `{Runtime} (cfg : Config) (rq : PinRequest) (h : Hub)
    : Reply * Hub :=
  match pin rq with
  | Some p =>
      if pin_malformed (pin rq) then (reply_error 400 "PIN must be 4-10 characters", h)
      else
        let clientIp := default "unknown" (ip rq) in
        let '(allowed, attempts') := checkPinRateLimit (at_ms rq) clientIp (pinAttempts h) in
        let h1 := {| hub_db := hub_db h; pinAttempts := attempts';
                     recentUserIds := recentUserIds h; broadcasts := broadcasts h |} in
        if negb allowed then (reply_error 429 "Too many PIN attempts. Try again later.", h1)
        else
          let db := hub_db h in
          match find_user p (active_users cfg db) (recentUserIds h) with
          | None => (reply_error 401 "Invalid PIN", h1)
          | Some user =>
              let h2 := {| hub_db := db; pinAttempts := attempts';
                           recentUserIds := recordRecentUser (js_id user) (recentUserIds h);
                           broadcasts := broadcasts h |} in
              let sessionId := new_session rq in
              let answer := reply_ok (VObj
                [("success", VBool true);
                 ("user", VObj [("id", col user "id"); ("name", col user "name");
                                ("email", col user "email"); ("role", col user "role");
                                ("permissions", safeParseJson (col user "permissions") (VArr []));
                                ("maxDiscount", col user "max_discount")]);
                 ("sessionId", VStr sessionId)]) in
              let terminalId :=
                match terminalId_field rq with
                | Some t => Some t
                | None => x_terminal_id rq
                end in
              match terminalId with
              | Some t =>
                  if String.eqb t "" then (answer, h2)
                  else
                    match find_row "terminals" (has_id t) db with
                    | None => (answer, h2)
                    | Some _ =>
                        let tx d :=
                          d1 ← insert_row "terminal_sessions"
                                 (list_to_map
                                    [("id", VStr sessionId); ("terminal_id", VStr t);
                                     ("user_id", col user "id"); ("user_name", col user "name");
                                     ("started_at", VStr (at_sql rq)); ("is_active", VNum 1)]) d;
                          Ok (tt, with_tables (update_where "terminals" (has_id t)
                                 (set_cols [("current_user_id", col user "id");
                                            ("current_user_name", col user "name");
                                            ("status", VStr "ONLINE");
                                            ("last_seen_at", VStr (at_sql rq))])) d1) in
                        match transaction tx db with
                        | (Ok _, db') => (answer, with_db (fun _ => db') h2)
                        | (Throw msg, _) => (reply_thrown msg, h2)
                        end
                    end
              | None => (answer, h2)
              end
          end
  | None => (reply_error 400 "PIN must be 4-10 characters", h)
  end.

(** ** User administration ([api/users.ts]) *)

Definition post_change_pin `{Runtime} (cfg : Config) (userId newPin now : string)
    (h : Hub) : Reply * Hub :=
  let db := hub_db h in
  match find_row "users"
          (fun u => has_id userId u
                    && JsVal_is_str (col u "tenant_id") (default "" (tenantId cfg))) db with
  | None => (reply_error 404 "User not found", h)
  | Some _ =>
      let pinHash := bcrypt_hashSync newPin in
      let tx d :=
        let d1 := with_tables (update_where "users" (has_id userId)
                    (set_cols [("pin_hash", VStr pinHash); ("updated_at", VStr now)])) d in
        d2 ← enqueue_stmt "user" userId "update_pin"
               (JSON_stringify (VObj [("userId", VStr userId); ("pinHash", VStr pinHash)]))
               None 5 now d1;
        Ok (tt, d2) in
      match transaction tx db with
      | (Ok _, db') => (reply_ok (VObj [("success", VBool true)]), with_db (fun _ => db') h)
      | (Throw msg, _) => (reply_thrown msg, h)
      end
  end.

(** ** Kitchen orders ([api/kitchen-orders.ts]) *)

(** The own properties of the [statusFlow] literal. *)
Definition statusFlow : gmap string string :=
  list_to_map [("PENDING", "PREPARING"); ("PREPARING", "READY"); ("READY", "COMPLETED")].

(** [statusFlow[order.status]]: the stored status is converted to a
    property key. *)
Definition next_status (v : JsVal) : option Property :=
  object_get statusFlow (js_to_string v).

(** [status != 'VOIDED'] in SQL: NULL compares as unknown, hence false. *)
Definition not_voided (r : Row) : bool :=
  match col r "status" with
  | VNull => false
  | v => negb (JsVal_is_str v "VOIDED")
  end.

Definition bump_clauses (nextStatus now : string) : list (string * JsVal) :=
  [("status", VStr nextStatus); ("updated_at", VStr now); ("sync_status", VStr "PENDING")]
  ++ (if String.eqb nextStatus "PREPARING" then [("fired_at", VStr now)] else [])
  ++ (if String.eqb nextStatus "COMPLETED" then [("completed_at", VStr now)] else []).

Arguments bump_clauses : simpl never.

(** [POST /api/kitchen-orders/:id/bump] *)
Definition post_bump `{Runtime} (id now : string) (h : Hub) : Reply * Hub :=
  let db := hub_db h in
  match find_row "kitchen_orders" (has_id id) db with
  | None => (reply_error 404 "Kitchen order not found", h)
  | Some order =>
      let refused :=
        (reply_ok (VObj [("success", VBool false);
                         ("message", VStr ("Cannot bump from status " +:+
                                           js_to_string (col order "status")))]), h) in
      match next_status (col order "status") with
      | None => refused
      | Some (BuiltIn _) =>
          (* an inherited method is truthy, and better-sqlite3 refuses to
             bind it: the first UPDATE throws inside the transaction *)
          (reply_thrown "SQLite3 can only bind numbers, strings, bigints, buffers, and null", h)
      | Some (OwnString nextStatus) =>
          if String.eqb nextStatus "" then refused else
          let tx d :=
            let d1 := with_tables (update_where "kitchen_orders" (has_id id)
                        (set_cols (bump_clauses nextStatus now))) d in
            let d2 := with_tables (update_where "kitchen_order_items"
                        (fun r => JsVal_is_str (col r "kitchen_order_id") id && not_voided r)
                        (set_cols [("status", VStr nextStatus)])) d1 in
            d3 ← enqueue_stmt "kitchen_order" id "update"
                   (JSON_stringify (VObj [("id", VStr id); ("status", VStr nextStatus)]))
                   None 5 now d2;
            Ok (tt, d3) in
          match transaction tx db with
          | (Ok _, db') =>
              let h1 := with_db (fun _ => db') h in
              let h2 := send {| event := "order:status";
                                event_data := VObj [("id", VStr id);
                                                    ("status", VStr nextStatus);
                                                    ("previousStatus", col order "status")];
                                role_filter := None |} h1 in
              (reply_ok (VObj [("success", VBool true);
                               ("previousStatus", col order "status");
                               ("newStatus", VStr nextStatus)]), h2)
          | (Throw msg, _) => (reply_thrown msg, h)
          end
      end
  end.

(** [POST /api/kitchen-orders/:orderId/items/:itemId/status], body
    [{ status: string; voidReason?: string }]: two bare UPDATEs, no
    transaction and no outbox row. *)
Definition post_item_status (orderId itemId : string) (new_status : string)
    (voidReason : option string) (now : string) (h : Hub) : Reply * Hub :=
  let db := hub_db h in
  match find_row "kitchen_order_items"
          (fun r => has_id itemId r && JsVal_is_str (col r "kitchen_order_id") orderId) db with
  | None => (reply_error 404 "Item not found", h)
  | Some _ =>
      let cols :=
        if String.eqb new_status "VOIDED"
        then [("status", VStr "VOIDED"); ("voided_at", VStr now);
              ("void_reason", opt_str voidReason)]
        else [("status", VStr new_status)] in
      (reply_ok (VObj [("success", VBool true)]),
       with_db (with_tables (update_where "kitchen_order_items" (has_id itemId)
                               (set_cols cols))) h)
  end.

(** ** Sales ([api/sales.ts]) *)

(** What one request draws from outside the store: the clock and the ids
    [generateId()] hands out, in call order. *)
Record SaleEnv : Type := {
  sale_now : string;                   (* datetime('now') *)
  sale_iso : string;                   (* new Date().toISOString() *)
  sale_ids : nat -> string;            (* the n-th generateId() of the request *)
}.

(** [for (const x of v)] over [(v as Array) ?? []] *)
Definition iterate (v : JsVal) : Result (list JsVal) :=
  match v with
  | VUndefined | VNull => Ok []
  | VArr xs => Ok xs
  | VStr s => Ok (map (fun c => VStr (String c EmptyString)) (list_ascii_of_string s))
  | _ => Throw "items is not iterable"
  end.

Definition or_null (v : JsVal) : JsVal := nullish v VNull.

Definition sale_cells `{Runtime} (cfg : Config) (env : SaleEnv) (saleId receiptNumber : string)
    (b : JsVal) : Row :=
  list_to_map
    [("id", VStr saleId);
     ("tenant_id", VStr (default "" (tenantId cfg)));
     ("location_id", VStr (default "" (locationId cfg)));
     ("terminal_id", or_null (field b "terminalId"));
     ("receipt_number", VStr receiptNumber);
     ("order_type", nullish (field b "orderType") (VStr "TAKE_OUT"));
     ("customer_id", or_null (field b "customerId"));
     ("customer_name", or_null (field b "customerName"));
     ("table_session_id", or_null (field b "tableSessionId"));
     ("kitchen_order_id", or_null (field b "kitchenOrderId"));
     ("subtotal", nullish (field b "subtotal") (VNum 0));
     ("discount_total", nullish (field b "discountTotal") (VNum 0));
     ("coupon_discount", nullish (field b "couponDiscount") (VNum 0));
     ("tax_total", nullish (field b "taxTotal") (VNum 0));
     ("tax_breakdown", VStr (JSON_stringify (nullish (field b "taxBreakdown") (VArr []))));
     ("delivery_charge", nullish (field b "deliveryCharge") (VNum 0));
     ("round_off", nullish (field b "roundOff") (VNum 0));
     ("total", nullish (field b "total") (VNum 0));
     ("gratuity", nullish (field b "gratuity") (VNum 0));
     ("amount_paid", nullish (field b "amountPaid") (VNum 0));
     ("change_given", nullish (field b "changeGiven") (VNum 0));
     ("status", VStr "COMPLETED");
     ("cashier_id", or_null (field b "cashierId"));
     ("cashier_name", or_null (field b "cashierName"));
     ("notes", or_null (field b "notes"));
     ("metadata", VStr (JSON_stringify (nullish (field b "metadata") (VObj []))));
     ("data_blob", VStr (JSON_stringify b));
     ("created_at", VStr (sale_now env));
     ("sync_status", VStr "PENDING")].

Definition sale_item_cells `{Runtime} (itemId saleId : string) (item : JsVal) : Row :=
  list_to_map
    [("id", VStr itemId); ("sale_id", VStr saleId);
     ("product_id", field item "productId");
     ("product_name", field item "productName");
     ("variant_id", or_null (field item "variantId"));
     ("variant_name", or_null (field item "variantName"));
     ("quantity", nullish (field item "quantity") (VNum 1));
     ("unit_price", nullish (field item "unitPrice") (VNum 0));
     ("discount", nullish (field item "discount") (VNum 0));
     ("discount_type", or_null (field item "discountType"));
     ("tax", nullish (field item "tax") (VNum 0));
     ("total", nullish (field item "total") (VNum 0));
     ("modifiers", VStr (JSON_stringify (nullish (field item "modifiers") (VArr []))));
     ("metadata", VStr (JSON_stringify (nullish (field item "metadata") (VObj []))))].

Definition payment_cells (paymentId saleId now : string) (payment : JsVal) : Row :=
  list_to_map
    [("id", VStr paymentId); ("sale_id", VStr saleId);
     ("method", field payment "method");
     ("amount", field payment "amount");
     ("tip_amount", nullish (field payment "tipAmount") (VNum 0));
     ("reference", or_null (field payment "reference"));
     ("card_last_four", or_null (field payment "cardLastFour"));
     ("card_brand", or_null (field payment "cardBrand"));
     ("created_at", VStr now)].

(** One [insert.run(...)] per element, in order; an element that is [null]
    makes its first property read throw. *)
Fixpoint insert_each `{Runtime} (name first_prop : string)
    (cells : nat -> JsVal -> Row) (k : nat) (xs : list JsVal) (db : Db) : Result Db :=
  match xs with
  | [] => Ok db
  | x :: rest =>
      _ ← prop x first_prop;
      db1 ← insert_row name (cells k x) db;
      insert_each name first_prop cells (S k) rest db1
  end.

Record SaleAnswer : Type := {
  ans_id : string;
  ans_receiptNumber : string;
  ans_status : string;
  ans_total : JsVal;
  ans_createdAt : string;
}.

(** The function passed to [transaction] by [POST /api/sales]. *)
Definition sale_tx `{Runtime} (cfg : Config) (env : SaleEnv) (b : JsVal) (db : Db)
    : Result (SaleAnswer * Db) :=
  let saleId := sale_ids env 0%nat in
  let '(receiptNumber, db0) := nextReceiptNumber (sale_iso env) db in
  _ ← prop b "terminalId";
  db1 ← insert_row "sales" (sale_cells cfg env saleId receiptNumber b) db0;
  items ← iterate (field b "items");
  db2 ← insert_each "sale_items" "productId"
          (fun k item => sale_item_cells (sale_ids env (1 + k)%nat) saleId item)
          0%nat items db1;
  payments ← iterate (field b "payments");
  db3 ← insert_each "payments" "method"
          (fun k p => payment_cells (sale_ids env (1 + length items + k)%nat) saleId
                        (sale_now env) p)
          0%nat payments db2;
  db4 ← enqueue_stmt "sale" saleId "create" (JSON_stringify b) (Some saleId) 10
          (sale_now env) db3;
  Ok ({| ans_id := saleId; ans_receiptNumber := receiptNumber;
         ans_status := "COMPLETED"; ans_total := field b "total";
         ans_createdAt := sale_iso env |}, db4).

Definition post_sales `{Runtime} (cfg : Config) (env : SaleEnv) (b : JsVal) (h : Hub)
    : Result SaleAnswer * Hub :=
  let '(r, db') := transaction (sale_tx cfg env b) (hub_db h) in
  (r, with_db (fun _ => db') h).

(** ** Pull engine ([sync/pull-sync.ts]) *)

Record PullResult : Type := {
  entity : string;
  pulled : Z;
  errors : list string;
}.

(** The per-entity field mappings: [transformItems] for the handlers that
    go through [fetchAndTransform], the literal row objects of the others,
    cut down to the columns their [upsertRows] call lists; and the writes a
    few handlers make besides their own table (the companion tables of
    products and of the pizza location config, the [deletedIds] of kitchen
    orders and sales).  No property below looks inside a replicated row, so
    both are kept as parameters; what is modelled is when they throw. *)
Class EntityCodec : Type := {
  row_cells : string -> JsVal -> Row;
  side_writes : string -> JsVal -> Tables -> Result Tables;
}.

Definition extractItems (data : JsVal) : list JsVal :=
  match data with
  | VArr xs => xs
  | VObj fs => match assoc_get "items" fs with VArr xs => xs | _ => [] end
  | _ => []
  end.

(** [rawItems.map(item => ...)] and [transformItems]: reading a property of
    a [null] item, or [Object.entries(null)], is a TypeError. *)
Definition rows_of `{EntityCodec} (name : string) (items : list JsVal)
    : Result (list Row) :=
  if existsb is_nullish items
  then Throw "Cannot read properties of null"
  else Ok (map (row_cells name) items).

Definition getSyncState (entityType : string) (db : Db) : SyncState :=
  default {| last_synced_at := None; last_sync_cursor := None; record_count := 0;
             sync_status := "IDLE"; updated_at := None |}
          (sync_state db !! entityType).

(** [INSERT INTO sync_state ... ON CONFLICT(entity_type) DO UPDATE SET ...] *)
Definition updateSyncState (now entityType : string) (recordCount : Z) (db : Db) : Db :=
  with_sync_state (fun m =>
    <[entityType :=
        {| last_synced_at := Some now;
           last_sync_cursor := (m !! entityType) ≫= last_sync_cursor;
           record_count := recordCount;
           sync_status := "SUCCESS";
           updated_at := Some now |}]> m) db.

Definition key_eqb (a b : JsVal) : bool :=
  match a, b with
  | VStr x, VStr y => String.eqb x y
  | VNum x, VNum y => x =? y
  | _, _ => false
  end.

(** The parameter bound for one listed column of one row:
    [val === undefined || val === null ? null :
     typeof val === "object" ? JSON.stringify(val) : val]. *)
Definition bind_value `{Runtime} (v : JsVal) : JsVal :=
  match v with
  | VUndefined | VNull => VNull
  | VArr _ | VObj _ => VStr (JSON_stringify v)
  | _ => v
  end.

(** [columns.map((col) => ...)]: one cell per listed column, NULL where
    the row object has no such property. *)
Definition bound `{Runtime} (columns : list string) (item : Row) : Row :=
  list_to_map (map (fun c => (c, bind_value (col item c))) columns).

(** [INSERT ... ON CONFLICT(key) DO UPDATE SET] every listed column: [r]
    holds a cell for each listed column, these overwrite, unlisted columns
    stay. *)
Fixpoint upsert_into (key : string) (rows : list Row) (r : Row) : list Row :=
  match rows with
  | [] => [r]
  | x :: rest =>
      if key_eqb (col x key) (col r key) then (r ∪ x) :: rest
      else x :: upsert_into key rest r
  end.

(** [insertMany]: the transaction of [upsertRows] over the bound rows; a
    row SQLite refuses is logged and skipped. *)
Definition insertMany `{Runtime} (name : string) (cells : list Row) (t : Tables)
    : Z * Tables :=
  fold_left
    (fun (acc : Z * Tables) r =>
       if sql_accepts acc.2 name r
       then (acc.1 + 1, <[name := upsert_into "id" (table acc.2 name) r]> acc.2)
       else acc)
    cells (0, t).

(** [upsertRows(tableName, rows, columns)]: nothing to do for no rows;
    otherwise the statement is prepared, outside any [try], and a table
    that lacks a listed column makes that throw. *)
Definition upsertRows `{Runtime} (name : string) (rows : list Row)
    (columns : list string) (t : Tables) : Result (Z * Tables) :=
  match rows with
  | [] => Ok (0, t)
  | _ =>
      if sql_prepares name columns
      then Ok (insertMany name (map (bound columns) rows) t)
      else Throw ("SQLITE_ERROR: table " +:+ name +:+ " has no such column")
  end.

(** [replaceTable]: DELETE everything, then plain INSERTs, in one
    transaction; a refused row is logged and skipped, a refused DELETE
    aborts and rolls back. *)
Definition replaceTable `{Runtime} (name : string) (rows : list Row) (t : Tables)
    : Result Tables :=
  match rows with
  | [] => Ok t
  | _ =>
      if sql_can_clear t name then
        Ok (fold_left
              (fun (acc : Tables) r =>
                 if sql_accepts acc name r
                 then <[name := table acc name ++ [r]]> acc
                 else acc)
              rows (<[name := []]> t))
      else Throw "SQLITE_CONSTRAINT: FOREIGN KEY"
  end.

(** The three ways a handler treats a response that is not 2xx. *)
Inductive FetchStyle :=
| ViaFetchAndTransform   (* 404 reads as no rows, anything else throws *)
| DirectTolerant         (* 404 returns an empty result, anything else an error result *)
| DirectStrict.          (* every non-2xx returns an error result *)

Inductive WriteStyle :=
| Upsert                 (* upsertRows; reports its count *)
| ReplaceCountRows       (* replaceTable; reports rows.length *)
| ReplaceCountUnbound.   (* replaceTable; then reads the undeclared [count] *)

Inductive SideStyle := NoSide | SideBefore | SideAfter.

Record EntityPlan : Type := {
  e_name : string;       (* plan name, table, sync_state key, result entity *)
  e_path : string;
  e_cursor : bool;       (* sends sinceVersion = last_synced_at *)
  e_fetch : FetchStyle;
  e_write : WriteStyle;
  e_side : SideStyle;
  e_columns : list string;  (* the columns its upsertRows / replaceTable call lists *)
}.

Inductive PlanEntry :=
| Listed (e : EntityPlan)
| LocationSettings
| TerminalSettings.

Definition entry_name (p : PlanEntry) : string :=
  match p with
  | Listed e => e_name e
  | LocationSettings => "location_settings"
  | TerminalSettings => "terminal_settings"
  end.

(** [res.error ?? `HTTP ${res.status}`] *)
Definition failure_text (res : CloudResponse) : string :=
  default ("HTTP " +:+ String_of_Z (res_status res)) (res_error res).

Definition cursor_params (e : EntityPlan) (db : Db) : list (string * string) :=
  if e_cursor e then
    match last_synced_at (getSyncState (e_name e) db) with
    | Some t => if String.eqb t "" then [] else [("sinceVersion", t)]
    | None => []
    end
  else [].

(** The part of a handler after its rows are in hand. *)
Definition store_rows `{Runtime} `{EntityCodec} (now : string) (e : EntityPlan)
    (data : JsVal) (rows : list Row) (db : Db) : Result PullResult * Db :=
  let name := e_name e in
  let written : Result (option Z * Tables) :=
    match e_write e with
    | Upsert =>
        ct ← upsertRows name rows (e_columns e) (tables db); Ok (Some ct.1, ct.2)
    | ReplaceCountRows =>
        t ← replaceTable name rows (tables db); Ok (Some (Z.of_nat (length rows)), t)
    | ReplaceCountUnbound =>
        t ← replaceTable name rows (tables db); Ok (None, t)
    end in
  match written with
  | Throw msg => (Throw msg, db)
  | Ok (c, t) =>
      let db1 := with_tables (fun _ => t) db in
      let sided :=
        match e_side e with
        | SideBefore => side_writes name data t
        | _ => Ok t
        end in
      match sided with
      | Throw msg => (Throw msg, db1)
      | Ok t2 =>
          let db2 := with_tables (fun _ => t2) db1 in
          match c with
          | None => (Throw "count is not defined", db2)
          | Some n =>
              let db3 := updateSyncState now name n db2 in
              let answer := {| entity := name; pulled := n; errors := [] |} in
              match e_side e with
              | SideAfter =>
                  match side_writes name data (tables db3) with
                  | Ok t3 => (Ok answer, with_tables (fun _ => t3) db3)
                  | Throw msg => (Throw msg, db3)
                  end
              | _ => (Ok answer, db3)
              end
          end
      end
  end.

(** One listed handler. *)
Definition pull_listed `{Runtime} `{EntityCodec} (cfg : Config) (net : Net)
    (now : string) (e : EntityPlan) (db : Db) (log : list Request)
    : Result PullResult * Db * list Request :=
  let name := e_name e in
  match cloud_get cfg net (e_path e) (cursor_params e db) log with
  | (Throw msg, log') => (Throw msg, db, log')
  | (Ok res, log') =>
      let go (data : JsVal) (items : list JsVal) :=
        match rows_of name items with
        | Throw msg => (Throw msg, db, log')
        | Ok rows => let '(r, db') := store_rows now e data rows db in (r, db', log')
        end in
      if res_ok res then go (res_data res) (extractItems (res_data res))
      else
        match e_fetch e with
        | ViaFetchAndTransform =>
            if res_status res =? 404 then go VNull []
            else (Throw (failure_text res), db, log')
        | DirectTolerant =>
            if res_status res =? 404
            then (Ok {| entity := name; pulled := 0; errors := [] |}, db, log')
            else (Ok {| entity := name; pulled := 0; errors := [failure_text res] |}, db, log')
        | DirectStrict =>
            (Ok {| entity := name; pulled := 0; errors := [failure_text res] |}, db, log')
        end
  end.

(** [INSERT OR REPLACE INTO t]: the row replaces the one with its key. *)
Definition replace_row `{Runtime} (name key : string) (r : Row) (db : Db) : Result Db :=
  if sql_accepts (tables db) name r
  then Ok (with_tables (fun t =>
             <[name := List.filter (fun x => negb (key_eqb (col x key) (col r key)))
                         (table t name) ++ [r]]> t) db)
  else Throw ("SQLITE_CONSTRAINT: " +:+ name).

Definition pullLocationSettings `{Runtime} `{EntityCodec} (cfg : Config) (net : Net)
    (now : string) (db : Db) (log : list Request)
    : Result PullResult * Db * list Request :=
  let name := "location_settings" in
  match cloud_get cfg net "/api/hub/sync/location-settings" [] log with
  | (Throw msg, log') => (Throw msg, db, log')
  | (Ok res, log') =>
      if negb (res_ok res)
      then (Ok {| entity := name; pulled := 0; errors := [failure_text res] |}, db, log')
      else
        let data := res_data res in
        if negb (truthy data) || negb (truthy (field data "id"))
        then (Ok {| entity := name; pulled := 0; errors := [] |}, db, log')
        else
          match replace_row name "location_id" (row_cells name data) db with
          | Throw msg => (Throw msg, db, log')
          | Ok db1 =>
              (Ok {| entity := name; pulled := 1; errors := [] |},
               updateSyncState now name 1 db1, log')
          end
  end.

Definition bool01 (b : bool) : JsVal := VNum (if b then 1 else 0).

(** [v !== false] *)
Definition not_false (v : JsVal) : bool :=
  match v with VBool false => false | _ => true end.

(** The parameters [pullTerminalSettings] binds for one terminal, in
    argument order.  [(data.cartPosition as string)?.toLowerCase()] skips
    the call for [null] and [undefined] only: any other value that is not
    a string has no such method, and the call is a TypeError. *)
Definition terminal_settings_cells `{Runtime} (data : JsVal) : Result Row :=
  cart ← match field data "cartPosition" with
         | VUndefined | VNull => Ok (VStr "right")
         | VStr s => Ok (VStr (toLowerCase s))
         | _ => Throw "data.cartPosition?.toLowerCase is not a function"
         end;
  Ok (list_to_map
        [("terminal_id", field data "id");
         ("name", or_null (field data "name"));
         ("dark_mode", bool01 (truthy (field data "darkMode")));
         ("cart_position", cart);
         ("restaurant_mode", bool01 (truthy (field data "restaurantMode")));
         ("auto_print_receipt", bool01 (not_false (field data "autoPrintReceipt")));
         ("auto_logout_after_send_order",
          bool01 (truthy (field data "autoLogoutAfterSendOrder")));
         ("auto_logout_after_payment", bool01 (truthy (field data "autoLogoutAfterPayment")));
         ("auto_logout_timeout", or_null (field data "autoLogoutTimeout"));
         ("block_clock_out_with_open_orders",
          bool01 (truthy (field data "blockClockOutWithOpenOrders")));
         ("allow_shared_cash_drawer", bool01 (truthy (field data "allowSharedCashDrawer")))]).

(** The state of the terminal loop.  Every statement of the loop commits
    on its own, so when a turn throws ([tl_thrown]) the rows written and
    the requests sent by the turns before it stay. *)
Record TerminalLoop : Type := {
  tl_db : Db;
  tl_log : list Request;
  tl_pulled : Z;
  tl_errors : list string;
  tl_thrown : option string;
}.

Definition tl_throw (msg : string) (log : list Request) (s : TerminalLoop)
    : TerminalLoop :=
  {| tl_db := tl_db s; tl_log := log; tl_pulled := tl_pulled s; tl_errors := tl_errors s;
     tl_thrown := Some msg |}.

(** The body of [for (const terminal of terminals)]; no turn runs after
    one that threw. *)
Definition terminal_turn `{Runtime} (cfg : Config) (net : Net)
    (s : TerminalLoop) (terminal : Row) : TerminalLoop :=
  match tl_thrown s with
  | Some _ => s
  | None =>
      let tid := js_to_string (col terminal "id") in
      match cloud_get cfg net "/api/hub/sync/terminal-settings" [("terminalId", tid)]
              (tl_log s) with
      | (Throw msg, log') => tl_throw msg log' s
      | (Ok res, log') =>
          if negb (res_ok res) then
            {| tl_db := tl_db s; tl_log := log'; tl_pulled := tl_pulled s;
               tl_errors := tl_errors s ++
                 ["Terminal " +:+ tid +:+ ": " +:+ failure_text res];
               tl_thrown := None |}
          else
            let data := res_data res in
            if negb (truthy data) || negb (truthy (field data "id")) then
              {| tl_db := tl_db s; tl_log := log'; tl_pulled := tl_pulled s;
                 tl_errors := tl_errors s; tl_thrown := None |}
            else
              match terminal_settings_cells data with
              | Throw msg => tl_throw msg log' s
              | Ok cells =>
                  match replace_row "terminal_settings" "terminal_id" cells (tl_db s) with
                  | Throw msg => tl_throw msg log' s
                  | Ok db1 =>
                      {| tl_db := db1; tl_log := log'; tl_pulled := tl_pulled s + 1;
                         tl_errors := tl_errors s; tl_thrown := None |}
                  end
              end
      end
  end.

Definition pullTerminalSettings `{Runtime} (cfg : Config) (net : Net)
    (now : string) (db : Db) (log : list Request)
    : Result PullResult * Db * list Request :=
  let name := "terminal_settings" in
  let terminals :=
    List.filter (fun t => JsVal_is_str (col t "location_id") (default "" (locationId cfg)))
                (table (tables db) "terminals") in
  match terminals with
  | [] => (Ok {| entity := name; pulled := 0; errors := [] |}, db, log)
  | _ =>
      let s := fold_left (terminal_turn cfg net) terminals
                 {| tl_db := db; tl_log := log; tl_pulled := 0; tl_errors := [];
                    tl_thrown := None |} in
      match tl_thrown s with
      | Some msg => (Throw msg, tl_db s, tl_log s)
      | None =>
          (Ok {| entity := name; pulled := tl_pulled s; errors := tl_errors s |},
           updateSyncState now name (tl_pulled s) (tl_db s), tl_log s)
      end
  end.

(** The dependency-ordered plan of [runFullSync], in source order. *)
Definition plan : list PlanEntry :=
  [
   Listed {| e_name := "categories"; e_path := "/api/hub/sync/categories"; e_cursor := true;
             e_fetch := ViaFetchAndTransform; e_write := Upsert; e_side := NoSide;
             e_columns :=
               ["id"; "tenant_id"; "name"; "parent_id"; "sort_order"; "color"; "image_url";
                "is_active"] |};
   Listed {| e_name := "products"; e_path := "/api/hub/sync/products"; e_cursor := true;
             e_fetch := DirectStrict; e_write := Upsert; e_side := SideBefore;
             e_columns :=
               ["id"; "tenant_id"; "name"; "sku"; "barcode"; "category_id"; "description";
                "base_price"; "cost_price"; "tax_type_ids"; "product_type";
                "is_active"; "track_inventory"; "image_url"; "sort_order";
                "metadata"; "created_at"; "updated_at"] |};
   Listed {| e_name := "product_variants"; e_path := "/api/hub/sync/product-variants"; e_cursor := true;
             e_fetch := ViaFetchAndTransform; e_write := Upsert; e_side := NoSide;
             e_columns :=
               ["id"; "tenant_id"; "product_id"; "name"; "sku"; "barcode"; "price"; "cost_price";
                "sort_order"; "is_active"; "created_at"; "updated_at"] |};
   Listed {| e_name := "tax_types"; e_path := "/api/hub/sync/tax-types"; e_cursor := false;
             e_fetch := ViaFetchAndTransform; e_write := Upsert; e_side := NoSide;
             e_columns :=
               ["id"; "tenant_id"; "name"; "rate"; "code"; "is_active"; "created_at"; "updated_at"] |};
   Listed {| e_name := "location_taxes"; e_path := "/api/hub/sync/location-taxes"; e_cursor := false;
             e_fetch := ViaFetchAndTransform; e_write := Upsert; e_side := NoSide;
             e_columns :=
               ["id"; "location_id"; "tax_type_id"; "rate"; "is_active"] |};
   Listed {| e_name := "location_category_taxes"; e_path := "/api/hub/sync/location-category-taxes"; e_cursor := false;
             e_fetch := ViaFetchAndTransform; e_write := Upsert; e_side := NoSide;
             e_columns :=
               ["id"; "location_id"; "category_id"; "tax_type_id"] |};
   Listed {| e_name := "customers"; e_path := "/api/hub/sync/customers"; e_cursor := true;
             e_fetch := ViaFetchAndTransform; e_write := Upsert; e_side := NoSide;
             e_columns :=
               ["id"; "tenant_id"; "first_name"; "last_name"; "email"; "phone"; "address"; "city";
                "province"; "postal_code"; "notes"; "created_at"; "updated_at"] |};
   Listed {| e_name := "modifier_groups"; e_path := "/api/hub/sync/modifier-groups"; e_cursor := false;
             e_fetch := ViaFetchAndTransform; e_write := Upsert; e_side := NoSide;
             e_columns :=
               ["id"; "tenant_id"; "name"; "selection_type"; "min_qty"; "max_qty";
                "free_selections"; "allow_quantity"; "created_at"; "updated_at"] |};
   Listed {| e_name := "modifiers"; e_path := "/api/hub/sync/modifiers"; e_cursor := false;
             e_fetch := ViaFetchAndTransform; e_write := Upsert; e_side := NoSide;
             e_columns :=
               ["id"; "modifier_group_id"; "name"; "price_type"; "price_adjustment"; "is_default";
                "linked_product_id"; "sort_order"; "is_active"; "created_at";
                "updated_at"] |};
   Listed {| e_name := "product_modifier_groups"; e_path := "/api/hub/sync/product-modifier-groups"; e_cursor := false;
             e_fetch := ViaFetchAndTransform; e_write := Upsert; e_side := NoSide;
             e_columns :=
               ["id"; "product_id"; "modifier_group_id"; "priority"; "is_required";
                "free_selections_override"] |};
   Listed {| e_name := "discount_templates"; e_path := "/api/hub/sync/discount-templates"; e_cursor := false;
             e_fetch := DirectStrict; e_write := Upsert; e_side := NoSide;
             e_columns :=
               ["id"; "tenant_id"; "name"; "type"; "value"; "scope"; "is_active"; "created_at";
                "updated_at"] |};
   Listed {| e_name := "gift_cards"; e_path := "/api/hub/sync/gift-cards"; e_cursor := false;
             e_fetch := DirectStrict; e_write := Upsert; e_side := NoSide;
             e_columns :=
               ["id"; "tenant_id"; "code"; "initial_balance"; "current_balance"; "is_active";
                "expires_at"; "created_at"; "updated_at"] |};
   Listed {| e_name := "coupon_codes"; e_path := "/api/hub/sync/coupons"; e_cursor := false;
             e_fetch := DirectStrict; e_write := Upsert; e_side := NoSide;
             e_columns :=
               ["id"; "tenant_id"; "code"; "name"; "discount_type"; "discount_value";
                "min_order_amount"; "max_uses"; "current_uses"; "is_active";
                "starts_at"; "expires_at"; "created_at"; "updated_at"] |};
   Listed {| e_name := "deals"; e_path := "/api/hub/sync/deals"; e_cursor := false;
             e_fetch := DirectStrict; e_write := Upsert; e_side := NoSide;
             e_columns :=
               ["id"; "tenant_id"; "config_id"; "name"; "code"; "description"; "deal_type";
                "base_price"; "pricing_mode"; "topping_charge_target"; "is_active";
                "min_order_amount"; "max_uses_total"; "max_uses_per_customer";
                "max_uses_per_order"; "current_uses"; "order_types"; "location_ids";
                "free_toppings"; "free_premium_toppings"; "topping_type";
                "free_toppings_scope"; "free_crust"; "category_id"; "config";
                "can_stack"; "allow_discount"; "allow_coupon"; "starts_at";
                "expires_at"; "created_at"; "updated_at"] |};
   Listed {| e_name := "deal_items"; e_path := "/api/hub/sync/deal-items"; e_cursor := false;
             e_fetch := DirectTolerant; e_write := Upsert; e_side := NoSide;
             e_columns :=
               ["id"; "tenant_id"; "deal_id"; "product_id"; "product_ids"; "category_id";
                "variant_id"; "product_type"; "name"; "role"; "quantity";
                "quantity_per_item"; "min_quantity"; "max_quantity";
                "discount_type"; "discount_value"; "sort_order"; "allow_pizza";
                "allow_variant_selection"; "can_swap"; "swap_product_ids"] |};
   Listed {| e_name := "deal_time_restrictions"; e_path := "/api/hub/sync/deal-time-restrictions"; e_cursor := false;
             e_fetch := ViaFetchAndTransform; e_write := Upsert; e_side := NoSide;
             e_columns :=
               ["id"; "deal_id"; "day_of_week"; "start_time"; "end_time"] |};
   Listed {| e_name := "deal_size_prices"; e_path := "/api/hub/sync/deal-size-prices"; e_cursor := false;
             e_fetch := ViaFetchAndTransform; e_write := Upsert; e_side := NoSide;
             e_columns :=
               ["id"; "deal_id"; "size_id"; "price"] |};
   Listed {| e_name := "users"; e_path := "/api/hub/sync/users"; e_cursor := true;
             e_fetch := DirectStrict; e_write := Upsert; e_side := NoSide;
             e_columns :=
               ["id"; "tenant_id"; "name"; "email"; "pin_hash"; "role"; "permissions";
                "max_discount"; "is_active"; "created_at"; "updated_at"] |};
   LocationSettings;
   TerminalSettings;
   Listed {| e_name := "floors"; e_path := "/api/hub/sync/floors"; e_cursor := false;
             e_fetch := DirectStrict; e_write := Upsert; e_side := NoSide;
             e_columns :=
               ["id"; "tenant_id"; "location_id"; "name"; "sort_order"; "background_image";
                "is_active"] |};
   Listed {| e_name := "areas"; e_path := "/api/hub/sync/areas"; e_cursor := false;
             e_fetch := DirectStrict; e_write := Upsert; e_side := NoSide;
             e_columns :=
               ["id"; "tenant_id"; "floor_id"; "name"; "sort_order"] |};
   Listed {| e_name := "tables"; e_path := "/api/hub/sync/tables"; e_cursor := false;
             e_fetch := DirectStrict; e_write := Upsert; e_side := NoSide;
             e_columns :=
               ["id"; "tenant_id"; "floor_id"; "area_id"; "name"; "capacity"; "shape"; "x_position";
                "y_position"; "width"; "height"; "rotation"; "is_active"] |};
   Listed {| e_name := "courses"; e_path := "/api/hub/sync/courses"; e_cursor := false;
             e_fetch := DirectStrict; e_write := Upsert; e_side := NoSide;
             e_columns :=
               ["id"; "tenant_id"; "location_id"; "name"; "sort_order"; "auto_fire"] |};
   Listed {| e_name := "note_presets"; e_path := "/api/hub/sync/note-presets"; e_cursor := false;
             e_fetch := ViaFetchAndTransform; e_write := Upsert; e_side := NoSide;
             e_columns :=
               ["id"; "location_id"; "text"; "sort_order"; "usage_count"] |};
   Listed {| e_name := "location_product_overrides"; e_path := "/api/hub/sync/location-product-overrides"; e_cursor := false;
             e_fetch := ViaFetchAndTransform; e_write := Upsert; e_side := NoSide;
             e_columns :=
               ["id"; "tenant_id"; "location_id"; "product_id"; "variant_id"; "kit_id"; "price";
                "cost_price"; "is_available"; "tax_type_ids"] |};
   Listed {| e_name := "pizza_size_prices"; e_path := "/api/hub/sync/pizza-size-prices"; e_cursor := false;
             e_fetch := DirectTolerant; e_write := Upsert; e_side := NoSide;
             e_columns :=
               ["id"; "tenant_id"; "size_id"; "product_id"; "base_price"; "is_available"] |};
   Listed {| e_name := "pizza_topping_prices"; e_path := "/api/hub/sync/pizza-topping-prices"; e_cursor := false;
             e_fetch := DirectTolerant; e_write := ReplaceCountRows; e_side := NoSide;
             e_columns :=
               ["id"; "tenant_id"; "topping_id"; "size_id"; "product_id"; "light_price";
                "regular_price"; "extra_price"] |};
   Listed {| e_name := "pizza_crust_prices"; e_path := "/api/hub/sync/pizza-crust-prices"; e_cursor := false;
             e_fetch := DirectTolerant; e_write := ReplaceCountRows; e_side := NoSide;
             e_columns :=
               ["id"; "tenant_id"; "crust_id"; "size_id"; "product_id"; "upcharge"] |};
   Listed {| e_name := "pizza_sauce_prices"; e_path := "/api/hub/sync/pizza-sauce-prices"; e_cursor := false;
             e_fetch := DirectTolerant; e_write := ReplaceCountRows; e_side := NoSide;
             e_columns :=
               ["id"; "tenant_id"; "sauce_id"; "size_id"; "product_id"; "light_price";
                "regular_price"; "extra_price"] |};
   Listed {| e_name := "pizza_cheese_prices"; e_path := "/api/hub/sync/pizza-cheese-prices"; e_cursor := false;
             e_fetch := DirectTolerant; e_write := ReplaceCountUnbound; e_side := NoSide;
             e_columns :=
               ["id"; "tenant_id"; "cheese_id"; "size_id"; "product_id"; "light_price";
                "regular_price"; "extra_price"] |};
   Listed {| e_name := "pizza_size_order_type_prices"; e_path := "/api/hub/sync/pizza-size-order-type-prices"; e_cursor := false;
             e_fetch := ViaFetchAndTransform; e_write := Upsert; e_side := NoSide;
             e_columns :=
               ["id"; "size_price_id"; "order_type"; "price"] |};
   Listed {| e_name := "pizza_location_config"; e_path := "/api/hub/sync/pizza-location-config"; e_cursor := false;
             e_fetch := DirectTolerant; e_write := Upsert; e_side := SideAfter;
             e_columns :=
               ["id"; "tenant_id"; "location_id"; "config_id"; "is_enabled";
                "half_and_half_enabled"; "data"] |};
   Listed {| e_name := "roles"; e_path := "/api/hub/sync/roles"; e_cursor := false;
             e_fetch := ViaFetchAndTransform; e_write := Upsert; e_side := NoSide;
             e_columns :=
               ["id"; "tenant_id"; "name"; "permissions"] |};
   Listed {| e_name := "inventory_levels"; e_path := "/api/hub/sync/inventory-levels"; e_cursor := false;
             e_fetch := ViaFetchAndTransform; e_write := Upsert; e_side := NoSide;
             e_columns :=
               ["id"; "tenant_id"; "product_variant_id"; "location_id"; "quantity";
                "reserved_quantity"; "low_stock_threshold"; "reorder_point";
                "reorder_quantity"] |};
   Listed {| e_name := "post_codes"; e_path := "/api/hub/sync/post-codes"; e_cursor := false;
             e_fetch := ViaFetchAndTransform; e_write := Upsert; e_side := NoSide;
             e_columns :=
               ["id"; "tenant_id"; "code"; "delivery_charge"; "driver_compensation"; "is_active"] |};
   Listed {| e_name := "customer_addresses"; e_path := "/api/hub/sync/customer-addresses"; e_cursor := false;
             e_fetch := ViaFetchAndTransform; e_write := Upsert; e_side := NoSide;
             e_columns :=
               ["id"; "customer_id"; "tenant_id"; "label"; "unit_number"; "address";
                "address_notes"; "buzzer_number"; "city"; "province"; "postal_code";
                "delivery_charge"; "driver_compensation"; "is_default"; "is_active"] |};
   Listed {| e_name := "category_schedules"; e_path := "/api/hub/sync/category-schedules"; e_cursor := false;
             e_fetch := ViaFetchAndTransform; e_write := Upsert; e_side := NoSide;
             e_columns :=
               ["id"; "tenant_id"; "location_id"; "category_id"; "name"; "day_of_week";
                "start_time"; "end_time"; "effective_date"; "expiry_date";
                "is_active"; "priority"] |};
   Listed {| e_name := "price_schedules"; e_path := "/api/hub/sync/price-schedules"; e_cursor := false;
             e_fetch := ViaFetchAndTransform; e_write := Upsert; e_side := NoSide;
             e_columns :=
               ["id"; "tenant_id"; "location_id"; "product_id"; "product_variant_id"; "name";
                "price_type"; "price_value"; "day_of_week"; "start_time";
                "end_time"; "effective_date"; "expiry_date"; "is_active"; "priority"] |};
   Listed {| e_name := "deal_size_order_type_prices"; e_path := "/api/hub/sync/deal-size-order-type-prices"; e_cursor := false;
             e_fetch := ViaFetchAndTransform; e_write := Upsert; e_side := NoSide;
             e_columns :=
               ["id"; "size_price_id"; "order_type"; "price"] |};
   Listed {| e_name := "location_business_hours"; e_path := "/api/hub/sync/location-business-hours"; e_cursor := false;
             e_fetch := ViaFetchAndTransform; e_write := Upsert; e_side := NoSide;
             e_columns :=
               ["id"; "location_id"; "day_of_week"; "open_time"; "close_time"; "is_closed"] |};
   Listed {| e_name := "web_order_settings"; e_path := "/api/hub/sync/web-order-settings"; e_cursor := false;
             e_fetch := DirectTolerant; e_write := Upsert; e_side := NoSide;
             e_columns :=
               ["id"; "location_id"; "alert_enabled"; "alert_sound"; "alert_volume";
                "alert_repeat_interval"; "alert_max_repeats"; "prep_time_take_out";
                "prep_time_delivery"; "prep_time_buffer"; "auto_accept_enabled";
                "auto_accept_max_amount"; "require_decline_reason";
                "decline_reasons"; "accept_orders_enabled"; "operating_hours"] |};
   Listed {| e_name := "caller_id_config"; e_path := "/api/hub/sync/caller-id-config"; e_cursor := true;
             e_fetch := ViaFetchAndTransform; e_write := Upsert; e_side := NoSide;
             e_columns :=
               ["id"; "location_id"; "tenant_id"; "enabled"; "hardware_type"; "line_count";
                "connection_mode"; "udp_port"; "udp_listener_host";
                "cloud_relay_url"; "cloud_relay_token"; "push_method";
                "polling_interval"; "auto_lookup_customer"; "log_all_calls";
                "show_caller_animation"; "popup_on_incoming"; "play_ring_sound";
                "created_at"; "updated_at"] |};
   Listed {| e_name := "caller_id_lines"; e_path := "/api/hub/sync/caller-id-lines"; e_cursor := true;
             e_fetch := ViaFetchAndTransform; e_write := Upsert; e_side := NoSide;
             e_columns :=
               ["id"; "config_id"; "line_number"; "label"; "enabled"; "default_order_type";
                "ring_sound"; "priority"; "color"; "created_at"; "updated_at"] |};
   Listed {| e_name := "cash_drawers"; e_path := "/api/hub/sync/cash-drawers"; e_cursor := false;
             e_fetch := ViaFetchAndTransform; e_write := Upsert; e_side := NoSide;
             e_columns :=
               ["id"; "tenant_id"; "terminal_id"; "user_id"; "status"; "opening_balance";
                "closing_balance"; "expected_balance"; "difference"; "notes";
                "opened_at"; "closed_at"; "closed_by_id"] |};
   Listed {| e_name := "cash_drawer_transactions"; e_path := "/api/hub/sync/cash-drawer-transactions"; e_cursor := false;
             e_fetch := ViaFetchAndTransform; e_write := Upsert; e_side := NoSide;
             e_columns :=
               ["id"; "cash_drawer_id"; "type"; "amount"; "reference"; "reason"; "user_id";
                "created_at"] |};
   Listed {| e_name := "staff_banks"; e_path := "/api/hub/sync/staff-banks"; e_cursor := false;
             e_fetch := ViaFetchAndTransform; e_write := Upsert; e_side := NoSide;
             e_columns :=
               ["id"; "tenant_id"; "user_id"; "location_id"; "bank_type"; "status";
                "opening_balance"; "closing_balance"; "expected_balance";
                "difference"; "notes"; "opened_at"; "closed_at"; "closed_by_id";
                "card_total"; "tips_collected"; "tips_paid_out"] |};
   Listed {| e_name := "staff_bank_transactions"; e_path := "/api/hub/sync/staff-bank-transactions"; e_cursor := false;
             e_fetch := ViaFetchAndTransform; e_write := Upsert; e_side := NoSide;
             e_columns :=
               ["id"; "staff_bank_id"; "type"; "amount"; "reference"; "reason"; "user_id";
                "created_at"] |};
   Listed {| e_name := "store_credits"; e_path := "/api/hub/sync/store-credits"; e_cursor := false;
             e_fetch := ViaFetchAndTransform; e_write := Upsert; e_side := NoSide;
             e_columns :=
               ["id"; "tenant_id"; "customer_id"; "code"; "initial_amount"; "current_balance";
                "status"; "reason"; "refund_id"; "expires_at"; "created_by_id";
                "created_at"] |};
   Listed {| e_name := "kitchen_orders"; e_path := "/api/hub/sync/kitchen-orders"; e_cursor := true;
             e_fetch := DirectTolerant; e_write := Upsert; e_side := SideBefore;
             e_columns :=
               ["id"; "tenant_id"; "location_id"; "order_number"; "table_session_id";
                "table_number"; "order_type"; "status"; "priority"; "notes";
                "created_by"; "created_at"; "prep_started_at"; "ready_at";
                "completed_at"; "data"; "split_group_id"; "parent_order_id";
                "is_split_child"; "split_index"; "combined_from_ids";
                "combined_from_numbers"; "is_combined"] |};
   Listed {| e_name := "kitchen_order_items"; e_path := "/api/hub/sync/kitchen-order-items"; e_cursor := false;
             e_fetch := DirectTolerant; e_write := Upsert; e_side := NoSide;
             e_columns :=
               ["id"; "kitchen_order_id"; "product_id"; "product_name"; "variant_id";
                "variant_name"; "quantity"; "course_id"; "status"; "notes";
                "modifiers"; "metadata"; "unit_price"; "discount"; "discount_type";
                "tax"; "tax_rate"; "tax_type_ids"; "fired_at"; "ready_at";
                "served_at"; "voided_at"; "void_reason"] |};
   Listed {| e_name := "sales"; e_path := "/api/hub/sync/sales"; e_cursor := true;
             e_fetch := DirectTolerant; e_write := Upsert; e_side := SideBefore;
             e_columns :=
               ["id"; "tenant_id"; "location_id"; "terminal_id"; "receipt_number"; "order_type";
                "customer_id"; "customer_name"; "table_session_id"; "table_number";
                "subtotal"; "discount_total"; "tax_total"; "tax_breakdown";
                "delivery_charge"; "driver_compensation"; "coupon_code_id"; "total";
                "gratuity"; "amount_paid"; "change_given"; "status"; "cashier_id";
                "cashier_name"; "created_at"; "voided_at"; "void_reason"; "data";
                "sync_status"] |};
   Listed {| e_name := "sale_items"; e_path := "/api/hub/sync/sale-items"; e_cursor := false;
             e_fetch := DirectTolerant; e_write := Upsert; e_side := NoSide;
             e_columns :=
               ["id"; "sale_id"; "product_id"; "product_name"; "variant_id"; "variant_name";
                "quantity"; "unit_price"; "discount"; "discount_type"; "tax";
                "tax_rate"; "tax_type_ids"; "total"; "notes"; "modifiers";
                "metadata"; "weight"; "weight_unit"; "product_kit_id"] |}
  ].

Definition pull_entry `{Runtime} `{EntityCodec} (cfg : Config) (net : Net)
    (now : string) (p : PlanEntry) (db : Db) (log : list Request)
    : Result PullResult * Db * list Request :=
  match p with
  | Listed e => pull_listed cfg net now e db log
  | LocationSettings => pullLocationSettings cfg net now db log
  | TerminalSettings => pullTerminalSettings cfg net now db log
  end.

Record PullState : Type := {
  ps_results : list PullResult;
  ps_db : Db;
  ps_log : list Request;
}.

(** The [try]/[catch] around each [entity.pull()]. *)
Definition pull_turn `{Runtime} `{EntityCodec} (cfg : Config) (net : Net)
    (now : string) (st : PullState) (p : PlanEntry) : PullState :=
  let '(r, db', log') := pull_entry cfg net now p (ps_db st) (ps_log st) in
  let result :=
    match r with
    | Ok result => result
    | Throw msg => {| entity := entry_name p; pulled := 0; errors := [msg] |}
    end in
  {| ps_results := ps_results st ++ [result]; ps_db := db'; ps_log := log' |}.

Record PullSyncEngine : Type := { pull_running : bool }.

Definition runFullSync_over `{Runtime} `{EntityCodec} (entities : list PlanEntry)
    (cfg : Config) (net : Net) (now : string) (eng : PullSyncEngine) (db : Db)
    (log : list Request) : list PullResult * PullSyncEngine * Db * list Request :=
  if pull_running eng then ([], eng, db, log)
  else if negb (isConfigured cfg) then ([], eng, db, log)
  else
    let st := fold_left (pull_turn cfg net now) entities
                {| ps_results := []; ps_db := db; ps_log := log |} in
    (ps_results st, {| pull_running := false |}, ps_db st, ps_log st).

Definition runFullSync `{Runtime} `{EntityCodec} :=
  runFullSync_over plan.

(** Requests to [POST /api/auth/pin] served one after the other. *)
Fixpoint serve_pins `{Runtime} (cfg : Config) (rqs : list PinRequest) (h : Hub)
    : list Reply * Hub :=
  match rqs with
  | [] => ([], h)
  | rq :: rest =>
      let '(r, h1) := post_auth_pin cfg rq h in
      let '(rs, h2) := serve_pins cfg rest h1 in
      (r :: rs, h2)
  end.

Definition client_ip (rq : PinRequest) : string := default "unknown" (ip rq).

(** A well-formed PIN attempt from the address [addr]. *)
Definition attempt_from (addr : string) (rq : PinRequest) : bool :=
  negb (pin_malformed (pin rq)) && String.eqb (client_ip rq) addr.

(** ** A concrete runtime, for the worked examples *)

Definition demo_accepts (t : Tables) (name : string) (r : Row) : bool :=
  if String.eqb name "sale_items"
  then negb (is_nullish (col r "product_id")) && negb (is_nullish (col r "product_name"))
  else if String.eqb name "payments"
  then negb (is_nullish (col r "method")) && negb (is_nullish (col r "amount"))
  else true.

Definition demo_runtime : Runtime :=
  {| JSON_stringify := fun v => match v with VStr s => s | _ => "{}" end;
     JSON_parse := fun s => if String.eqb s "" then None else Some (VObj []);
     URL_ok := fun _ base => negb (String.eqb base "");
     bcrypt_compare := fun p h => Some (String.eqb ("hash:" +:+ p) h);
     bcrypt_hashSync := fun p => "hash:" +:+ p;
     sql_accepts := demo_accepts;
     sql_can_clear := fun _ _ => true;
     sql_prepares := fun _ _ => true;
     toLowerCase := fun s => s |}.

Definition demo_codec : EntityCodec :=
  {| row_cells := fun _ v => {["id" := field v "id"]};
     side_writes := fun _ _ t => Ok t |}.

Definition demo_cfg : Config :=
  {| cloudApiUrl := Some "https://cloud.example/"; cloudApiKey := Some "key";
     tenantId := Some "t1"; locationId := Some "loc1" |}.

Definition net_status (st : Z) : Net := fun _ _ => Http st NotJson.

Definition demo_item (i : Z) (etype : string) (max : Z) : OutboxItem :=
  {| item_id := i; entity_type := etype; entity_id := "e1"; action := "create";
     payload := "{}"; correlation_id := None; priority := 10; status := PENDING;
     attempts := 0; max_attempts := max; error := None;
     created_at := "2026-01-01 10:00:00"; synced_at := None |}.

Definition db_with_outbox (items : list OutboxItem) : Db :=
  with_outbox (fun _ => items) empty_db.

Definition empty_hub : Hub :=
  {| hub_db := empty_db; pinAttempts := ∅; recentUserIds := []; broadcasts := [] |}.

Definition demo_user (i pin_text : string) : Row :=
  list_to_map [("id", VStr i); ("tenant_id", VStr "t1"); ("name", VStr ("user " +:+ i));
               ("is_active", VNum 1); ("pin_hash", VStr ("hash:" +:+ pin_text));
               ("role", VStr "cashier"); ("permissions", VStr "[]")].

Definition demo_hub : Hub :=
  {| hub_db := with_tables (fun _ => {["users" := [demo_user "u1" "1234"; demo_user "u2" "5678"]]})
                 empty_db;
     pinAttempts := ∅; recentUserIds := ["u1"]; broadcasts := [] |}.

(** ** Predicates the properties are stated with *)

(** The endpoint [ep] answers every request with status [st] (a readable
    body or none), whatever was sent before. *)
Definition answers_with (net : Net) (st : Z) (ep : string) : Prop :=
  forall lg rq, req_path rq = ep ->
    exists body, net lg rq = Http st body /\ forall m, body <> BadJson m.

(** The row [r] after [a] failed attempts. *)
Definition after_failures (r : OutboxItem) (a : Z) (row : OutboxItem) : Prop :=
  item_id row = item_id r /\ entity_type row = entity_type r /\
  payload row = payload r /\ max_attempts row = max_attempts r /\
  attempts row = a /\
  ((a < max_attempts r /\ status row = PENDING /\
    (0 < a -> error row = Some "HTTP 500: Server error")) \/
   (a = max_attempts r /\ status row = DEAD_LETTER /\
    error row = Some "Max attempts reached. Last: HTTP 500")).

(** What a whole batch does to one row of the table: rows outside the batch
    are untouched, a row in the batch is left as its turn decided, whatever
    was logged before that turn. *)
Definition turned `{Runtime} (cfg : Config) (net : Net) (now : string)
    (items : list OutboxItem) (a b : OutboxItem) : Prop :=
  (~ In a items /\ b = a) \/
  (In a items /\ exists lg, b = apply_outcome now (fst (decide_outcome cfg net lg a)) a).

(** Every request a batch sends is the envelope of a row whose entity type
    has an endpoint. *)
Definition sent_for_known (rq : Request) : Prop :=
  exists it parsed, is_Some (endpoint_of (entity_type it)) /\
    req_body rq = push_envelope it parsed.

(** The bucket of an address after one more counted attempt at [now]. *)
Definition next_entry (now : Z) (e : option RateEntry) : RateEntry :=
  match e with
  | None => {| count := 1; resetAt := now + PIN_RATE_WINDOW_MS |}
  | Some entry =>
      if resetAt entry <=? now
      then {| count := 1; resetAt := now + PIN_RATE_WINDOW_MS |}
      else {| count := count entry + 1; resetAt := resetAt entry |}
  end.

Definition demo_kitchen_hub (order_status : string) : Hub :=
  {| hub_db := with_tables
       (fun _ => {[ "kitchen_orders" :=
                      [list_to_map [("id", VStr "k1"); ("status", VStr order_status)]];
                    "kitchen_order_items" :=
                      [list_to_map [("id", VStr "i1"); ("kitchen_order_id", VStr "k1");
                                    ("status", VStr order_status)]] ]})
       empty_db;
     pinAttempts := ∅; recentUserIds := []; broadcasts := [] |}.

(** [n] letters e-acute (U+00E9): two bytes of UTF-8 each, one UTF-16 code
    unit each. *)
Fixpoint e_acutes (n : nat) : string :=
  match n with
  | O => EmptyString
  | S k => String (ascii_of_nat 195) (String (ascii_of_nat 169) (e_acutes k))
  end.

Definition demo_pin_request (t : Z) (p : string) : PinRequest :=
  {| pin := Some p; terminalId_field := None; ip := Some "10.0.0.5";
     x_terminal_id := None; at_ms := t; at_sql := "2026-01-01 10:00:00";
     new_session := "s" +:+ String_of_Z t |}.

Definition ten_wrong_pins : list PinRequest :=
  map (fun t => demo_pin_request t "0000") [0; 1; 2; 3; 4; 5; 6; 7; 8; 9].

Definition demo_sale_env : SaleEnv :=
  {| sale_now := "2026-11-01 09:00:00"; sale_iso := "2026-11-01T09:00:00.000Z";
     sale_ids := fun k => "id" +:+ String_of_nat k |}.

(** The body of scenario S1, with the product name the schema requires. *)
Definition demo_sale_body (with_name : bool) : JsVal :=
  VObj [("total", VNum 10);
        ("items", VArr [VObj ([("productId", VStr "p1")]
                              ++ (if with_name then [("productName", VStr "Tea")] else [])
                              ++ [("quantity", VNum 1); ("unitPrice", VNum 10)])]);
        ("payments", VArr [VObj [("method", VStr "CASH"); ("amount", VNum 10)]])].

Definition entry_path (p : PlanEntry) : string :=
  match p with
  | Listed e => e_path e
  | LocationSettings => "/api/hub/sync/location-settings"
  | TerminalSettings => "/api/hub/sync/terminal-settings"
  end.

(** [v?.toLowerCase()] does not throw: [v] is nullish or a string. *)
Definition has_toLowerCase (v : JsVal) : bool :=
  match v with VUndefined | VNull | VStr _ => true | _ => false end.

(** A 2xx answer the entry's handler can digest: a list without [null]
    items for a listed entity, an object with an [id] for the two settings
    handlers, whose [cartPosition], for a terminal, is a string or absent. *)
Definition digestible (p : PlanEntry) (o : FetchOutcome) : Prop :=
  res_ok (envelope_of o) = true /\
  match p with
  | Listed _ => existsb is_nullish (extractItems (res_data (envelope_of o))) = false
  | LocationSettings =>
      truthy (res_data (envelope_of o)) = true /\
      truthy (field (res_data (envelope_of o)) "id") = true
  | TerminalSettings =>
      truthy (res_data (envelope_of o)) = true /\
      truthy (field (res_data (envelope_of o)) "id") = true /\
      has_toLowerCase (field (res_data (envelope_of o)) "cartPosition") = true
  end.

Definition reads_unbound_count (p : PlanEntry) : bool :=
  match p with
  | Listed e => match e_write e with ReplaceCountUnbound => true | _ => false end
  | _ => false
  end.

Definition location_terminals (cfg : Config) (db : Db) : list Row :=
  List.filter (fun t => JsVal_is_str (col t "location_id") (default "" (locationId cfg)))
              (table (tables db) "terminals").

(** One cloud for the worked examples: HTTP 500 on one path, a small
    well-formed JSON answer on every other. *)
Definition net_failing (path : string) : Net :=
  fun _ rq =>
    if String.eqb (req_path rq) path then Http 500 NotJson
    else Http 200 (JsonBody (VObj [("id", VStr "x1"); ("items", VArr [])])).

Definition net_missing (path : string) : Net :=
  fun _ rq =>
    if String.eqb (req_path rq) path then Http 404 NotJson
    else Http 200 (JsonBody (VObj [("id", VStr "x1"); ("items", VArr [])])).

Definition db_with_terminal : Db :=
  with_tables (fun _ => {["terminals" :=
                 [list_to_map [("id", VStr "term1"); ("location_id", VStr "loc1")]]]})
              empty_db.

Definition products_plan : EntityPlan :=
  {| e_name := "products"; e_path := "/api/hub/sync/products"; e_cursor := true;
     e_fetch := DirectStrict; e_write := Upsert; e_side := SideBefore;
             e_columns :=
               ["id"; "tenant_id"; "name"; "sku"; "barcode"; "category_id"; "description";
                "base_price"; "cost_price"; "tax_type_ids"; "product_type";
                "is_active"; "track_inventory"; "image_url"; "sort_order";
                "metadata"; "created_at"; "updated_at"] |}.

Definition categories_plan : EntityPlan :=
  {| e_name := "categories"; e_path := "/api/hub/sync/categories"; e_cursor := true;
     e_fetch := ViaFetchAndTransform; e_write := Upsert; e_side := NoSide;
             e_columns :=
               ["id"; "tenant_id"; "name"; "parent_id"; "sort_order"; "color"; "image_url";
                "is_active"] |}.

(** Whatever a handler writes besides its own table, it leaves
    [terminals] alone. *)
Definition side_writes_keep_terminals `{EntityCodec} : Prop :=
  forall name data (t t' : Tables),
    side_writes name data t = Ok t' -> t' !! "terminals" = t !! "terminals".

(** SQLite takes what the entry's handler writes: its insert statement
    compiles, its table can be cleared when it is replaced, its side
    writes succeed, the settings row is accepted. *)
Definition storable `{Runtime} `{EntityCodec} (p : PlanEntry) : Prop :=
  match p with
  | Listed e =>
      sql_prepares (e_name e) (e_columns e) = true /\
      (e_write e <> Upsert -> forall t : Tables, sql_can_clear t (e_name e) = true) /\
      (e_side e <> NoSide ->
       forall data (t : Tables), exists t', side_writes (e_name e) data t = Ok t')
  | LocationSettings => forall (t : Tables) r, sql_accepts t "location_settings" r = true
  | TerminalSettings => forall (t : Tables) r, sql_accepts t "terminal_settings" r = true
  end.

(** The entry's handler throws, whatever the store holds. *)
Definition handler_throws `{Runtime} `{EntityCodec} (cfg : Config) (net : Net)
    (now : string) (p : PlanEntry) : Prop :=
  forall db log, exists msg, (pull_entry cfg net now p db log).1.1 = Throw msg.

(** A cloud that answers one path with a list holding a [null] item, which
    makes that entity's handler throw, and every other path like
    [net_failing]. *)
Definition net_null_item (path : string) : Net :=
  fun _ rq =>
    if String.eqb (req_path rq) path then Http 200 (JsonBody (VArr [VNull]))
    else Http 200 (JsonBody (VObj [("id", VStr "x1"); ("items", VArr [])])).

Definition plan_entry_checks (p : PlanEntry) : bool :=
  negb (String.eqb (entry_name p) "terminals")
  && (negb (reads_unbound_count p) || String.eqb (entry_name p) "pizza_cheese_prices")
  && match p with
     | Listed e =>
         match e_fetch e with
         | ViaFetchAndTransform =>
             match e_write e, e_side e with Upsert, NoSide => true | _, _ => false end
         | _ => true
         end
     | _ => true
     end.

Definition is_strict (p : PlanEntry) : bool :=
  match p with
  | Listed e => match e_fetch e with DirectStrict => true | _ => false end
  | LocationSettings | TerminalSettings => true
  end.

Definition result_of (name : string) (results : list PullResult) : option PullResult :=
  List.find (fun r => String.eqb (entity r) name) results.

Definition status_of (name : string) (db : Db) : option string :=
  option_map sync_status (sync_state db !! name).

(** ** Predicates and examples for the push engine's remaining paths *)

(** What a row carries, as opposed to the engine's bookkeeping columns
    ([status], [attempts], [error], [synced_at]). *)
Definition outbox_identity (r : OutboxItem)
    : Z * string * string * string * string * option string * Z * Z * string :=
  (item_id r, entity_type r, entity_id r, action r, payload r,
   correlation_id r, priority r, max_attempts r, created_at r).

(** Every [fetch] to the endpoint [ep] rejects with message [msg] (the
    network is down, or the 30 s timer aborts the request). *)
Definition fetch_fails (net : Net) (msg : string) (ep : string) : Prop :=
  forall lg rq, req_path rq = ep -> net lg rq = FetchFailed msg.

(** The endpoint a picked row is posted to, when the turn gets as far as
    [fetch]: its entity type has an endpoint, its payload parses and the
    URL constructor accepts the base URL. *)
Definition post_target `{Runtime} (cfg : Config) (r : OutboxItem) : option string :=
  match endpoint_of (entity_type r) with
  | Some ep =>
      match JSON_parse (payload r) with
      | Some _ => if URL_ok ep (baseUrl cfg) then Some ep else None
      | None => None
      end
  | None => None
  end.

(** The rows [retryDeadLetters(entityType)] resets: an empty string is
    falsy, so it selects every entity type like no argument at all. *)
Definition dead_letter_of (entityType : option string) (r : OutboxItem) : bool :=
  match status r with
  | DEAD_LETTER =>
      match entityType with
      | Some t => String.eqb t "" || String.eqb (entity_type r) t
      | None => true
      end
  | _ => false
  end.

(** The row [r] after [a] attempts whose POST threw. *)
Definition after_throws (r : OutboxItem) (a : Z) (row : OutboxItem) : Prop :=
  outbox_identity row = outbox_identity r /\ attempts row = a /\ status row = PENDING /\
  (0 < a -> error row = Some "Invalid URL").

Definition net_down (msg : string) : Net := fun _ _ => FetchFailed msg.

(** A runtime whose URL constructor wants a scheme, and a configuration
    whose base URL has none. *)
Definition scheme_runtime : Runtime :=
  {| JSON_stringify := fun v => match v with VStr s => s | _ => "{}" end;
     JSON_parse := fun s => if String.eqb s "" then None else Some (VObj []);
     URL_ok := fun _ base => String.prefix "http" base;
     bcrypt_compare := fun p h => Some (String.eqb ("hash:" +:+ p) h);
     bcrypt_hashSync := fun p => "hash:" +:+ p;
     sql_accepts := demo_accepts;
     sql_can_clear := fun _ _ => true;
     sql_prepares := fun _ _ => true;
     toLowerCase := fun s => s |}.

Definition schemeless_cfg : Config :=
  {| cloudApiUrl := Some "cloud.example"; cloudApiKey := Some "key";
     tenantId := Some "t1"; locationId := Some "loc1" |}.

Definition demo_row (i prio : Z) (etype body at_ : string) (st : OutboxStatus) (n : Z)
    : OutboxItem :=
  {| item_id := i; entity_type := etype; entity_id := "e" +:+ String_of_Z i;
     action := "create"; payload := body; correlation_id := None; priority := prio;
     status := st; attempts := n; max_attempts := 5; error := None;
     created_at := at_; synced_at := None |}.

(** [SET status = 'PENDING', attempts = 0] *)
Definition reset_attempts (r : OutboxItem) : OutboxItem :=
  {| item_id := item_id r; entity_type := entity_type r; entity_id := entity_id r;
     action := action r; payload := payload r; correlation_id := correlation_id r;
     priority := priority r; status := PENDING; attempts := 0;
     max_attempts := max_attempts r; error := error r; created_at := created_at r;
     synced_at := synced_at r |}.

Definition demo_queue : Db :=
  db_with_outbox
    [demo_row 1 5 "sale" "{}" "2026-01-01 10:00:00" PENDING 0;
     demo_row 2 10 "sale" "" "2026-01-01 10:00:01" PENDING 4;
     demo_row 3 10 "refund" "{}" "2026-01-01 09:00:00" SYNCED 1;
     demo_row 4 10 "kitchen_order" "{}" "2026-01-01 09:30:00" PENDING 4].

(** ** Key and value conversion of pulled items ([sync/pull-sync.ts] lines 28-103)

    Strings are byte strings; [/[A-Z]/] matches the bytes 65..90 only, and
    no byte of a multi-byte UTF-8 sequence falls in that range. *)

Definition is_upper (c : ascii) : bool :=
  (65 <=? nat_of_ascii c)%nat && (nat_of_ascii c <=? 90)%nat.

(** [letter.toLowerCase()] for a letter matched by [/[A-Z]/] *)
Definition to_lower (c : ascii) : ascii := ascii_of_nat (nat_of_ascii c + 32).

(** [str.replace(/[A-Z]/g, (letter) => `_${letter.toLowerCase()}`)] *)
Fixpoint camelToSnake (str : string) : string :=
  match str with
  | EmptyString => EmptyString
  | String c rest =>
      if is_upper c then String "_" (String (to_lower c) (camelToSnake rest))
      else String c (camelToSnake rest)
  end.

Definition has_upper (s : string) : bool :=
  existsb is_upper (list_ascii_of_string s).

Definition has_underscore (s : string) : bool :=
  existsb (fun c => Ascii.eqb c "_") (list_ascii_of_string s).

(** [convertKeys]: [obj] is given by its entries in [Object.entries]
    order; a later entry whose converted key is already present overwrites
    the earlier one.  Assigning to the key [__proto__] of a plain object
    creates no property of its own (the prototype it installs instead is
    not modelled). *)
Definition convertKeys (obj : list (string * JsVal)) : Row :=
  fold_left
    (fun result kv =>
       let k := camelToSnake kv.1 in
       if String.eqb k "__proto__" then result else <[k := kv.2]> result)
    obj ∅.

(** An entry of [fieldMap]: the camelCase name of a source field, or a
    function of the raw item. *)
Inductive FieldSource :=
| FromField (source : string)
| Computed (fn : list (string * JsVal) -> JsVal).

(** [k in item] for the item's own properties. *)
Definition own_prop (item : list (string * JsVal)) (k : string) : option JsVal :=
  snd <$> List.find (fun kv => String.eqb kv.1 k) item.

(** One turn of [for (const [targetCol, sourceOrFn] of Object.entries(fieldMap))] *)
Definition apply_field (item : list (string * JsVal)) (converted : Row)
    (entry : string * FieldSource) : Row :=
  let targetCol := entry.1 in
  match entry.2 with
  | Computed fn => <[targetCol := fn item]> converted
  | FromField source =>
      let snakeSource := camelToSnake source in
      match converted !! snakeSource with
      | Some v =>
          let c1 := <[targetCol := v]> converted in
          if String.eqb targetCol snakeSource then c1 else delete snakeSource c1
      | None =>
          match own_prop item source with
          | Some v => <[targetCol := v]> converted
          | None => converted
          end
      end
  end.

(** Booleans become 0/1, arrays and objects their JSON text. *)
Definition to_cell `{Runtime} (v : JsVal) : JsVal :=
  match v with
  | VBool b => VNum (if b then 1 else 0)
  | VArr _ | VObj _ => VStr (JSON_stringify v)
  | _ => v
  end.

(** [transformItems(items, fieldMap)]; an absent [fieldMap] is the empty
    list. *)
Definition transformItems `{Runtime} (items : list (list (string * JsVal)))
    (fieldMap : list (string * FieldSource)) : list Row :=
  map (fun item => to_cell <$> fold_left (apply_field item) fieldMap (convertKeys item))
      items.

(** A value better-sqlite3 binds as it is: null, a number or a string. *)
Definition bindable (v : JsVal) : bool :=
  match v with
  | VUndefined | VNull | VNum _ | VStr _ => true
  | VBool _ | VArr _ | VObj _ => false
  end.

(** ** [POST /api/sync/reset] ([api/sync.ts] lines 79-98) *)

(** [s.split(",")] *)
Fixpoint split_commas (s : string) : list string :=
  match s with
  | EmptyString => [EmptyString]
  | String c rest =>
      if Ascii.eqb c "," then EmptyString :: split_commas rest
      else
        match split_commas rest with
        | seg :: segs => String c seg :: segs
        | [] => [String c EmptyString]
        end
  end.

(** The handler, with [String.prototype.trim] as a parameter.  The answer
    is [{ cleared, entities }], [entities] being the list that was reset or
    the word 'all' ([None] here). *)
Definition post_sync_reset (trim : string -> string) (entities : option string)
    (db : Db) : Z * option (list string) * Db :=
  let reset_all :=
    (Z.of_nat (size (sync_state db)), None, with_sync_state (fun _ => ∅) db) in
  match entities with
  | Some s =>
      if String.eqb s "" then reset_all
      else
        let entityList := map trim (split_commas s) in
        let done :=
          fold_left
            (fun (acc : Z * gmap string SyncState) entity =>
               match acc.2 !! entity with
               | Some _ => (acc.1 + 1, delete entity acc.2)
               | None => acc
               end)
            entityList (0, sync_state db) in
        (done.1, Some entityList, with_sync_state (fun _ => done.2) db)
  | None => reset_all
  end.

(** The entity names a reset request covers. *)
Definition reset_covers (trim : string -> string) (entities : option string)
    (name : string) : Prop :=
  match entities with
  | Some s => s = "" \/ In name (map trim (split_commas s))
  | None => True
  end.

(** What the pull engine never writes. *)
Definition same_outbox (db db' : Db) : Prop :=
  outbox_queue db' = outbox_queue db /\ outbox_seq db' = outbox_seq db /\
  order_sequence db' = order_sequence db.

(** The cloud does not deliver the entity's list: no 2xx answer, and not
    the 404 that reads as an empty list either. *)
Definition pull_fails (net : Net) (path : string) : Prop :=
  forall lg rq, req_path rq = path ->
    res_ok (envelope_of (net lg rq)) = false /\ res_status (envelope_of (net lg rq)) <> 404.

Definition demo_synced (t : string) : SyncState :=
  {| last_synced_at := Some t; last_sync_cursor := None; record_count := 3;
     sync_status := "SUCCESS"; updated_at := Some t |}.

Definition db_synced : Db :=
  with_sync_state
    (fun _ => {["categories" := demo_synced "2026-01-01 09:00:00";
                "products" := demo_synced "2026-01-01 09:00:01";
                "users" := demo_synced "2026-01-01 09:00:02"]})
    empty_db.

Definition trim_spaces (s : string) : string :=
  let fix drop (s : string) : string :=
    match s with
    | String c rest => if Ascii.eqb c " " then drop rest else s
    | EmptyString => EmptyString
    end in
  let rev s := string_of_list_ascii (List.rev (list_ascii_of_string s)) in
  rev (drop (rev (drop s))).

(** ** Sessions ([api/auth.ts] lines 161-203, [middleware/auth.ts]) *)

(** [WHERE id = ? AND is_active = 1] on [terminal_sessions] *)
Definition session_active (sid : string) (r : Row) : bool :=
  has_id sid r && match col r "is_active" with VNum 1 => true | _ => false end.

(** [GET /api/auth/session]: the first row of
    [terminal_sessions ts JOIN users u ON u.id = ts.user_id]
    for the session id, sessions outermost.  Both ids are primary keys, so
    the join has at most one row. *)
Definition get_session `{Runtime} (sessionId : option string) (h : Hub) : Reply :=
  match sessionId with
  | None => reply_error 401 "No session"
  | Some sid =>
      if String.eqb sid "" then reply_error 401 "No session"
      else
        let db := hub_db h in
        let joined :=
          flat_map
            (fun ts =>
               map (fun u => (ts, u))
                   (List.filter (fun u => key_eqb (col u "id") (col ts "user_id"))
                                (table (tables db) "users")))
            (List.filter (session_active sid) (table (tables db) "terminal_sessions")) in
        match joined with
        | [] => reply_error 401 "Invalid or expired session"
        | (ts, u) :: _ =>
            reply_ok (VObj
              [("sessionId", col ts "id");
               ("user", VObj [("id", col ts "user_id"); ("name", col u "name");
                              ("role", col u "role");
                              ("permissions", safeParseJson (col u "permissions") (VArr []));
                              ("maxDiscount", col u "max_discount")])])
        end
  end.

(** [POST /api/auth/logout] *)
Definition post_logout (sessionId : option string) (now : string) (h : Hub)
    : Reply * Hub :=
  let answer := reply_ok (VObj [("success", VBool true)]) in
  match sessionId with
  | Some sid =>
      if String.eqb sid "" then (answer, h)
      else (answer,
            with_db (with_tables (update_where "terminal_sessions" (has_id sid)
                                    (set_cols [("is_active", VNum 0);
                                               ("ended_at", VStr now)]))) h)
  | None => (answer, h)
  end.

Definition PUBLIC_ROUTES : list string :=
  ["/health"; "/api/auth/pin"; "/api/auth/session"; "/api/bootstrap"; "/ws"].

Definition PUBLIC_PREFIXES : list string :=
  ["/api/setup/"; "/api/diagnostics"; "/api/sync/"; "/api/hub/"; "/api/terminals/";
   "/setup"].

(** [url.split("?")[0]] *)
Fixpoint before_query (url : string) : string :=
  match url with
  | EmptyString => EmptyString
  | String c rest => if Ascii.eqb c "?" then EmptyString else String c (before_query rest)
  end.

Definition isPublicRoute (url : string) : bool :=
  let path := before_query url in
  existsb (String.eqb path) PUBLIC_ROUTES
  || existsb (fun prefix => String.prefix prefix path) PUBLIC_PREFIXES.

(** The [onRequest] hook: [Some reply] when it answers the request itself,
    [None] when it lets the request through to its route. *)
Definition auth_hook (url : string) (sessionId : option string) (h : Hub)
    : option Reply :=
  if isPublicRoute url then None
  else
    match sessionId with
    | None => Some (reply_error 401 "Authentication required")
    | Some sid =>
        if String.eqb sid "" then Some (reply_error 401 "Authentication required")
        else
          match find_row "terminal_sessions" (session_active sid) (hub_db h) with
          | Some _ => None
          | None => Some (reply_error 401 "Invalid or expired session")
          end
    end.

(** The ten-minute timer of the PIN limiter, on the hub. *)
Definition run_cleanup (now : Z) (h : Hub) : Hub :=
  {| hub_db := hub_db h; pinAttempts := cleanup_pinAttempts now (pinAttempts h);
     recentUserIds := recentUserIds h; broadcasts := broadcasts h |}.

(** [POST /api/users/:userId/toggle-active] ([api/users.ts] lines 47-73) *)
Definition post_toggle_active `{Runtime} (cfg : Config) (userId now : string) (h : Hub)
    : Reply * Hub :=
  let db := hub_db h in
  match find_row "users"
          (fun u => has_id userId u
                    && JsVal_is_str (col u "tenant_id") (default "" (tenantId cfg))) db with
  | None => (reply_error 404 "User not found", h)
  | Some user =>
      let newStatus : Z := if truthy (col user "is_active") then 0 else 1 in
      let isActive := VBool (negb (newStatus =? 0)) in
      let tx d :=
        let d1 := with_tables (update_where "users" (has_id userId)
                    (set_cols [("is_active", VNum newStatus); ("updated_at", VStr now)])) d in
        d2 ← enqueue_stmt "user" userId "toggle_active"
               (JSON_stringify (VObj [("userId", VStr userId); ("isActive", isActive)]))
               None 5 now d1;
        Ok (tt, d2) in
      match transaction tx db with
      | (Ok _, db') =>
          (reply_ok (VObj [("success", VBool true); ("isActive", isActive)]),
           with_db (fun _ => db') h)
      | (Throw msg, _) => (reply_thrown msg, h)
      end
  end.

(** The user a successful PIN reply names. *)
Definition reply_user_id (r : Reply) : JsVal := field (field (body r) "user") "id".

Definition demo_pin_at (t : Z) (p : string) (term : option string) : PinRequest :=
  {| pin := Some p; terminalId_field := term; ip := Some "10.0.0.5";
     x_terminal_id := None; at_ms := t; at_sql := "2026-01-01 10:00:00";
     new_session := "s1" |}.

Definition demo_hub_with_terminal : Hub :=
  {| hub_db := with_tables
       (fun _ => {["users" := [demo_user "u1" "1234"; demo_user "u2" "5678"];
                   "terminals" := [list_to_map [("id", VStr "term1");
                                                ("location_id", VStr "loc1")]]]})
       empty_db;
     pinAttempts := ∅; recentUserIds := ["u2"; "u1"]; broadcasts := [] |}.

(** [body.terminalId ?? req.headers["x-terminal-id"] ?? null] *)
Definition pin_terminal (rq : PinRequest) : option string :=
  match terminalId_field rq with
  | Some t => Some t
  | None => x_terminal_id rq
  end.

(** The PIN request reaches the PIN check: it is well formed and within
    the rate limit. *)
Definition pin_checked (rq : PinRequest) (h : Hub) : Prop :=
  pin_malformed (pin rq) = false /\
  (checkPinRateLimit (at_ms rq) (client_ip rq) (pinAttempts h)).1 = true.

(** ** Voiding a sale ([api/sales.ts] lines 137-165) *)

(** A property that is left out of the JSON text when it is undefined. *)
Definition opt_prop (o : option string) : JsVal :=
  match o with Some s => VStr s | None => VUndefined end.

(** [POST /api/sales/:id/void], body [{ reason?: string; userId?: string }] *)
Definition post_sale_void `{Runtime} (id : string) (reason userId : option string)
    (now : string) (h : Hub) : Reply * Hub :=
  let db := hub_db h in
  match find_row "sales" (has_id id) db with
  | None => (reply_error 404 "Sale not found", h)
  | Some sale =>
      if JsVal_is_str (col sale "status") "VOIDED"
      then (reply_error 400 "Sale already voided", h)
      else
        let tx d :=
          let d1 := with_tables (update_where "sales" (has_id id)
                      (set_cols [("status", VStr "VOIDED"); ("voided_at", VStr now);
                                 ("void_reason", opt_str reason);
                                 ("sync_status", VStr "PENDING")])) d in
          d2 ← enqueue_stmt "sale" id "void"
                 (JSON_stringify (VObj [("saleId", VStr id); ("reason", opt_prop reason);
                                        ("userId", opt_prop userId)]))
                 None 10 now d1;
          Ok (tt, d2) in
        match transaction tx db with
        | (Ok _, db') => (reply_ok (VObj [("success", VBool true)]), with_db (fun _ => db') h)
        | (Throw msg, _) => (reply_thrown msg, h)
        end
  end.

(** ** Query limits ([db/index.ts] lines 64-75)

    [parseInt(s, 10)] is the runtime's: [None] is NaN, and a value too
    large for a number is any integer at least as large as every bound
    used here. *)
Definition clampLimit (parseInt : string -> option Z) (value : option string)
    (fallback max : Z) : Z :=
  match parseInt (default (String_of_Z fallback) value) with
  | None => fallback
  | Some n => if n <? 1 then fallback else Z.min n max
  end.

Definition clampOffset (parseInt : string -> option Z) (value : option string) : Z :=
  match parseInt (default "0" value) with
  | None => 0
  | Some n => if n <? 0 then 0 else n
  end.

(** A decimal reader for the examples: digits only. *)
Definition parse_digits (s : string) : option Z :=
  option_map Z.of_nat (parse_decimal s).

(** ** Sales served one after the other *)

Fixpoint serve_sales `{Runtime} (cfg : Config) (rqs : list (SaleEnv * JsVal)) (h : Hub)
    : list (Result SaleAnswer) * Hub :=
  match rqs with
  | [] => ([], h)
  | (env, b) :: rest =>
      let '(r, h1) := post_sales cfg env b h in
      let '(rs, h2) := serve_sales cfg rest h1 in
      (r :: rs, h2)
  end.

(** The receipt numbers of the sales that committed, in order. *)
Definition committed_receipts (rs : list (Result SaleAnswer)) : list string :=
  omap (fun r => match r with Ok a => Some (ans_receiptNumber a) | Throw _ => None end) rs.

Definition on_date (dk : string) (iso : string) : bool := String.eqb (dateKey_of iso) dk.

Definition demo_sale_hub : Hub :=
  {| hub_db := with_tables
       (fun _ => {["sales" := [list_to_map [("id", VStr "sale1"); ("status", VStr "COMPLETED")];
                               list_to_map [("id", VStr "sale2"); ("status", VStr "COMPLETED")]]]})
       empty_db;
     pinAttempts := ∅; recentUserIds := []; broadcasts := [] |}.

(* ================================================================== *)
(** * Properties *)
(* ================================================================== *)

Section ObjectLookup.

Lemma pushEndpoints_own (t ep : string) :
  pushEndpoints !! t = Some ep ->
  In (t, ep) [("sale", "/api/hub/push/sale");
              ("kitchen_order", "/api/hub/push/kitchen-order");
              ("cash_drawer", "/api/hub/push/cash-drawer");
              ("shift_log", "/api/hub/push/shift");
              ("gift_card", "/api/hub/push/gift-card");
              ("refund", "/api/hub/push/refund");
              ("store_credit", "/api/hub/push/store-credit")].
Proof.
  unfold pushEndpoints. intros Hl. apply elem_of_list_to_map_2 in Hl.
  apply list_elem_of_In in Hl. exact Hl.
Qed.

(** At its own keys the lookup gives the path the literal holds. *)
Lemma endpoint_of_own (t ep : string) :
  pushEndpoints !! t = Some ep -> endpoint_of t = Some ep.
Proof.
  intros Hl. unfold endpoint_of, object_get. rewrite Hl. simpl.
  apply pushEndpoints_own in Hl. simpl in Hl.
  repeat (destruct Hl as [Hl|Hl]; [injection Hl as <- <-; reflexivity|]).
  destruct Hl.
Qed.

Lemma inherited_None (t : string) :
  ~ In t Object_prototype_names -> inherited t = None.
Proof.
  intros Hn. unfold inherited.
  assert (E : existsb (String.eqb t) Object_prototype_names = false).
  { apply not_true_is_false. intros E. apply existsb_exists in E as (x & Hx & Heq).
    apply String.eqb_eq in Heq. subst x. tauto. }
  destruct (String.eqb_spec t "__proto__") as [->|_]; [exfalso; apply Hn; simpl; tauto|].
  destruct (String.eqb_spec t "constructor") as [->|_]; [exfalso; apply Hn; simpl; tauto|].
  rewrite E. reflexivity.
Qed.

Lemma inherited_Some (t : string) (v : Property) :
  inherited t = Some v -> In t Object_prototype_names /\ exists text, v = BuiltIn text.
Proof.
  unfold inherited.
  destruct (String.eqb_spec t "__proto__") as [->|_].
  { intros [= <-]. split; [simpl; tauto|eauto]. }
  destruct (String.eqb_spec t "constructor") as [->|_].
  { intros [= <-]. split; [simpl; tauto|eauto]. }
  destruct (existsb (String.eqb t) Object_prototype_names) eqn:E; [|discriminate].
  intros [= <-]. split; [|eauto].
  apply existsb_exists in E as (x & Hx & Heq). apply String.eqb_eq in Heq. subst x. exact Hx.
Qed.

End ObjectLookup.

Section PushProperties.
Context `{Runtime}.
Variables (cfg : Config) (net : Net) (now : string).

Lemma set_item_twice i f g db :
  (forall r, item_id (g r) = item_id r) ->
  set_item i f (set_item i g db) = set_item i (fun r => f (g r)) db.
Proof.
  intros Hg. unfold set_item, with_outbox; simpl. f_equal.
  rewrite map_map. apply map_ext. intros r.
  destruct (item_id r =? i) eqn:E.
  - rewrite Hg, E. reflexivity.
  - rewrite E. reflexivity.
Qed.

Lemma process_item_spec st item :
  process_item cfg net now st item =
  {| p_db := set_item (item_id item)
               (apply_outcome now (fst (decide_outcome cfg net (p_log st) item))) (p_db st);
     p_log := snd (decide_outcome cfg net (p_log st) item);
     p_result := p_result (process_item cfg net now st item) |}.
Proof.
  unfold process_item, decide_outcome.
  destruct (endpoint_of (entity_type item)) as [ep|]; simpl.
  2:{ rewrite set_item_twice by reflexivity. reflexivity. }
  destruct (JSON_parse (payload item)) as [parsed|]; simpl.
  2:{ rewrite set_item_twice by reflexivity. reflexivity. }
  destruct (cloud_post cfg net ep (push_envelope item parsed) (p_log st)) as [[res|msg] log'];
    simpl.
  2:{ rewrite set_item_twice by reflexivity. reflexivity. }
  unfold settle, outcome_of_response.
  destruct (res_ok res); simpl.
  { rewrite set_item_twice by reflexivity. reflexivity. }
  destruct (res_status res =? 409); simpl.
  { rewrite set_item_twice by reflexivity. reflexivity. }
  destruct ((400 <=? res_status res) && (res_status res <? 500)); simpl.
  { rewrite set_item_twice by reflexivity. reflexivity. }
  destruct (max_attempts item <=? attempts item + 1); simpl;
    rewrite set_item_twice by reflexivity; reflexivity.
Qed.

Lemma insert_sorted_perm {A} (le : A -> A -> bool) x l :
  Permutation (insert_sorted le x l) (x :: l).
Proof.
  induction l as [|y l IH]; simpl; [reflexivity|].
  destruct (le y x); [|reflexivity].
  rewrite IH. apply perm_swap.
Qed.

Lemma order_by_perm {A} (le : A -> A -> bool) l : Permutation (order_by le l) l.
Proof.
  unfold order_by.
  assert (G : forall acc, Permutation
            (fold_left (fun acc x => insert_sorted le x acc) l acc) (l ++ acc)).
  { induction l as [|x l IH]; intros acc; simpl; [reflexivity|].
    rewrite IH, insert_sorted_perm. symmetry. apply Permutation_middle. }
  rewrite G, app_nil_r. reflexivity.
Qed.

Lemma limit_In {A} n (l : list A) x : In x (limit n l) -> In x l.
Proof.
  unfold limit. destruct (n <? 0); [tauto|].
  intros Hin. rewrite <- (take_drop (Z.to_nat n) l). apply in_or_app. tauto.
Qed.

Lemma limit_all {A} n (l : list A) :
  n < 0 \/ Z.of_nat (length l) <= n -> limit n l = l.
Proof.
  unfold limit. intros [Hn|Hn].
  - apply Z.ltb_lt in Hn. rewrite Hn. reflexivity.
  - destruct (n <? 0); [reflexivity|]. apply take_ge. lia.
Qed.

Lemma NoDup_map_filter {A B} (f : A -> B) p (l : list A) :
  List.NoDup (map f l) -> List.NoDup (map f (List.filter p l)).
Proof.
  induction l as [|x l IH]; simpl; intros Hnd; [constructor|].
  inversion Hnd as [|? ? Hx Hl]; subst.
  destruct (p x); simpl; [|auto].
  constructor; [|auto].
  intros Hin. apply Hx. apply in_map_iff in Hin as (y & Hy & Hin).
  apply in_map_iff. exists y. split; [done|]. apply filter_In in Hin. tauto.
Qed.

Lemma NoDup_map_limit {A B} (f : A -> B) n (l : list A) :
  List.NoDup (map f l) -> List.NoDup (map f (limit n l)).
Proof.
  unfold limit. destruct (n <? 0); [done|].
  intros Hnd. rewrite <- (take_drop (Z.to_nat n) l), map_app in Hnd.
  apply NoDup_ListNoDup, NoDup_app in Hnd as (Hnd & _).
  apply NoDup_ListNoDup. exact Hnd.
Qed.

Lemma NoDup_map_eq {A B} (f : A -> B) (l : list A) a b :
  List.NoDup (map f l) -> In a l -> In b l -> f a = f b -> a = b.
Proof.
  induction l as [|x l IH]; simpl; [tauto|].
  intros Hnd Ha Hb Hf. inversion Hnd as [|? ? Hx Hl]; subst.
  destruct Ha as [->|Ha], Hb as [->|Hb]; auto.
  - exfalso. apply Hx. rewrite Hf. apply in_map. exact Hb.
  - exfalso. apply Hx. rewrite <- Hf. apply in_map. exact Ha.
Qed.

Lemma select_pending_In batch db r :
  In r (select_pending batch db) -> In r (outbox_queue db) /\ eligible r = true.
Proof.
  unfold select_pending. intros Hin. apply limit_In in Hin.
  apply (Permutation_in _ (order_by_perm _ _)) in Hin.
  apply filter_In in Hin. exact Hin.
Qed.

Lemma select_pending_NoDup batch db :
  List.NoDup (map item_id (outbox_queue db)) ->
  List.NoDup (map item_id (select_pending batch db)).
Proof.
  intros Hnd. unfold select_pending. apply NoDup_map_limit.
  eapply Permutation_NoDup.
  - apply Permutation_map, Permutation_sym, order_by_perm.
  - apply NoDup_map_filter. exact Hnd.
Qed.

(** When no more rows are eligible than the batch holds, every eligible row
    is picked up. *)
Lemma select_pending_picks batch db r :
  batch < 0 \/ Z.of_nat (length (List.filter eligible (outbox_queue db))) <= batch ->
  In r (outbox_queue db) -> eligible r = true ->
  In r (select_pending batch db).
Proof.
  intros Hb Hin He. unfold select_pending. rewrite limit_all.
  - apply (Permutation_in _ (Permutation_sym (order_by_perm _ _))).
    apply filter_In. tauto.
  - rewrite (Permutation_length (order_by_perm _ _)). exact Hb.
Qed.

Lemma apply_outcome_id o r : item_id (apply_outcome now o r) = item_id r.
Proof. destruct o; reflexivity. Qed.

Lemma Forall2_map_chain {A} (R Q : A -> A -> Prop) f (l l2 : list A) :
  Forall2 R (map f l) l2 ->
  (forall a b, In a l -> R (f a) b -> Q a b) ->
  Forall2 Q l l2.
Proof.
  revert l2. induction l as [|a l IH]; simpl; intros l2 HF HQ.
  - inversion HF. constructor.
  - inversion HF as [|? b ? l2' Hab Hrest]; subst. constructor; [auto|].
    apply IH; auto.
Qed.

Lemma fold_turns items : forall st,
  List.NoDup (map item_id items) ->
  List.NoDup (map item_id (outbox_queue (p_db st))) ->
  (forall a, In a items -> In a (outbox_queue (p_db st))) ->
  Forall2 (turned cfg net now items) (outbox_queue (p_db st))
    (outbox_queue (p_db (fold_left (process_item cfg net now) items st))).
Proof.
  induction items as [|it rest IH]; intros st Hnd Hdb Hsub; simpl.
  - apply Forall2_same_length_lookup_2; [done|].
    intros i a b Ha Hb. left. split; [tauto|congruence].
  - inversion Hnd as [|? ? Hit Hrest]; subst.
    rewrite process_item_spec.
    set (o := fst (decide_outcome cfg net (p_log st) it)).
    set (st1 := {| p_db := set_item (item_id it) (apply_outcome now o) (p_db st) |}).
    assert (Hq1 : outbox_queue (p_db st1) =
                  map (fun r => if item_id r =? item_id it then apply_outcome now o r else r)
                      (outbox_queue (p_db st))) by reflexivity.
    assert (Hids : map item_id (outbox_queue (p_db st1)) = map item_id (outbox_queue (p_db st))).
    { rewrite Hq1, map_map. apply map_ext. intros r.
      destruct (item_id r =? item_id it); [apply apply_outcome_id|reflexivity]. }
    assert (Hne : forall a, In a rest -> item_id a <> item_id it).
    { intros a Ha E. apply Hit. rewrite <- E. apply in_map. exact Ha. }
    specialize (IH st1 Hrest).
    rewrite Hids in IH. specialize (IH Hdb).
    assert (Hsub1 : forall a, In a rest -> In a (outbox_queue (p_db st1))).
    { intros a Ha. rewrite Hq1. apply in_map_iff. exists a. split.
      - apply Hne in Ha as Hn. apply Z.eqb_neq in Hn. rewrite Hn. reflexivity.
      - apply Hsub. right. exact Ha. }
    specialize (IH Hsub1). rewrite Hq1 in IH.
    eapply Forall2_map_chain; [exact IH|].
    intros a b Ha HR. simpl in HR.
    destruct (item_id a =? item_id it) eqn:E.
    + apply Z.eqb_eq in E.
      assert (a = it).
      { apply (NoDup_map_eq item_id (outbox_queue (p_db st))); auto.
        apply Hsub. left. reflexivity. }
      subst a. right. split; [left; reflexivity|].
      destruct HR as [[_ ->]|[Hin _]].
      * exists (p_log st). reflexivity.
      * exfalso. apply Hne in Hin. apply Hin. apply apply_outcome_id.
    + apply Z.eqb_neq in E. destruct HR as [[Hn ->]|[Hin Hex]].
      * left. split; [|reflexivity]. intros [->|Hin]; [congruence|tauto].
      * right. split; [right; exact Hin|exact Hex].
Qed.

Lemma processOutbox_turns batch db log :
  isConfigured cfg = true ->
  List.NoDup (map item_id (outbox_queue db)) ->
  Forall2 (turned cfg net now (select_pending batch db)) (outbox_queue db)
    (outbox_queue (processOutbox cfg net now batch {| running := false |} db log).1.2).
Proof.
  intros Hc Hnd. unfold processOutbox. simpl. rewrite Hc. simpl.
  apply (fold_turns _ {| p_db := db; p_log := log; p_result := no_result |}).
  - apply select_pending_NoDup. exact Hnd.
  - exact Hnd.
  - intros a Ha. apply select_pending_In in Ha. tauto.
Qed.

Lemma turned_id items a b : turned cfg net now items a b -> item_id b = item_id a.
Proof.
  intros [[_ ->]|[_ [lg ->]]]; [reflexivity|apply apply_outcome_id].
Qed.

Lemma turned_ids items l l' :
  Forall2 (turned cfg net now items) l l' -> map item_id l' = map item_id l.
Proof.
  induction 1 as [|a b l l' Hab _ IH]; simpl; [reflexivity|].
  rewrite IH. f_equal. eapply turned_id. exact Hab.
Qed.

Lemma turned_In items l l' r :
  Forall2 (turned cfg net now items) l l' -> In r l -> exists b, In b l' /\ turned cfg net now items r b.
Proof.
  induction 1 as [|a b l l' Hab _ IH]; simpl; [tauto|].
  intros [->|Hin]; [eauto|]. destruct (IH Hin) as (b' & ? & ?). eauto.
Qed.

Lemma turned_eligible items l l' :
  (forall a, In a items -> eligible a = true) ->
  Forall2 (turned cfg net now items) l l' ->
  (length (List.filter eligible l') <= length (List.filter eligible l))%nat.
Proof.
  intros Hel. induction 1 as [|a b l l' Hab _ IH]; simpl; [lia|].
  assert (Hmono : eligible b = true -> eligible a = true).
  { destruct Hab as [[_ ->]|[Hin _]]; auto. }
  destruct (eligible b) eqn:Eb.
  - rewrite Hmono by reflexivity. simpl. lia.
  - destruct (eligible a); simpl; lia.
Qed.

Lemma find_item_In db r :
  List.NoDup (map item_id (outbox_queue db)) -> In r (outbox_queue db) ->
  find_item (item_id r) db = Some r.
Proof.
  unfold find_item. induction (outbox_queue db) as [|x l IH]; simpl; [tauto|].
  intros Hnd Hin. inversion Hnd as [|? ? Hx Hl]; subst.
  destruct Hin as [->|Hin].
  - rewrite Z.eqb_refl. reflexivity.
  - destruct (item_id x =? item_id r) eqn:E; [|auto].
    apply Z.eqb_eq in E. exfalso. apply Hx. rewrite E. apply in_map. exact Hin.
Qed.

(** The store after one call, as the theorems below use it. *)
Lemma processOutbox_row batch db log r :
  isConfigured cfg = true ->
  List.NoDup (map item_id (outbox_queue db)) ->
  In r (outbox_queue db) ->
  let db' := (processOutbox cfg net now batch {| running := false |} db log).1.2 in
  List.NoDup (map item_id (outbox_queue db')) /\
  (length (List.filter eligible (outbox_queue db')) <=
   length (List.filter eligible (outbox_queue db)))%nat /\
  exists b, In b (outbox_queue db') /\ turned cfg net now (select_pending batch db) r b.
Proof.
  intros Hc Hnd Hin db'.
  pose proof (processOutbox_turns batch db log Hc Hnd) as HT. fold db' in HT.
  split; [|split].
  - rewrite (turned_ids _ _ _ HT). exact Hnd.
  - eapply turned_eligible; [|exact HT].
    intros a Ha. apply select_pending_In in Ha. tauto.
  - eapply turned_In; eauto.
Qed.

Lemma decide_answer st r ep parsed lg :
  pushEndpoints !! entity_type r = Some ep ->
  JSON_parse (payload r) = Some parsed ->
  URL_ok ep (baseUrl cfg) = true ->
  answers_with net st ep ->
  exists d,
    (decide_outcome cfg net lg r).1 =
    outcome_of_response r
      {| res_ok := http_ok st; res_status := st; res_data := d; res_error := None |}.
Proof.
  intros Hep Hp Hurl Hnet. unfold decide_outcome, cloud_post, cloud_call.
  rewrite (endpoint_of_own _ _ Hep), Hp. simpl. rewrite Hurl. simpl.
  edestruct Hnet as (body & -> & Hb); [reflexivity|].
  destruct body as [|v|m]; simpl; eauto. destruct (Hb m). reflexivity.
Qed.

Lemma retry_step batch db log r ep parsed a row :
  isConfigured cfg = true ->
  URL_ok ep (baseUrl cfg) = true ->
  pushEndpoints !! entity_type r = Some ep ->
  JSON_parse (payload r) = Some parsed ->
  answers_with net 500 ep ->
  List.NoDup (map item_id (outbox_queue db)) ->
  batch < 0 \/ Z.of_nat (length (List.filter eligible (outbox_queue db))) <= batch ->
  In row (outbox_queue db) -> 0 <= a -> after_failures r a row ->
  let db' := (processOutbox cfg net now batch {| running := false |} db log).1.2 in
  List.NoDup (map item_id (outbox_queue db')) /\
  (batch < 0 \/ Z.of_nat (length (List.filter eligible (outbox_queue db'))) <= batch) /\
  exists row', In row' (outbox_queue db') /\
    after_failures r (Z.min (a + 1) (max_attempts r)) row'.
Proof.
  intros Hc Hurl Hep Hp Hnet Hnd Hb Hin Ha (Hid & Het & Hpl & Hmx & Hat & Hst) db'.
  destruct (processOutbox_row batch db log row Hc Hnd Hin) as (Hnd' & Hlen & b & Hb' & HT).
  fold db' in Hnd', Hlen, Hb'.
  split; [exact Hnd'|]. split; [destruct Hb; [left; done|right; lia]|].
  exists b. split; [exact Hb'|].
  destruct Hst as [(Hlt & Hs & He)|(Heq & Hs & He)].
  - assert (Hel : eligible row = true).
    { unfold eligible. rewrite Hs. apply Z.ltb_lt. lia. }
    pose proof (select_pending_picks batch db row Hb Hin Hel) as Hpick.
    destruct HT as [[Hn _]|[_ [lg ->]]]; [tauto|].
    rewrite <- Het in Hep. rewrite <- Hpl in Hp.
    destruct (decide_answer 500 row ep parsed lg Hep Hp Hurl Hnet) as (d & ->).
    unfold outcome_of_response. simpl. rewrite Hmx, Hat.
    destruct (max_attempts r <=? a + 1) eqn:E.
    + apply Z.leb_le in E. unfold after_failures. simpl.
      repeat (split; [first [done|lia]|]). right. repeat split; [lia|done..].
    + apply Z.leb_gt in E. unfold after_failures. simpl.
      repeat (split; [first [done|lia]|]). left. repeat split; [lia|done..].
  - assert (Hel : eligible row = false).
    { unfold eligible. rewrite Hs. reflexivity. }
    destruct HT as [[_ ->]|[Hsel _]].
    + unfold after_failures. repeat (split; [first [done|lia]|]). right.
      repeat split; [lia|done..].
    + apply select_pending_In in Hsel. destruct Hsel as [_ Hsel]. congruence.
Qed.

(** C2. An outbox row whose endpoint answers every POST with HTTP 500 is
    returned to PENDING with the error recorded by each of its first
    [max_attempts - 1] processing attempts, is marked DEAD_LETTER by the
    attempt that raises its counter to [max_attempts], and is left alone
    from then on.  The row sits in a queue that the batch can hold, so that
    every timer tick picks it up while it is eligible. *)
Theorem push_retry_bound (batch : Z) (db : Db) (log : list Request)
    (r : OutboxItem) (ep : string) (parsed : JsVal) :
  isConfigured cfg = true ->
  URL_ok ep (baseUrl cfg) = true ->
  pushEndpoints !! entity_type r = Some ep ->
  JSON_parse (payload r) = Some parsed ->
  answers_with net 500 ep ->
  List.NoDup (map item_id (outbox_queue db)) ->
  batch < 0 \/ Z.of_nat (length (List.filter eligible (outbox_queue db))) <= batch ->
  In r (outbox_queue db) ->
  status r = PENDING -> attempts r = 0 -> 1 <= max_attempts r ->
  forall k : nat,
  exists row,
    find_item (item_id r) (push_cycles cfg net now batch k db log).1 = Some row /\
    attempts row = Z.min (Z.of_nat k) (max_attempts r) /\
    (Z.of_nat k < max_attempts r ->
       status row = PENDING /\
       ((0 < k)%nat -> error row = Some "HTTP 500: Server error")) /\
    (max_attempts r <= Z.of_nat k ->
       status row = DEAD_LETTER /\
       error row = Some "Max attempts reached. Last: HTTP 500").
Proof.
  intros Hc Hurl Hep Hp Hnet Hnd Hb Hin Hs Ha Hm k.
  assert (G : forall k a db log row,
    List.NoDup (map item_id (outbox_queue db)) ->
    batch < 0 \/ Z.of_nat (length (List.filter eligible (outbox_queue db))) <= batch ->
    In row (outbox_queue db) -> 0 <= a <= max_attempts r -> after_failures r a row ->
    exists row',
      find_item (item_id r) (push_cycles cfg net now batch k db log).1 = Some row' /\
      after_failures r (Z.min (a + Z.of_nat k) (max_attempts r)) row').
  { clear k db log Hnd Hb Hin. induction k as [|k IH]; intros a db log row Hnd Hb Hin Ha' Haf.
    - simpl. exists row. split.
      + destruct Haf as (Hid & _). rewrite <- Hid. apply find_item_In; assumption.
      + replace (Z.min (a + Z.of_nat 0) (max_attempts r)) with a by lia. exact Haf.
    - simpl.
      destruct (retry_step batch db log r ep parsed a row) as (Hnd' & Hb' & row' & Hin' & Haf');
        try assumption; [lia|].
      destruct (processOutbox cfg net now batch {| running := false |} db log)
        as [[[res eng] db'] log'] eqn:E. simpl in *.
      destruct (IH (Z.min (a + 1) (max_attempts r)) db' log' row' Hnd' Hb' Hin') as (row2 & Hf & Haf2);
        [lia|exact Haf'|].
      exists row2. split; [exact Hf|].
      replace (Z.min (a + Z.of_nat (S k)) (max_attempts r))
        with (Z.min (Z.min (a + 1) (max_attempts r) + Z.of_nat k) (max_attempts r)) by lia.
      exact Haf2. }
  destruct (G k 0 db log r Hnd Hb Hin) as (row & Hf & Haf); [lia| |].
  { unfold after_failures. repeat (split; [first [done|lia]|]). left.
    repeat split; [lia|done|lia]. }
  exists row. split; [exact Hf|].
  destruct Haf as (_ & _ & _ & _ & Hat & Hst). simpl in Hat.
  split; [lia|]. split.
  - intros Hk. destruct Hst as [(Hlt & Hsr & He)|(Heq & _)]; [|lia].
    split; [exact Hsr|]. intros Hk0. apply He. lia.
  - intros Hk. destruct Hst as [(Hlt & _)|(_ & Hsr & He)]; [lia|]. tauto.
Qed.

(** A picked-up row whose endpoint answers with status [st]. *)
Lemma one_turn st batch db log r ep parsed :
  isConfigured cfg = true ->
  URL_ok ep (baseUrl cfg) = true ->
  pushEndpoints !! entity_type r = Some ep ->
  JSON_parse (payload r) = Some parsed ->
  answers_with net st ep ->
  List.NoDup (map item_id (outbox_queue db)) ->
  In r (select_pending batch db) ->
  let db' := (processOutbox cfg net now batch {| running := false |} db log).1.2 in
  exists d,
    find_item (item_id r) db' =
    Some (apply_outcome now
            (outcome_of_response r
               {| res_ok := http_ok st; res_status := st; res_data := d; res_error := None |})
            r).
Proof.
  intros Hc Hurl Hep Hp Hnet Hnd Hsel db'.
  pose proof (select_pending_In _ _ _ Hsel) as [Hin _].
  destruct (processOutbox_row batch db log r Hc Hnd Hin) as (Hnd' & _ & b & Hb & HT).
  fold db' in Hnd', Hb.
  destruct HT as [[Hn _]|[_ [lg ->]]]; [tauto|].
  destruct (decide_answer st r ep parsed lg Hep Hp Hurl Hnet) as (d & Hd).
  exists d. rewrite Hd in Hb.
  match type of Hb with In (apply_outcome now ?o r) _ =>
    rewrite <- (apply_outcome_id o r) end.
  apply find_item_In; [exact Hnd'|exact Hb].
Qed.

Lemma decide_outcome_log lg it :
  exists new, (decide_outcome cfg net lg it).2 = lg ++ new /\ Forall sent_for_known new.
Proof.
  unfold decide_outcome.
  destruct (endpoint_of (entity_type it)) as [ep|] eqn:Hep;
    [|exists []; rewrite app_nil_r; split; [done|constructor]].
  destruct (JSON_parse (payload it)) as [parsed|];
    [|exists []; rewrite app_nil_r; split; [done|constructor]].
  unfold cloud_post, cloud_call; simpl.
  destruct (URL_ok ep (baseUrl cfg)); simpl.
  - eexists [_]. split; [reflexivity|]. constructor; [|constructor].
    exists it, parsed. rewrite Hep. split; [eauto|reflexivity].
  - exists []. rewrite app_nil_r. split; [done|constructor].
Qed.

Lemma fold_log items : forall st,
  exists new,
    p_log (fold_left (process_item cfg net now) items st) = p_log st ++ new /\
    Forall sent_for_known new.
Proof.
  induction items as [|it rest IH]; intros st; simpl.
  - exists []. rewrite app_nil_r. split; [done|constructor].
  - destruct (IH (process_item cfg net now st it)) as (new2 & -> & H2).
    rewrite process_item_spec. simpl.
    destruct (decide_outcome_log (p_log st) it) as (new1 & -> & H1).
    exists (new1 ++ new2). rewrite app_assoc. split; [done|].
    apply Forall_app. tauto.
Qed.

Lemma pushEndpoints_unknown (t : string) :
  ~ In t ["sale"; "kitchen_order"; "cash_drawer"; "shift_log"; "gift_card";
          "refund"; "store_credit"] ->
  pushEndpoints !! t = None.
Proof.
  intros Hn. unfold pushEndpoints. apply not_elem_of_list_to_map_1.
  rewrite list_elem_of_In. exact Hn.
Qed.

Lemma endpoint_of_unknown (t : string) :
  ~ In t ["sale"; "kitchen_order"; "cash_drawer"; "shift_log"; "gift_card";
          "refund"; "store_credit"] ->
  ~ In t Object_prototype_names ->
  endpoint_of t = None.
Proof.
  intros Hn Hi. unfold endpoint_of, object_get.
  rewrite (pushEndpoints_unknown t Hn), (inherited_None t Hi). reflexivity.
Qed.

(** No route enqueues a row under a name that object literals inherit. *)
Lemma enqueued_types_not_inherited :
  Forall (fun t => ~ In t Object_prototype_names) enqueued_entity_types.
Proof.
  unfold enqueued_entity_types.
  repeat (constructor; [simpl; intuition discriminate|]). constructor.
Qed.

(** C10. A picked-up outbox row whose [entity_type] is none of the seven
    keys of the endpoint table, and is not a property name the table
    inherits from [Object.prototype] (no route enqueues one), is marked
    DEAD_LETTER with error 'Unknown entity type' in that very turn, and no
    request carrying its entity type is sent to the cloud by the batch. *)
Theorem unknown_entity_type_dead_letter (batch : Z) (db : Db)
    (log : list Request) (r : OutboxItem) :
  isConfigured cfg = true ->
  List.NoDup (map item_id (outbox_queue db)) ->
  In r (select_pending batch db) ->
  ~ In (entity_type r) ["sale"; "kitchen_order"; "cash_drawer"; "shift_log";
                        "gift_card"; "refund"; "store_credit"] ->
  ~ In (entity_type r) Object_prototype_names ->
  let out := processOutbox cfg net now batch {| running := false |} db log in
  (exists row,
     find_item (item_id r) out.1.2 = Some row /\
     status row = DEAD_LETTER /\
     error row = Some "Unknown entity type" /\
     attempts row = attempts r + 1) /\
  (exists new,
     out.2 = log ++ new /\
     Forall (fun rq => prop (req_body rq) "entityType" <> Ok (VStr (entity_type r))) new).
Proof.
  intros Hc Hnd Hsel Hunk Hinh out.
  pose proof (endpoint_of_unknown _ Hunk Hinh) as Hnone.
  pose proof (select_pending_In _ _ _ Hsel) as [Hin _].
  split.
  - destruct (processOutbox_row batch db log r Hc Hnd Hin) as (Hnd' & _ & b & Hb & HT).
    destruct HT as [[Hn _]|[_ [lg Hbe]]]; [tauto|].
    unfold decide_outcome in Hbe. rewrite Hnone in Hbe. simpl in Hbe. subst b.
    exists (mark DEAD_LETTER (Some "Unknown entity type") (mark_processing r)).
    split; [|repeat split].
    change (item_id r) with
      (item_id (mark DEAD_LETTER (Some "Unknown entity type") (mark_processing r))).
    apply find_item_In; assumption.
  - subst out. unfold processOutbox. simpl. rewrite Hc. simpl.
    destruct (fold_log (select_pending batch db)
                {| p_db := db; p_log := log; p_result := no_result |}) as (new & -> & Hnew).
    exists new. split; [reflexivity|].
    eapply Forall_impl; [exact Hnew|].
    intros rq (it & parsed & [ep Hep] & Hbody) Heq.
    rewrite Hbody in Heq. simpl in Heq. injection Heq as Heq.
    rewrite Heq in Hep. congruence.
Qed.

End PushProperties.

Section PushConflict.
Context `{Runtime}.
Variables (cfg : Config) (now : string).

(** C3. A claimed outbox row whose POST is answered with HTTP 409 is marked
    SYNCED with the note 'Duplicate (409)', the status a 2xx answer gives,
    and not dead-lettered as other 4xx answers are; and a row whose first
    attempt failed with HTTP 500 and whose second attempt is answered 409
    ends SYNCED as well. *)
Theorem push_conflict_is_synced (batch : Z) (db : Db) (log : list Request)
    (r : OutboxItem) (ep : string) (parsed : JsVal) :
  isConfigured cfg = true ->
  URL_ok ep (baseUrl cfg) = true ->
  pushEndpoints !! entity_type r = Some ep ->
  JSON_parse (payload r) = Some parsed ->
  List.NoDup (map item_id (outbox_queue db)) ->
  In r (select_pending batch db) ->
  (* this attempt is answered 409, or 2xx *)
  (forall net st, st = 409 \/ http_ok st = true -> answers_with net st ep ->
     exists row,
       find_item (item_id r)
         (processOutbox cfg net now batch {| running := false |} db log).1.2 = Some row /\
       status row = SYNCED /\ synced_at row = Some now /\
       attempts row = attempts r + 1 /\
       (st = 409 -> error row = Some "Duplicate (409)")) /\
  (* first attempt 500, second attempt 409 *)
  (forall net1 net2,
     answers_with net1 500 ep -> answers_with net2 409 ep ->
     attempts r + 1 < max_attempts r ->
     batch < 0 \/ Z.of_nat (length (List.filter eligible (outbox_queue db))) <= batch ->
     let out1 := processOutbox cfg net1 now batch {| running := false |} db log in
     let out2 := processOutbox cfg net2 now batch {| running := false |} out1.1.2 out1.2 in
     exists row1 row2,
       find_item (item_id r) out1.1.2 = Some row1 /\ status row1 = PENDING /\
       find_item (item_id r) out2.1.2 = Some row2 /\
       status row2 = SYNCED /\ error row2 = Some "Duplicate (409)" /\
       attempts row2 = attempts r + 2).
Proof.
  intros Hc Hurl Hep Hp Hnd Hsel. split.
  - intros net st Hst Hnet.
    destruct (one_turn cfg net now st batch db log r ep parsed) as (d & Hf); try assumption.
    eexists. split; [exact Hf|].
    unfold outcome_of_response; simpl.
    destruct Hst as [->|Hok].
    + simpl. repeat split; reflexivity.
    + rewrite Hok. simpl. repeat split; try reflexivity.
      intros ->. discriminate.
  - intros net1 net2 H1 H2 Hat Hb out1 out2.
    pose proof (select_pending_In _ _ _ Hsel) as [Hin Hel].
    destruct (processOutbox_row cfg net1 now batch db log r Hc Hnd Hin)
      as (Hnd1 & Hlen1 & b & Hb1 & HT).
    fold out1 in Hnd1, Hlen1, Hb1.
    destruct HT as [[Hn _]|[_ [lg Hbe]]]; [tauto|].
    destruct (decide_answer cfg net1 500 r ep parsed lg Hep Hp Hurl H1) as (d & Hd).
    rewrite Hd in Hbe. unfold outcome_of_response in Hbe. simpl in Hbe.
    assert (E : (max_attempts r <=? attempts r + 1) = false) by (apply Z.leb_gt; lia).
    rewrite E in Hbe. simpl in Hbe.
    assert (Hel1 : eligible b = true).
    { subst b. unfold eligible. simpl. apply Z.ltb_lt. lia. }
    assert (Hsel1 : In b (select_pending batch out1.1.2)).
    { apply select_pending_picks; [|exact Hb1|exact Hel1].
      destruct Hb; [left; done|right; lia]. }
    destruct (one_turn cfg net2 now 409 batch out1.1.2 out1.2 b ep parsed) as (d2 & Hf2);
      try assumption; try (subst b; assumption).
    fold out2 in Hf2.
    exists b. eexists. split; [|split; [|split; [|split; [|split]]]].
    + replace (item_id r) with (item_id b) by (subst b; reflexivity).
      apply find_item_In; assumption.
    + subst b. reflexivity.
    + replace (item_id r) with (item_id b) by (subst b; reflexivity). exact Hf2.
    + reflexivity.
    + reflexivity.
    + subst b. simpl. lia.
Qed.

End PushConflict.

Section ReceiptProperties.

Lemma drop_chars_prefix (a b : string) :
  drop_chars (String.length a + 1) (a +:+ "-" +:+ b) = b.
Proof. induction a as [|c a IH]; simpl; [reflexivity|exact IH]. Qed.

Lemma append_nil_l (s : string) : "" +:+ s = s.
Proof. reflexivity. Qed.

Lemma append_cons_l c (a b : string) : String c a +:+ b = String c (a +:+ b).
Proof. reflexivity. Qed.

Lemma uint_of_string_zeros n s :
  NilEmpty.uint_of_string (repeat_char n "0" +:+ s) =
  option_map (Nat.iter n Decimal.D0) (NilEmpty.uint_of_string s).
Proof.
  induction n as [|n IH]; simpl.
  - rewrite append_nil_l. destruct (NilEmpty.uint_of_string s); reflexivity.
  - rewrite ?append_cons_l. simpl. rewrite IH.
    destruct (NilEmpty.uint_of_string s); reflexivity.
Qed.

Lemma of_uint_zeros n d : Nat.of_uint (Nat.iter n Decimal.D0 d) = Nat.of_uint d.
Proof. induction n as [|n IH]; simpl; [reflexivity|exact IH]. Qed.

Lemma String_of_nat_parse k :
  String_of_nat k <> EmptyString /\
  option_map Nat.of_uint (NilEmpty.uint_of_string (String_of_nat k)) = Some k.
Proof.
  unfold String_of_nat, NilZero.string_of_uint.
  pose proof (DecimalNat.Unsigned.of_to k) as Hk.
  destruct (Nat.to_uint k) as [|d|d|d|d|d|d|d|d|d|d] eqn:E.
  - split; [discriminate|]. vm_compute in Hk. subst k. reflexivity.
  - split; [discriminate|]. rewrite NilEmpty.usu. unfold option_map. f_equal. exact Hk.
  - split; [discriminate|]. rewrite NilEmpty.usu. unfold option_map. f_equal. exact Hk.
  - split; [discriminate|]. rewrite NilEmpty.usu. unfold option_map. f_equal. exact Hk.
  - split; [discriminate|]. rewrite NilEmpty.usu. unfold option_map. f_equal. exact Hk.
  - split; [discriminate|]. rewrite NilEmpty.usu. unfold option_map. f_equal. exact Hk.
  - split; [discriminate|]. rewrite NilEmpty.usu. unfold option_map. f_equal. exact Hk.
  - split; [discriminate|]. rewrite NilEmpty.usu. unfold option_map. f_equal. exact Hk.
  - split; [discriminate|]. rewrite NilEmpty.usu. unfold option_map. f_equal. exact Hk.
  - split; [discriminate|]. rewrite NilEmpty.usu. unfold option_map. f_equal. exact Hk.
  - split; [discriminate|]. rewrite NilEmpty.usu. unfold option_map. f_equal. exact Hk.
Qed.

Lemma receipt_suffix_format dk k : receipt_suffix dk (receipt_format dk k) = Some k.
Proof.
  unfold receipt_suffix, receipt_format. rewrite drop_chars_prefix.
  destruct (String_of_nat_parse k) as [Hne Hp].
  unfold parse_decimal, padStart.
  rewrite uint_of_string_zeros.
  destruct (NilEmpty.uint_of_string (String_of_nat k)) as [d|]; [|discriminate].
  simpl in Hp. injection Hp as Hp.
  assert (Hs : option_map Nat.of_uint (option_map (Nat.iter (4 - String.length (String_of_nat k)) Decimal.D0) (Some d)) = Some k).
  { simpl. rewrite of_uint_zeros. congruence. }
  destruct (repeat_char (4 - String.length (String_of_nat k)) "0" +:+ String_of_nat k) eqn:E;
    [|exact Hs].
  exfalso. destruct (4 - String.length (String_of_nat k))%nat; simpl in E.
  - rewrite ?append_nil_l in E. contradiction.
  - rewrite ?append_cons_l in E. discriminate.
Qed.

Lemma String_of_Z_nat k : String_of_Z (Z.of_nat k) = String_of_nat k.
Proof.
  unfold String_of_Z. destruct (Z.of_nat k <? 0) eqn:E.
  - apply Z.ltb_lt in E. lia.
  - rewrite Nat2Z.id. reflexivity.
Qed.

Lemma nextReceiptNumber_spec iso db c :
  default 0 (order_sequence db !! dateKey_of iso) = Z.of_nat c ->
  (nextReceiptNumber iso db).1 = receipt_format (dateKey_of iso) (S c) /\
  order_sequence (nextReceiptNumber iso db).2 =
    <[dateKey_of iso := Z.of_nat (S c)]> (order_sequence db).
Proof.
  intros Hc. unfold nextReceiptNumber, bump_sequence, receipt_format. simpl.
  assert (Hv : match order_sequence db !! dateKey_of iso with
               | Some c0 => c0 + 1 | None => 1 end = Z.of_nat (S c)).
  { destruct (order_sequence db !! dateKey_of iso); simpl in Hc; lia. }
  rewrite Hv, String_of_Z_nat. split; reflexivity.
Qed.

Lemma receipt_calls_cons iso rest db :
  receipt_calls (iso :: rest) db =
  ((nextReceiptNumber iso db).1 :: (receipt_calls rest (nextReceiptNumber iso db).2).1,
   (receipt_calls rest (nextReceiptNumber iso db).2).2).
Proof.
  cbn [receipt_calls]. destruct (nextReceiptNumber iso db) as [v db1].
  cbn [fst snd]. destruct (receipt_calls rest db1); reflexivity.
Qed.

Lemma receipt_calls_spec dk isos : forall db c,
  Forall (fun iso => dateKey_of iso = dk) isos ->
  default 0 (order_sequence db !! dk) = Z.of_nat c ->
  (receipt_calls isos db).1 = map (receipt_format dk) (seq (S c) (length isos)) /\
  default 0 (order_sequence (receipt_calls isos db).2 !! dk) = Z.of_nat (c + length isos).
Proof.
  induction isos as [|iso rest IH]; intros db c HF Hc.
  - simpl. split; [reflexivity|]. rewrite Hc. f_equal. lia.
  - inversion HF as [|? ? Hiso Hrest]; subst.
    rewrite receipt_calls_cons.
    destruct (nextReceiptNumber_spec iso db c Hc) as [Hv Hm].
    assert (Hc1 : default 0 (order_sequence (nextReceiptNumber iso db).2 !! dateKey_of iso)
                  = Z.of_nat (S c)).
    { rewrite Hm, lookup_insert_eq. reflexivity. }
    destruct (IH _ (S c) Hrest Hc1) as [Hvs Hfin].
    cbn [fst snd length seq map]. rewrite Hv, Hvs, Hfin.
    split; [reflexivity|]. f_equal. lia.
Qed.

(** C6. [n] calls of [nextReceiptNumber] whose clock readings fall on one
    date key, on a store that has no counter for that key yet, return in
    the order the store serialises them [dateKey-] followed by 1, 2, ..., n,
    each zero-padded to at least four digits; the values are pairwise
    distinct, their numeric suffixes are exactly 1..n, and the counter row
    holds n afterwards.  Every call is the single atomic
    INSERT .. ON CONFLICT DO UPDATE .. RETURNING statement, so concurrent
    callers are one such serial order. *)
Theorem receipt_numbers_contiguous (dk : string) (isos : list string) (db : Db) :
  Forall (fun iso => dateKey_of iso = dk) isos ->
  order_sequence db !! dk = None ->
  let n := length isos in
  let results := (receipt_calls isos db).1 in
  results = map (receipt_format dk) (seq 1 n) /\
  map (receipt_suffix dk) results = map Some (seq 1 n) /\
  List.NoDup results /\
  (1 <= n -> order_sequence (receipt_calls isos db).2 !! dk = Some (Z.of_nat n))%nat.
Proof.
  intros HF Hnone n results.
  destruct (receipt_calls_spec dk isos db 0 HF) as [Hres Hfin].
  { rewrite Hnone. reflexivity. }
  fold results in Hres. fold n in Hres, Hfin.
  assert (Hsuf : map (receipt_suffix dk) results = map Some (seq 1 n)).
  { rewrite Hres, map_map. apply map_ext. intros k. apply receipt_suffix_format. }
  split; [exact Hres|]. split; [exact Hsuf|]. split.
  - apply (NoDup_map_inv (receipt_suffix dk)). rewrite Hsuf.
    apply NoDup_ListNoDup, NoDup_fmap_2; [intros a b; congruence|].
    apply NoDup_ListNoDup, seq_NoDup.
  - intros Hn. simpl in Hfin.
    destruct (order_sequence (receipt_calls isos db).2 !! dk) as [v|]; simpl in Hfin.
    + congruence.
    + lia.
Qed.

End ReceiptProperties.

Section PushExamples.

Lemma push_retry_bound_witness :
  exists row,
    find_item 1
      (push_cycles (H := demo_runtime) demo_cfg (net_status 500) "2026-01-01 10:00:05" 20 3
         (db_with_outbox [demo_item 1 "sale" 3]) []).1 = Some row /\
    status row = DEAD_LETTER /\ attempts row = 3.
Proof.
  destruct (@push_retry_bound demo_runtime demo_cfg (net_status 500) "2026-01-01 10:00:05"
              20 (db_with_outbox [demo_item 1 "sale" 3]) [] (demo_item 1 "sale" 3)
              "/api/hub/push/sale" (VObj [])) with (k := 3%nat)
    as (row & Hf & Ha & _ & Hd).
  - reflexivity.
  - reflexivity.
  - reflexivity.
  - reflexivity.
  - intros lg rq _. exists NotJson. split; [reflexivity|discriminate].
  - simpl. constructor; [simpl; tauto|constructor].
  - right. simpl. lia.
  - left. reflexivity.
  - reflexivity.
  - reflexivity.
  - simpl. lia.
  - exists row. split; [exact Hf|]. split; [apply Hd; simpl; lia|exact Ha].
Defined.

Lemma push_conflict_is_synced_witness :
  exists row,
    find_item 1
      (processOutbox (H := demo_runtime) demo_cfg (net_status 409) "2026-01-01 10:00:05" 20
         {| running := false |} (db_with_outbox [demo_item 1 "sale" 3]) []).1.2 = Some row /\
    status row = SYNCED /\ error row = Some "Duplicate (409)".
Proof.
  destruct (@push_conflict_is_synced demo_runtime demo_cfg "2026-01-01 10:00:05"
              20 (db_with_outbox [demo_item 1 "sale" 3]) [] (demo_item 1 "sale" 3)
              "/api/hub/push/sale" (VObj [])) as [Hone _].
  - reflexivity.
  - reflexivity.
  - reflexivity.
  - reflexivity.
  - simpl. constructor; [simpl; tauto|constructor].
  - left. reflexivity.
  - destruct (Hone (net_status 409) 409) as (row & Hf & Hs & _ & _ & He).
    + left. reflexivity.
    + intros lg rq _. exists NotJson. split; [reflexivity|discriminate].
    + exists row. split; [exact Hf|]. split; [exact Hs|apply He; reflexivity].
Defined.

(** The row [POST /api/users/u1/change-pin] leaves in the outbox, picked up
    by the next push. *)
Lemma unknown_entity_type_dead_letter_witness :
  let db := (post_change_pin (H := demo_runtime) demo_cfg "u1" "4321"
               "2026-01-01 10:00:00" demo_hub).2.(hub_db) in
  exists r row,
    outbox_queue db = [r] /\ entity_type r = "user" /\ action r = "update_pin" /\
    find_item (item_id r)
      (processOutbox (H := demo_runtime) demo_cfg (net_status 201) "2026-01-01 10:00:05" 20
         {| running := false |} db []).1.2 = Some row /\
    status row = DEAD_LETTER /\ error row = Some "Unknown entity type".
Proof.
  intros db.
  set (r := {| item_id := 1; entity_type := "user"; entity_id := "u1"; action := "update_pin";
               payload := "{}"; correlation_id := None; priority := 5; status := PENDING;
               attempts := 0; max_attempts := 5; error := None;
               created_at := "2026-01-01 10:00:00"; synced_at := None |}).
  assert (Hq : outbox_queue db = [r]) by reflexivity.
  destruct (@unknown_entity_type_dead_letter demo_runtime demo_cfg (net_status 201)
              "2026-01-01 10:00:05" 20 db [] r) as [(row & Hf & Hs & He & _) _].
  - reflexivity.
  - rewrite Hq. simpl. constructor; [simpl; tauto|constructor].
  - left. reflexivity.
  - simpl. intros Hin. repeat (destruct Hin as [Hin|Hin]; [discriminate|]). exact Hin.
  - simpl. intros Hin. repeat (destruct Hin as [Hin|Hin]; [discriminate|]). exact Hin.
  - exists r, row. repeat split; assumption.
Defined.

(** A row whose entity type names a property that every object inherits
    is not unknown to the engine: the look-up finds the built-in, the row
    is posted to the text of that built-in, and the answer decides. *)
Example inherited_type_is_posted :
  let out := processOutbox (H := demo_runtime) demo_cfg (net_status 201)
               "2026-01-01 10:00:05" 20 {| running := false |}
               (db_with_outbox [demo_item 1 "constructor" 3]) [] in
  option_map status (find_item 1 out.1.2) = Some SYNCED /\
  map req_path out.2 = ["function Object() { [native code] }"].
Proof. split; reflexivity. Qed.

End PushExamples.

Section AuthProperties.
Context `{Runtime}.
Variable cfg : Config.

Lemma checkPinRateLimit_self now addr m :
  (checkPinRateLimit now addr m).2 !! addr = Some (next_entry now (m !! addr)).
Proof.
  unfold checkPinRateLimit, next_entry.
  destruct (m !! addr) as [e|]; [destruct (resetAt e <=? now)|]; simpl;
    apply lookup_insert_eq.
Qed.

Lemma checkPinRateLimit_other now addr other m :
  other <> addr -> (checkPinRateLimit now other m).2 !! addr = m !! addr.
Proof.
  intros Hne. unfold checkPinRateLimit.
  destruct (m !! other) as [e|]; [destruct (resetAt e <=? now)|]; simpl;
    apply lookup_insert_ne; exact Hne.
Qed.

Lemma checkPinRateLimit_verdict now addr m :
  (checkPinRateLimit now addr m).1 =
  match m !! addr with
  | Some e => (resetAt e <=? now) || (count e + 1 <=? PIN_RATE_LIMIT)
  | None => true
  end.
Proof.
  unfold checkPinRateLimit.
  destruct (m !! addr) as [e|]; [destruct (resetAt e <=? now)|]; reflexivity.
Qed.

(** Whatever the handler answers, the only change it makes to the buckets
    is the one [checkPinRateLimit] makes, and only for a well-formed PIN. *)
Lemma post_auth_pin_attempts rq h :
  pinAttempts (post_auth_pin cfg rq h).2 =
  if pin_malformed (pin rq) then pinAttempts h
  else (checkPinRateLimit (at_ms rq) (client_ip rq) (pinAttempts h)).2.
Proof.
  unfold post_auth_pin, client_ip.
  destruct (pin rq) as [p|] eqn:Hp; [|reflexivity].
  destruct (pin_malformed (Some p)); [reflexivity|].
  destruct (checkPinRateLimit (at_ms rq) (default "unknown" (ip rq)) (pinAttempts h))
    as [allowed attempts'].
  destruct allowed; simpl; [|reflexivity].
  destruct (find_user p (active_users cfg (hub_db h)) (recentUserIds h)); [|reflexivity].
  destruct (match terminalId_field rq with Some t => Some t | None => x_terminal_id rq end)
    as [t|]; [|reflexivity].
  destruct (String.eqb t ""); [reflexivity|].
  destruct (find_row "terminals" (has_id t) (hub_db h)); [|reflexivity].
  match goal with |- context [transaction ?f ?d] => destruct (transaction f d) as [[?|?] ?] end;
    reflexivity.
Qed.

Lemma post_auth_pin_entry addr rq h :
  pinAttempts (post_auth_pin cfg rq h).2 !! addr =
  if attempt_from addr rq then Some (next_entry (at_ms rq) (pinAttempts h !! addr))
  else pinAttempts h !! addr.
Proof.
  rewrite post_auth_pin_attempts. unfold attempt_from.
  destruct (pin_malformed (pin rq)); simpl; [reflexivity|].
  destruct (String.eqb (client_ip rq) addr) eqn:E.
  - apply String.eqb_eq in E. rewrite E. apply checkPinRateLimit_self.
  - apply String.eqb_neq in E. apply checkPinRateLimit_other. exact E.
Qed.

Lemma serve_pins_entry addr rqs : forall h,
  pinAttempts (serve_pins cfg rqs h).2 !! addr =
  fold_left (fun e rq => Some (next_entry (at_ms rq) e))
            (List.filter (attempt_from addr) rqs) (pinAttempts h !! addr).
Proof.
  induction rqs as [|rq rest IH]; intros h; [reflexivity|].
  cbn [serve_pins].
  pose proof (post_auth_pin_entry addr rq h) as Hstep.
  destruct (post_auth_pin cfg rq h) as [r h1]. simpl in Hstep.
  specialize (IH h1). destruct (serve_pins cfg rest h1) as [rs h2]. simpl in *.
  rewrite IH, Hstep. destruct (attempt_from addr rq); reflexivity.
Qed.

Lemma window_fills c R (rest : list PinRequest) :
  Forall (fun rq => at_ms rq < R) rest ->
  fold_left (fun e rq => Some (next_entry (at_ms rq) e)) rest
            (Some {| count := c; resetAt := R |}) =
  Some {| count := c + Z.of_nat (length rest); resetAt := R |}.
Proof.
  revert c. induction rest as [|rq rest IH]; intros c HF; simpl.
  - do 2 f_equal. lia.
  - inversion HF as [|? ? Hrq Hrest]; subst.
    assert (E : (R <=? at_ms rq) = false) by (apply Z.leb_gt; lia).
    rewrite E, IH by exact Hrest. do 2 f_equal. lia.
Qed.

(** C7. Ten well-formed PIN attempts from one address, the first of which
    opens the address's five-minute window and the rest of which fall
    inside it, make the next well-formed attempt from that address inside
    the window answer 429, whatever PIN it carries, whoever the users are
    and whatever bcrypt says; requests from other addresses and malformed
    requests in between do not count. *)
Theorem pin_rate_limit (addr : string) (before : list PinRequest) (rq : PinRequest)
    (h : Hub) (first : PinRequest) (rest : list PinRequest) :
  List.filter (attempt_from addr) before = first :: rest ->
  length rest = 9%nat ->
  match pinAttempts h !! addr with
  | Some e => resetAt e <= at_ms first
  | None => True
  end ->
  Forall (fun r => at_ms r < at_ms first + PIN_RATE_WINDOW_MS) rest ->
  attempt_from addr rq = true ->
  at_ms rq < at_ms first + PIN_RATE_WINDOW_MS ->
  code (post_auth_pin cfg rq (serve_pins cfg before h).2).1 = 429.
Proof.
  intros Hhits Hlen Hopen Hin Hrq Hnow.
  pose proof (serve_pins_entry addr before h) as Hentry.
  rewrite Hhits in Hentry. simpl in Hentry.
  assert (Hfirst : next_entry (at_ms first) (pinAttempts h !! addr) =
                   {| count := 1; resetAt := at_ms first + PIN_RATE_WINDOW_MS |}).
  { unfold next_entry. destruct (pinAttempts h !! addr) as [e|]; [|reflexivity].
    assert (E : (resetAt e <=? at_ms first) = true) by (apply Z.leb_le; exact Hopen).
    rewrite E. reflexivity. }
  rewrite Hfirst, window_fills, Hlen in Hentry by exact Hin.
  set (h' := (serve_pins cfg before h).2) in *.
  unfold attempt_from in Hrq. apply andb_true_iff in Hrq as [Hwf Hip].
  apply negb_true_iff in Hwf. apply String.eqb_eq in Hip.
  unfold post_auth_pin. destruct (pin rq) as [p|] eqn:Hp; [|discriminate].
  rewrite Hwf.
  pose proof (checkPinRateLimit_verdict (at_ms rq) (default "unknown" (ip rq)) (pinAttempts h'))
    as Hv.
  fold (client_ip rq) in Hv |- *. rewrite Hip, Hentry in Hv. simpl in Hv.
  assert (E : (at_ms first + PIN_RATE_WINDOW_MS <=? at_ms rq) = false)
    by (apply Z.leb_gt; lia).
  rewrite E in Hv. simpl in Hv. rewrite Hip.
  destruct (checkPinRateLimit (at_ms rq) addr (pinAttempts h')) as [allowed attempts'].
  simpl in Hv. subst allowed. reflexivity.
Qed.

End AuthProperties.

Section RouteProperties.
Context `{Runtime}.

Lemma hub_same_db h : with_db (fun _ => hub_db h) h = h.
Proof. destruct h; reflexivity. Qed.

Lemma remove_first_length x l : (length (remove_first x l) <= length l)%nat.
Proof.
  induction l as [|y l IH]; simpl; [lia|].
  destruct (String.eqb y x); simpl; lia.
Qed.

(** C9 (as amended). A PIN update through
    [POST /api/users/:userId/change-pin] leaves the recent-user cache
    exactly as it was, whatever the request and whether or not it succeeds.
    The cache holds user ids only: [recordRecentUser] puts the id in front
    and never lets a cache of at most five entries grow beyond five. *)
Theorem change_pin_keeps_recent_users (cfg : Config) (userId newPin now : string)
    (h : Hub) (u : string) (l : list string) :
  recentUserIds (post_change_pin cfg userId newPin now h).2 = recentUserIds h /\
  hd_error (recordRecentUser u l) = Some u /\
  (length (recordRecentUser u l) <= Nat.max MAX_RECENT_USERS (length l))%nat.
Proof.
  split; [|split].
  - unfold post_change_pin.
    destruct (find_row "users" _ (hub_db h)); [|reflexivity].
    match goal with |- context [transaction ?f ?d] => destruct (transaction f d) as [[?|?] ?] end;
      reflexivity.
  - unfold recordRecentUser.
    destruct (MAX_RECENT_USERS <? length (u :: remove_first u l))%nat eqn:E; [|reflexivity].
    apply Nat.ltb_lt in E. simpl in E.
    destruct (remove_first u l) as [|y l']; [simpl in E; unfold MAX_RECENT_USERS in E; lia|].
    reflexivity.
  - unfold recordRecentUser. pose proof (remove_first_length u l) as Hl.
    destruct (MAX_RECENT_USERS <? length (u :: remove_first u l))%nat eqn:E.
    + rewrite removelast_firstn_len, length_firstn. simpl. lia.
    + apply Nat.ltb_ge in E. simpl in *. lia.
Qed.

End RouteProperties.

(** C9, the claim as stated fails: after a successful PIN update for user
    u1 the cache still lists u1. *)
Lemma change_pin_cache_not_cleared :
  let out := post_change_pin (H := demo_runtime) demo_cfg "u1" "4321"
               "2026-01-01 10:00:00" demo_hub in
  code out.1 = 200 /\
  recentUserIds demo_hub = ["u1"] /\
  recentUserIds out.2 = ["u1"] /\
  recentUserIds out.2 <> [].
Proof. repeat split; try reflexivity. discriminate. Qed.

Section KitchenProperties.
Context `{Runtime}.

Lemma find_update (p : Row -> bool) (f : Row -> Row) (l : list Row) :
  (forall r, p (f r) = p r) ->
  List.find p (map (fun r => if p r then f r else r) l) = option_map f (List.find p l).
Proof.
  intros Hp. induction l as [|r l IH]; simpl; [reflexivity|].
  destruct (p r) eqn:E.
  - rewrite Hp, E. reflexivity.
  - rewrite E. exact IH.
Qed.

Lemma col_set_cols_other cs : forall r c,
  ~ In c (map fst cs) -> col (set_cols cs r) c = col r c.
Proof.
  unfold set_cols. induction cs as [|[k v] cs IH]; intros r c Hn; simpl; [reflexivity|].
  rewrite IH by (simpl in Hn; tauto).
  unfold col. rewrite lookup_insert_ne; [reflexivity|]. simpl in Hn. tauto.
Qed.

Lemma statusFlow_cases s n :
  statusFlow !! s = Some n ->
  (s = "PENDING" /\ n = "PREPARING") \/ (s = "PREPARING" /\ n = "READY") \/
  (s = "READY" /\ n = "COMPLETED").
Proof.
  unfold statusFlow. intros Hl. apply elem_of_list_to_map_2 in Hl.
  apply list_elem_of_In in Hl. simpl in Hl.
  destruct Hl as [E|[E|[E|[]]]]; injection E as <- <-; tauto.
Qed.

Lemma bump_clauses_cols n now (o : Row) :
  col (set_cols (bump_clauses n now) o) "status" = VStr n /\
  col (set_cols (bump_clauses n now) o) "id" = col o "id" /\
  col (set_cols (bump_clauses n now) o) "fired_at" =
    (if String.eqb n "PREPARING" then VStr now else col o "fired_at") /\
  col (set_cols (bump_clauses n now) o) "completed_at" =
    (if String.eqb n "COMPLETED" then VStr now else col o "completed_at").
Proof.
  unfold bump_clauses.
  destruct (String.eqb n "PREPARING"), (String.eqb n "COMPLETED");
    unfold set_cols, col; simpl;
    repeat first [rewrite lookup_insert_eq | rewrite lookup_insert_ne by discriminate];
    repeat split; reflexivity.
Qed.

(** One bump of an order whose status is an own key of [statusFlow], when
    SQLite accepts the outbox row. *)
Lemma bump_commits id now h order s n :
  find_row "kitchen_orders" (has_id id) (hub_db h) = Some order ->
  col order "status" = VStr s ->
  statusFlow !! s = Some n ->
  (forall (t : Tables) r, sql_accepts t "outbox_queue" r = true) ->
  let out := post_bump id now h in
  out.1 = reply_ok (VObj [("success", VBool true); ("previousStatus", VStr s);
                          ("newStatus", VStr n)]) /\
  find_row "kitchen_orders" (has_id id) (hub_db out.2)
    = Some (set_cols (bump_clauses n now) order) /\
  (exists row,
     outbox_queue (hub_db out.2) = outbox_queue (hub_db h) ++ [row] /\
     entity_type row = "kitchen_order" /\ entity_id row = id /\
     action row = "update" /\ status row = PENDING) /\
  broadcasts out.2 =
    broadcasts h ++ [{| event := "order:status";
                        event_data := VObj [("id", VStr id); ("status", VStr n);
                                            ("previousStatus", VStr s)];
                        role_filter := None |}].
Proof.
  intros Hfind Hs Hflow Hacc out. subst out. unfold post_bump. rewrite Hfind.
  unfold next_status, object_get. rewrite Hs. cbn [js_to_string]. rewrite Hflow.
  assert (Hcases : n = "PREPARING" \/ n = "READY" \/ n = "COMPLETED").
  { apply statusFlow_cases in Hflow. tauto. }
  assert (Hne : String.eqb n "" = false).
  { destruct Hcases as [-> | [-> | ->]]; reflexivity. }
  rewrite Hne. unfold transaction, enqueue_stmt. rewrite Hacc. cbn [mbind result_bind].
  cbn [fst snd]. split; [reflexivity|]. split; [|split].
  - unfold find_row, update_where, table in *. simpl.
    rewrite lookup_insert_ne by discriminate. rewrite lookup_insert_eq. simpl.
    rewrite find_update, Hfind; [reflexivity|].
    intros r. unfold has_id. rewrite col_set_cols_other; [reflexivity|].
    destruct Hcases as [-> | [-> | ->]]; simpl; intuition discriminate.
  - eexists. split; [reflexivity|]. repeat split; reflexivity.
  - reflexivity.
Qed.

(** A bump that does not answer [success: true] has changed nothing. *)
Lemma bump_refused_unchanged id now h :
  field (body (post_bump id now h).1) "success" <> VBool true ->
  (post_bump id now h).2 = h.
Proof.
  unfold post_bump.
  destruct (find_row "kitchen_orders" (has_id id) (hub_db h)) as [order|]; [|reflexivity].
  destruct (next_status (col order "status")) as [[n|text]|]; try reflexivity.
  destruct (String.eqb n ""); [reflexivity|].
  unfold transaction, enqueue_stmt.
  match goal with |- context [sql_accepts ?t ?nm ?r] => destruct (sql_accepts t nm r) end;
    cbn [mbind result_bind fst snd]; [|reflexivity].
  intros Hn. exfalso. apply Hn. reflexivity.
Qed.


End KitchenProperties.


(** Three bumps walk a PENDING order to COMPLETED, each adding one outbox
    row and one broadcast; the fourth is refused and adds nothing. *)
Example four_bumps :
  let b1 := post_bump (H := demo_runtime) "k1" "12:01" (demo_kitchen_hub "PENDING") in
  let b2 := post_bump (H := demo_runtime) "k1" "12:02" b1.2 in
  let b3 := post_bump (H := demo_runtime) "k1" "12:03" b2.2 in
  let b4 := post_bump (H := demo_runtime) "k1" "12:04" b3.2 in
  let order_of (o : Reply * Hub) :=
    find_row "kitchen_orders" (has_id "k1") (hub_db o.2) in
  let cell c (o : Reply * Hub) := option_map (fun r => col r c) (order_of o) in
  map (cell "status") [b1; b2; b3; b4]
    = map (fun s => Some (VStr s)) ["PREPARING"; "READY"; "COMPLETED"; "COMPLETED"] /\
  cell "fired_at" b4 = Some (VStr "12:01") /\
  cell "completed_at" b4 = Some (VStr "12:03") /\
  map (fun o : Reply * Hub => field (body o.1) "success") [b1; b2; b3; b4]
    = [VBool true; VBool true; VBool true; VBool false] /\
  map (fun o : Reply * Hub => length (outbox_queue (hub_db o.2))) [b1; b2; b3; b4]
    = [1; 2; 3; 3]%nat /\
  map (fun o : Reply * Hub => length (broadcasts o.2)) [b1; b2; b3; b4] = [1; 2; 3; 3]%nat /\
  b4.2 = b3.2.
Proof. vm_compute. repeat split; reflexivity. Qed.

(** A status that names an inherited method is truthy in [statusFlow]: the
    bump throws at the bind and is answered 500, with nothing changed. *)
Example bump_from_inherited_status :
  let out := post_bump (H := demo_runtime) "k1" "12:01" (demo_kitchen_hub "constructor") in
  code out.1 = 500 /\ out.2 = demo_kitchen_hub "constructor".
Proof. vm_compute. split; reflexivity. Qed.

Lemma receipt_numbers_contiguous_witness :
  (receipt_calls ["2026-11-01T09:00:00.000Z"; "2026-11-01T09:00:01.000Z";
                  "2026-11-01T23:59:59.999Z"] empty_db).1
  = ["20261101-0001"; "20261101-0002"; "20261101-0003"] /\
  List.NoDup (receipt_calls ["2026-11-01T09:00:00.000Z"; "2026-11-01T09:00:01.000Z";
                             "2026-11-01T23:59:59.999Z"] empty_db).1.
Proof.
  destruct (receipt_numbers_contiguous "20261101"
              ["2026-11-01T09:00:00.000Z"; "2026-11-01T09:00:01.000Z";
               "2026-11-01T23:59:59.999Z"] empty_db) as (Hres & _ & Hnd & _).
  - repeat constructor.
  - reflexivity.
  - split; [exact Hres|exact Hnd].
Defined.

(** The ten-thousandth receipt of a day keeps all its digits. *)
Example receipt_format_examples :
  receipt_format "20261101" 1 = "20261101-0001" /\
  receipt_format "20261101" (Z.to_nat 9999) = "20261101-9999" /\
  receipt_format "20261101" (Z.to_nat 10000) = "20261101-10000".
Proof. repeat split; reflexivity. Qed.

(** Ten wrong PINs, then the right one: refused all the same. *)
Lemma pin_rate_limit_witness :
  code (post_auth_pin (H := demo_runtime) demo_cfg (demo_pin_request 1000 "1234")
          (serve_pins (H := demo_runtime) demo_cfg ten_wrong_pins demo_hub).2).1 = 429.
Proof.
  apply (@pin_rate_limit demo_runtime demo_cfg "10.0.0.5" ten_wrong_pins
           (demo_pin_request 1000 "1234") demo_hub (demo_pin_request 0 "0000")
           (map (fun t => demo_pin_request t "0000") [1; 2; 3; 4; 5; 6; 7; 8; 9])).
  - reflexivity.
  - reflexivity.
  - exact I.
  - repeat constructor.
  - reflexivity.
  - reflexivity.
Defined.

(** Without the ten attempts before it, the same request logs user u1 in. *)
Example pin_accepted_when_fresh :
  code (post_auth_pin (H := demo_runtime) demo_cfg (demo_pin_request 1000 "1234") demo_hub).1
  = 200.
Proof. reflexivity. Qed.

(** [pin.length] counts code units, not bytes: three accented letters are
    too short although they take six bytes, ten are accepted although they
    take twenty, and eleven are too long. *)
Example pin_length_in_code_units :
  String.length (e_acutes 3) = 6%nat /\ pin_malformed (Some (e_acutes 3)) = true /\
  String.length (e_acutes 10) = 20%nat /\ pin_malformed (Some (e_acutes 10)) = false /\
  pin_malformed (Some (e_acutes 11)) = true /\
  code (post_auth_pin (H := demo_runtime) demo_cfg
          (demo_pin_request 1000 (e_acutes 3)) demo_hub).1 = 400 /\
  code (post_auth_pin (H := demo_runtime) demo_cfg
          (demo_pin_request 1000 (e_acutes 10)) demo_hub).1 = 401.
Proof. repeat split; reflexivity. Qed.

Section SaleProperties.
Context `{Runtime}.

Lemma insert_row_spec name r db db' :
  insert_row name r db = Ok db' ->
  outbox_queue db' = outbox_queue db /\
  table (tables db') name = table (tables db) name ++ [r] /\
  (forall other, other <> name -> table (tables db') other = table (tables db) other).
Proof.
  unfold insert_row. destruct (sql_accepts (tables db) name r); [|discriminate].
  intros [= <-]. simpl. split; [reflexivity|]. split.
  - unfold table. rewrite lookup_insert_eq. reflexivity.
  - intros other Hne. unfold table. rewrite lookup_insert_ne by congruence. reflexivity.
Qed.

Lemma insert_each_spec name fp cells xs : forall k db db',
  insert_each name fp cells k xs db = Ok db' ->
  outbox_queue db' = outbox_queue db /\
  table (tables db') name =
    table (tables db) name ++ imap (fun i x => cells (k + i)%nat x) xs /\
  (forall other, other <> name -> table (tables db') other = table (tables db) other).
Proof.
  induction xs as [|x xs IH]; intros k db db'; simpl.
  - intros [= <-]. rewrite app_nil_r. tauto.
  - unfold mbind, result_bind.
    destruct (prop x fp); [|discriminate].
    destruct (insert_row name (cells k x) db) as [db1|] eqn:E1; [|discriminate].
    intros E2. apply insert_row_spec in E1 as (Ho1 & Ht1 & Hoth1).
    apply IH in E2 as (Ho2 & Ht2 & Hoth2).
    split; [congruence|]. split.
    + rewrite Ht2, Ht1, <- app_assoc. simpl. rewrite Nat.add_0_r. do 2 f_equal.
      apply imap_ext. intros i y _. simpl. f_equal. lia.
    + intros other Hne. rewrite Hoth2, Hoth1 by exact Hne. reflexivity.
Qed.

(** The sale route does what C1 asks of every mutating route.
    [POST /api/sales] either commits, and then the store
    has gained exactly the sale row, one row per item, one row per payment
    and one outbox row ([sale], the sale's id, [create], PENDING) and
    nothing else in those tables; or its transaction rolls back, and then
    the hub is exactly as it was: no business row and no outbox row. *)
Theorem sale_outbox_atomic (cfg : Config) (env : SaleEnv) (b : JsVal) (h : Hub) :
  let out := post_sales cfg env b h in
  let db := hub_db h in
  let db' := hub_db out.2 in
  match out.1 with
  | Ok ans =>
      exists items payments row,
        iterate (field b "items") = Ok items /\
        iterate (field b "payments") = Ok payments /\
        ans_id ans = sale_ids env 0%nat /\
        table (tables db') "sales" =
          table (tables db) "sales" ++
          [sale_cells cfg env (ans_id ans) (ans_receiptNumber ans) b] /\
        table (tables db') "sale_items" =
          table (tables db) "sale_items" ++
          imap (fun k item => sale_item_cells (sale_ids env (1 + k)%nat) (ans_id ans) item)
               items /\
        table (tables db') "payments" =
          table (tables db) "payments" ++
          imap (fun k p => payment_cells (sale_ids env (1 + length items + k)%nat)
                             (ans_id ans) (sale_now env) p)
               payments /\
        outbox_queue db' = outbox_queue db ++ [row] /\
        entity_type row = "sale" /\ entity_id row = ans_id ans /\
        action row = "create" /\ payload row = JSON_stringify b /\
        correlation_id row = Some (ans_id ans) /\ priority row = 10 /\
        status row = PENDING /\ attempts row = 0
  | Throw _ => out.2 = h
  end.
Proof.
  intros out db db'. subst out db db'. unfold post_sales, transaction.
  destruct (sale_tx cfg env b (hub_db h)) as [[ans dbf]|msg] eqn:E; simpl;
    [|apply hub_same_db].
  unfold sale_tx in E.
  destruct (nextReceiptNumber (sale_iso env) (hub_db h)) as [rn db0] eqn:Hrn.
  assert (H0 : outbox_queue db0 = outbox_queue (hub_db h) /\ tables db0 = tables (hub_db h)).
  { unfold nextReceiptNumber, bump_sequence in Hrn. injection Hrn as _ <-. split; reflexivity. }
  destruct H0 as [Ho0 Ht0].
  unfold mbind, result_bind in E.
  destruct (prop b "terminalId"); [|discriminate].
  destruct (insert_row "sales" _ db0) as [db1|] eqn:E1; [|discriminate].
  destruct (iterate (field b "items")) as [items|] eqn:Hitems; [|discriminate].
  destruct (insert_each "sale_items" _ _ _ items db1) as [db2|] eqn:E2; [|discriminate].
  destruct (iterate (field b "payments")) as [payments|] eqn:Hpay; [|discriminate].
  destruct (insert_each "payments" _ _ _ payments db2) as [db3|] eqn:E3; [|discriminate].
  unfold enqueue_stmt in E.
  destruct (sql_accepts (tables db3) "outbox_queue" _); [|discriminate].
  injection E as <- <-. simpl.
  apply insert_row_spec in E1 as (Ho1 & Ht1 & Hoth1).
  apply insert_each_spec in E2 as (Ho2 & Ht2 & Hoth2).
  apply insert_each_spec in E3 as (Ho3 & Ht3 & Hoth3).
  exists items, payments. eexists.
  split; [reflexivity|]. split; [reflexivity|]. split; [reflexivity|].
  split; [|split; [|split; [|split]]].
  - rewrite Hoth3, Hoth2 by discriminate. rewrite Ht1, Ht0. reflexivity.
  - rewrite Hoth3 by discriminate. rewrite Ht2, Hoth1 by discriminate.
    rewrite Ht0. reflexivity.
  - rewrite Ht3, Hoth2, Hoth1 by discriminate. rewrite Ht0. reflexivity.
  - rewrite Ho3, Ho2, Ho1, Ho0. reflexivity.
  - repeat split; reflexivity.
Qed.

End SaleProperties.

(** C1. Not every successful state-mutating request leaves an outbox row:
    the item-status route, whenever it answers 200, has rewritten the item
    (its [status] is the requested one) with bare UPDATE statements, and it
    never touches the outbox.  Its sibling, the bump route, enqueues one
    row per committed change ([bump_commits]), and so does the sale route
    ([sale_outbox_atomic]). *)
Theorem item_status_skips_outbox (orderId itemId new_status : string)
    (voidReason : option string) (now : string) (h : Hub) :
  let out := post_item_status orderId itemId new_status voidReason now h in
  outbox_queue (hub_db out.2) = outbox_queue (hub_db h) /\
  outbox_seq (hub_db out.2) = outbox_seq (hub_db h) /\
  (code out.1 = 200 ->
   exists item,
     find_row "kitchen_order_items" (has_id itemId) (hub_db out.2) = Some item /\
     col item "status" = VStr new_status).
Proof.
  intros out. subst out. unfold post_item_status.
  destruct (find_row "kitchen_order_items" _ (hub_db h)) as [found|] eqn:Hf;
    [|repeat split; try reflexivity; discriminate].
  split; [reflexivity|]. split; [reflexivity|]. intros _.
  assert (Hid : exists r0, List.find (has_id itemId)
                             (table (tables (hub_db h)) "kitchen_order_items") = Some r0).
  { unfold find_row in Hf. apply find_some in Hf as [Hin Hp].
    apply andb_prop in Hp as [Hp _].
    destruct (List.find (has_id itemId) (table (tables (hub_db h)) "kitchen_order_items"))
      as [r0|] eqn:E; [eauto|].
    apply (find_none _ _ E) in Hin. congruence. }
  destruct Hid as [r0 Hr0].
  set (cols := if String.eqb new_status "VOIDED" then _ else _).
  exists (set_cols cols r0). split.
  - unfold find_row, update_where, table in *. simpl. rewrite lookup_insert_eq. simpl.
    rewrite find_update, Hr0; [reflexivity|].
    intros r. unfold has_id. rewrite col_set_cols_other; [reflexivity|].
    unfold cols. destruct (String.eqb new_status "VOIDED"); simpl; intuition discriminate.
  - unfold cols. destruct (String.eqb_spec new_status "VOIDED") as [->|_];
      unfold set_cols, col; simpl;
      repeat first [rewrite lookup_insert_eq | rewrite lookup_insert_ne by discriminate];
      reflexivity.
Qed.

(** Marking kitchen order item i1 READY changes the item and leaves the
    outbox empty. *)
Example item_status_writes_no_outbox_row :
  let h := demo_kitchen_hub "PENDING" in
  let out := post_item_status "k1" "i1" "READY" None "2026-01-01 12:00:00" h in
  code out.1 = 200 /\
  option_map (fun r => col r "status")
    (find_row "kitchen_order_items" (has_id "i1") (hub_db h)) = Some (VStr "PENDING") /\
  option_map (fun r => col r "status")
    (find_row "kitchen_order_items" (has_id "i1") (hub_db out.2)) = Some (VStr "READY") /\
  outbox_queue (hub_db out.2) = [].
Proof. repeat split; reflexivity. Qed.

(** Scenario S1 on the demo runtime: one sale, one item, one payment, one
    outbox row; and the same request without the product name the schema
    requires rolls back and leaves nothing. *)
Example sale_commit_and_rollback :
  let good := post_sales (H := demo_runtime) demo_cfg demo_sale_env
                (demo_sale_body true) empty_hub in
  let bad := post_sales (H := demo_runtime) demo_cfg demo_sale_env
               (demo_sale_body false) empty_hub in
  (match good.1 with
   | Ok ans => ans_receiptNumber ans = "20261101-0001" /\ ans_status ans = "COMPLETED"
   | Throw _ => False
   end) /\
  map (fun t => length (table (tables (hub_db good.2)) t)) ["sales"; "sale_items"; "payments"]
    = [1; 1; 1]%nat /\
  map (fun r => (entity_type r, entity_id r, action r, priority r, status r))
      (outbox_queue (hub_db good.2)) = [("sale", "id0", "create", 10, PENDING)] /\
  (match bad.1 with Ok _ => False | Throw _ => True end) /\
  bad.2 = empty_hub.
Proof. vm_compute. repeat split; reflexivity. Qed.

Section PullProperties.
Context `{Runtime} `{EntityCodec}.
Variables (cfg : Config) (net : Net) (now : string).

Ltac break_match :=
  match goal with
  | |- context [match ?x with _ => _ end] => destruct x eqn:?
  end.

Lemma updateSyncState_other now' name n db k :
  k <> name -> sync_state (updateSyncState now' name n db) !! k = sync_state db !! k.
Proof. intros Hne. simpl. apply lookup_insert_ne. congruence. Qed.

Lemma updateSyncState_self now' name n db :
  exists s, sync_state (updateSyncState now' name n db) !! name = Some s /\
            sync_status s = "SUCCESS" /\ record_count s = n.
Proof. eexists. simpl. rewrite lookup_insert_eq. repeat split. Qed.

Lemma store_rows_frame e data rows db k :
  k <> e_name e ->
  sync_state (store_rows now e data rows db).2 !! k = sync_state db !! k.
Proof.
  intros Hne. unfold store_rows.
  repeat (break_match; simpl; try reflexivity);
    try (apply lookup_insert_ne; congruence).
Qed.

Lemma pull_listed_frame e db log k :
  k <> e_name e ->
  sync_state (pull_listed cfg net now e db log).1.2 !! k = sync_state db !! k.
Proof.
  intros Hne. unfold pull_listed.
  destruct (cloud_get cfg net (e_path e) (cursor_params e db) log) as [[res|msg] log'];
    [|reflexivity].
  assert (Hgo : forall data items,
    sync_state (match rows_of (e_name e) items with
                | Throw msg => (Throw msg, db, log')
                | Ok rows => let '(r, db') := store_rows now e data rows db in (r, db', log')
                end).1.2 !! k = sync_state db !! k).
  { intros data items. destruct (rows_of (e_name e) items) as [rows|]; [|reflexivity].
    pose proof (store_rows_frame e data rows db k Hne) as Hf.
    destruct (store_rows now e data rows db). exact Hf. }
  destruct (res_ok res); [apply Hgo|].
  destruct (e_fetch e); [destruct (res_status res =? 404); [apply Hgo|reflexivity]| |];
    [destruct (res_status res =? 404)|]; reflexivity.
Qed.

Lemma replace_row_spec name key r db db1 :
  replace_row name key r db = Ok db1 ->
  sync_state db1 = sync_state db /\
  (forall other, other <> name -> tables db1 !! other = tables db !! other).
Proof.
  unfold replace_row. destruct (sql_accepts (tables db) name r); [|discriminate].
  intros [= <-]. simpl. split; [reflexivity|].
  intros other Hne. apply lookup_insert_ne. congruence.
Qed.

Lemma terminal_turn_frame s t :
  sync_state (tl_db (terminal_turn cfg net s t)) = sync_state (tl_db s) /\
  (forall other, other <> "terminal_settings" ->
     tables (tl_db (terminal_turn cfg net s t)) !! other = tables (tl_db s) !! other).
Proof.
  unfold terminal_turn. destruct (tl_thrown s); [tauto|].
  destruct (cloud_get cfg net _ _ (tl_log s)) as [[res|?] log']; [|simpl; tauto].
  destruct (negb (res_ok res)); [simpl; tauto|].
  destruct (negb (truthy (res_data res)) || negb (truthy (field (res_data res) "id")));
    [simpl; tauto|].
  destruct (terminal_settings_cells (res_data res)) as [cells|]; [|simpl; tauto].
  destruct (replace_row "terminal_settings" "terminal_id" cells (tl_db s)) as [db1|] eqn:Er;
    [|simpl; tauto].
  simpl. apply replace_row_spec in Er. exact Er.
Qed.

Lemma terminal_fold_frame ts : forall s0,
  sync_state (tl_db (fold_left (terminal_turn cfg net) ts s0)) = sync_state (tl_db s0) /\
  (forall other, other <> "terminal_settings" ->
     tables (tl_db (fold_left (terminal_turn cfg net) ts s0)) !! other =
     tables (tl_db s0) !! other).
Proof.
  induction ts as [|t ts IH]; intros s0; cbn [fold_left]; [tauto|].
  destruct (IH (terminal_turn cfg net s0 t)) as [Hs Ht].
  destruct (terminal_turn_frame s0 t) as [Hs1 Ht1].
  split; [congruence|].
  intros other Hne. rewrite Ht, Ht1 by exact Hne. reflexivity.
Qed.

Lemma pull_entry_frame p db log k :
  k <> entry_name p ->
  sync_state (pull_entry cfg net now p db log).1.2 !! k = sync_state db !! k.
Proof.
  intros Hne. destruct p as [e| |]; simpl in *.
  - apply pull_listed_frame. exact Hne.
  - unfold pullLocationSettings.
    destruct (cloud_get cfg net _ _ log) as [[res|?] log']; [|reflexivity].
    destruct (negb (res_ok res)); [reflexivity|].
    destruct (negb (truthy (res_data res)) || negb (truthy (field (res_data res) "id")));
      [reflexivity|].
    destruct (replace_row _ _ _ db) as [db1|] eqn:Er; [|reflexivity].
    apply replace_row_spec in Er as [Hs _]. simpl.
    rewrite lookup_insert_ne by congruence. rewrite Hs. reflexivity.
  - unfold pullTerminalSettings.
    destruct (List.filter _ (table (tables db) "terminals")) as [|t ts] eqn:Et; [reflexivity|].
    match goal with |- context [fold_left ?f ?l ?a] =>
      destruct (terminal_fold_frame l a) as [Hs _]; destruct (tl_thrown (fold_left f l a))
    end; simpl in *.
    + rewrite Hs. reflexivity.
    + rewrite lookup_insert_ne by congruence. rewrite Hs. reflexivity.
Qed.

Lemma store_rows_entity e data rows db r :
  (store_rows now e data rows db).1 = Ok r -> entity r = e_name e.
Proof.
  unfold store_rows.
  repeat (break_match; simpl; try discriminate); intros [= <-]; reflexivity.
Qed.

(** Every handler answers under its own plan name. *)
Lemma pull_entry_entity p db log r :
  (pull_entry cfg net now p db log).1.1 = Ok r -> entity r = entry_name p.
Proof.
  destruct p as [e| |]; simpl.
  - unfold pull_listed.
    destruct (cloud_get cfg net (e_path e) (cursor_params e db) log) as [[res|msg] log'];
      [|discriminate].
    assert (Hgo : forall data items,
      (match rows_of (e_name e) items with
       | Throw msg => (Throw msg, db, log')
       | Ok rows => let '(r, db') := store_rows now e data rows db in (r, db', log')
       end).1.1 = Ok r -> entity r = e_name e).
    { intros data items. destruct (rows_of (e_name e) items) as [rows|]; [|discriminate].
      pose proof (store_rows_entity e data rows db r) as Hs.
      destruct (store_rows now e data rows db). exact Hs. }
    destruct (res_ok res); [apply Hgo|].
    destruct (e_fetch e); [destruct (res_status res =? 404); [apply Hgo|discriminate]| |];
      [destruct (res_status res =? 404)|]; simpl; intros [= <-]; reflexivity.
  - unfold pullLocationSettings.
    repeat (break_match; simpl; try discriminate); intros [= <-]; reflexivity.
  - unfold pullTerminalSettings.
    repeat (break_match; simpl; try discriminate); intros [= <-]; reflexivity.
Qed.

Lemma pull_turn_results st p :
  map entity (ps_results (pull_turn cfg net now st p)) =
  map entity (ps_results st) ++ [entry_name p].
Proof.
  unfold pull_turn.
  pose proof (pull_entry_entity p (ps_db st) (ps_log st)) as He.
  destruct (pull_entry cfg net now p (ps_db st) (ps_log st)) as [[[r|msg] db'] log'];
    simpl in *; rewrite map_app; simpl; [|reflexivity].
  rewrite (He r eq_refl). reflexivity.
Qed.

Lemma pull_fold_results entries : forall st,
  map entity (ps_results (fold_left (pull_turn cfg net now) entries st)) =
  map entity (ps_results st) ++ map entry_name entries.
Proof.
  induction entries as [|p rest IH]; intros st; simpl.
  - rewrite app_nil_r. reflexivity.
  - rewrite IH, pull_turn_results, <- app_assoc. reflexivity.
Qed.

Lemma pull_fold_frame entries k : forall st,
  ~ In k (map entry_name entries) ->
  sync_state (ps_db (fold_left (pull_turn cfg net now) entries st)) !! k =
  sync_state (ps_db st) !! k.
Proof.
  induction entries as [|p rest IH]; intros st Hn; simpl; [reflexivity|].
  simpl in Hn. rewrite IH by tauto.
  unfold pull_turn.
  pose proof (pull_entry_frame p (ps_db st) (ps_log st) k) as Hf.
  destruct (pull_entry cfg net now p (ps_db st) (ps_log st)) as [[r db'] log'].
  simpl in *. apply Hf. intros ->. tauto.
Qed.

End PullProperties.

Section PullIsolation.
Context `{Runtime} `{EntityCodec}.
Variables (cfg : Config) (net : Net) (now : string).

Ltac break_match :=
  match goal with
  | |- context [match ?x with _ => _ end] => destruct x eqn:?
  end.

Lemma plan_names_NoDup : List.NoDup (map entry_name plan).
Proof. apply NoDup_ListNoDup. apply (bool_decide_unpack _). vm_compute. reflexivity. Qed.

Lemma plan_paths_NoDup : List.NoDup (map entry_path plan).
Proof. apply NoDup_ListNoDup. apply (bool_decide_unpack _). vm_compute. reflexivity. Qed.

Lemma plan_checks p : In p plan -> plan_entry_checks p = true.
Proof.
  assert (Hall : forallb plan_entry_checks plan = true) by (vm_compute; reflexivity).
  rewrite forallb_forall in Hall. apply Hall.
Qed.

Lemma upsert_fold_other name rows other : forall acc : Z * Tables,
  other <> name ->
  (fold_left
     (fun (acc : Z * Tables) r =>
        if sql_accepts acc.2 name r
        then (acc.1 + 1, <[name := upsert_into "id" (table acc.2 name) r]> acc.2)
        else acc) rows acc).2 !! other = acc.2 !! other.
Proof.
  induction rows as [|r rows IH]; intros acc Hne; simpl; [reflexivity|].
  rewrite IH by exact Hne.
  destruct (sql_accepts acc.2 name r); simpl; [|reflexivity].
  apply lookup_insert_ne. congruence.
Qed.

Lemma upsertRows_other name rows columns (t : Tables) out other :
  other <> name -> upsertRows name rows columns t = Ok out -> out.2 !! other = t !! other.
Proof.
  intros Hne. unfold upsertRows. destruct rows as [|r rows]; [intros [= <-]; reflexivity|].
  destruct (sql_prepares name columns); [|discriminate].
  intros [= <-]. apply (upsert_fold_other name _ other (0, t) Hne).
Qed.

Lemma replace_fold_other name rows other : forall acc : Tables,
  other <> name ->
  fold_left
    (fun (acc : Tables) r =>
       if sql_accepts acc name r then <[name := table acc name ++ [r]]> acc else acc)
    rows acc !! other = acc !! other.
Proof.
  induction rows as [|r rows IH]; intros acc Hne; simpl; [reflexivity|].
  rewrite IH by exact Hne.
  destruct (sql_accepts acc name r); [|reflexivity].
  apply lookup_insert_ne. congruence.
Qed.

Lemma replaceTable_other name rows (t t' : Tables) other :
  other <> name -> replaceTable name rows t = Ok t' -> t' !! other = t !! other.
Proof.
  intros Hne. unfold replaceTable. destruct rows as [|r rows]; [intros [= <-]; reflexivity|].
  destruct (sql_can_clear t name); [|discriminate].
  intros [= <-]. transitivity ((<[name := []]> t) !! other).
  - apply (replace_fold_other name (r :: rows) other _ Hne).
  - apply lookup_insert_ne. congruence.
Qed.

(** What the write step of a handler leaves in other tables. *)
Lemma written_other e rows db c (t : Tables) other :
  other <> e_name e ->
  match e_write e with
  | Upsert =>
      ct ← upsertRows (e_name e) rows (e_columns e) (tables db); Ok (Some ct.1, ct.2)
  | ReplaceCountRows =>
      t ← replaceTable (e_name e) rows (tables db); Ok (Some (Z.of_nat (length rows)), t)
  | ReplaceCountUnbound => t ← replaceTable (e_name e) rows (tables db); Ok (None, t)
  end = Ok (c, t) ->
  t !! other = tables db !! other.
Proof.
  intros Hne. destruct (e_write e); unfold mbind, result_bind.
  - destruct (upsertRows (e_name e) rows (e_columns e) (tables db)) as [ct|] eqn:Eu;
      [|discriminate].
    intros [= _ <-]. eapply upsertRows_other; [exact Hne|exact Eu].
  - destruct (replaceTable (e_name e) rows (tables db)) as [t0|] eqn:Er; [|discriminate].
    intros [= _ <-]. eapply replaceTable_other; [exact Hne|exact Er].
  - destruct (replaceTable (e_name e) rows (tables db)) as [t0|] eqn:Er; [|discriminate].
    intros [= _ <-]. eapply replaceTable_other; [exact Hne|exact Er].
Qed.

Hypothesis Hkeep : side_writes_keep_terminals.

Lemma store_rows_terminals e data rows db :
  e_name e <> "terminals" ->
  tables (store_rows now e data rows db).2 !! "terminals" = tables db !! "terminals".
Proof.
  intros Hne. unfold store_rows.
  destruct (match e_write e with Upsert => _ | ReplaceCountRows => _ | ReplaceCountUnbound => _ end)
    as [[c t]|msg] eqn:Ew; [|reflexivity].
  apply written_other with (other := "terminals") in Ew; [|congruence].
  destruct (match e_side e with SideBefore => _ | _ => _ end) as [t2|msg] eqn:Es;
    [|exact Ew].
  assert (Ht2 : t2 !! "terminals" = t !! "terminals").
  { destruct (e_side e); try (injection Es as <-; reflexivity).
    apply (Hkeep _ _ _ _ Es). }
  destruct c as [n|]; simpl; [|congruence].
  destruct (e_side e); simpl; try congruence.
  destruct (side_writes (e_name e) data t2) as [t3|] eqn:Ea; simpl; [|congruence].
  rewrite (Hkeep _ _ _ _ Ea). congruence.
Qed.

Lemma pull_entry_terminals p db log :
  In p plan ->
  tables (pull_entry cfg net now p db log).1.2 !! "terminals" = tables db !! "terminals".
Proof.
  intros Hin. apply plan_checks in Hin. unfold plan_entry_checks in Hin.
  apply andb_true_iff in Hin as [Hin _]. apply andb_true_iff in Hin as [Hname _].
  apply negb_true_iff, String.eqb_neq in Hname.
  destruct p as [e| |]; simpl in *.
  - unfold pull_listed.
    destruct (cloud_get cfg net (e_path e) (cursor_params e db) log) as [[res|msg] log'];
      [|reflexivity].
    assert (Hgo : forall data items,
      tables (match rows_of (e_name e) items with
              | Throw msg => (Throw msg, db, log')
              | Ok rows => let '(r, db') := store_rows now e data rows db in (r, db', log')
              end).1.2 !! "terminals" = tables db !! "terminals").
    { intros data items. destruct (rows_of (e_name e) items) as [rows|]; [|reflexivity].
      pose proof (store_rows_terminals e data rows db Hname) as Hf.
      destruct (store_rows now e data rows db). exact Hf. }
    destruct (res_ok res); [apply Hgo|].
    destruct (e_fetch e); [destruct (res_status res =? 404); [apply Hgo|reflexivity]| |];
      [destruct (res_status res =? 404)|]; reflexivity.
  - unfold pullLocationSettings.
    destruct (cloud_get cfg net _ _ log) as [[res|?] log']; [|reflexivity].
    destruct (negb (res_ok res)); [reflexivity|].
    destruct (negb (truthy (res_data res)) || negb (truthy (field (res_data res) "id")));
      [reflexivity|].
    destruct (replace_row _ _ _ db) as [db1|] eqn:Er; [|reflexivity].
    apply replace_row_spec in Er as [_ Ht]. simpl. apply Ht. discriminate.
  - unfold pullTerminalSettings.
    destruct (List.filter _ (table (tables db) "terminals")) as [|t ts] eqn:Et; [reflexivity|].
    match goal with |- context [fold_left ?f ?l ?a] =>
      destruct (terminal_fold_frame cfg net l a) as [_ Ht];
      destruct (tl_thrown (fold_left f l a))
    end; simpl in *; apply Ht; discriminate.
Qed.

Lemma pull_fold_terminals entries : forall st,
  (forall p, In p entries -> In p plan) ->
  tables (ps_db (fold_left (pull_turn cfg net now) entries st)) !! "terminals" =
  tables (ps_db st) !! "terminals".
Proof.
  induction entries as [|p rest IH]; intros st Hsub; simpl; [reflexivity|].
  rewrite IH by (intros q Hq; apply Hsub; right; exact Hq).
  unfold pull_turn.
  pose proof (pull_entry_terminals p (ps_db st) (ps_log st) (Hsub p (or_introl eq_refl))) as Hf.
  destruct (pull_entry cfg net now p (ps_db st) (ps_log st)) as [[r db'] log'].
  exact Hf.
Qed.

Lemma store_rows_success e data rows db :
  reads_unbound_count (Listed e) = false ->
  storable (Listed e) ->
  exists s, sync_state (store_rows now e data rows db).2 !! e_name e = Some s /\
            sync_status s = "SUCCESS".
Proof.
  intros Hcount (Hprep & Hclear & Hside). unfold store_rows. simpl in Hcount.
  assert (Hw : exists n t,
    match e_write e with
    | Upsert =>
        ct ← upsertRows (e_name e) rows (e_columns e) (tables db); Ok (Some ct.1, ct.2)
    | ReplaceCountRows =>
        t ← replaceTable (e_name e) rows (tables db); Ok (Some (Z.of_nat (length rows)), t)
    | ReplaceCountUnbound => t ← replaceTable (e_name e) rows (tables db); Ok (None, t)
    end = Ok (Some n, t)).
  { destruct (e_write e) eqn:Ew; [| |discriminate].
    - unfold upsertRows. destruct rows as [|r rows]; [simpl; eauto|].
      rewrite Hprep. simpl. eauto.
    - unfold replaceTable. destruct rows as [|r rows]; [simpl; eauto|].
      rewrite Hclear by discriminate. simpl. eauto. }
  destruct Hw as (n & t & ->).
  assert (Hs : exists t2,
    match e_side e with SideBefore => side_writes (e_name e) data t | _ => Ok t end = Ok t2).
  { destruct (e_side e) eqn:Es; eauto; apply Hside; discriminate. }
  destruct Hs as (t2 & ->).
  destruct (e_side e) eqn:Es; simpl;
    try (eexists; rewrite lookup_insert_eq; split; reflexivity).
  match goal with |- context [side_writes ?a ?b ?c] =>
    destruct (Hside ltac:(discriminate) b c) as (t3 & ->) end.
  simpl. eexists. rewrite lookup_insert_eq. split; reflexivity.
Qed.

Lemma terminal_fold_ok ts : forall s0,
  URL_ok (entry_path TerminalSettings) (baseUrl cfg) = true ->
  (forall lg rq, req_path rq = entry_path TerminalSettings ->
     digestible TerminalSettings (net lg rq)) ->
  storable TerminalSettings ->
  tl_thrown s0 = None ->
  tl_thrown (fold_left (terminal_turn cfg net) ts s0) = None.
Proof.
  induction ts as [|t ts IH]; intros s0 Hu Hgood Hacc Hs0; cbn [fold_left]; [exact Hs0|].
  apply IH; try assumption.
  simpl in Hu. unfold terminal_turn, cloud_get, cloud_call. rewrite Hs0. simpl. rewrite Hu.
  match goal with |- context [net ?lg ?rq] =>
    destruct (Hgood lg rq eq_refl) as (Hok & Hd & Hid & Hlow) end.
  rewrite Hok, Hd, Hid. simpl.
  unfold terminal_settings_cells.
  destruct (field (res_data (envelope_of _)) "cartPosition"); try discriminate Hlow;
    simpl; unfold replace_row; rewrite Hacc; reflexivity.
Qed.

Lemma pull_entry_success p db log :
  URL_ok (entry_path p) (baseUrl cfg) = true ->
  reads_unbound_count p = false ->
  (forall lg rq, req_path rq = entry_path p -> digestible p (net lg rq)) ->
  storable p ->
  (p = TerminalSettings -> location_terminals cfg db <> []) ->
  exists s, sync_state (pull_entry cfg net now p db log).1.2 !! entry_name p = Some s /\
            sync_status s = "SUCCESS".
Proof.
  intros Hu Hcount Hgood Hst Hterm.
  destruct p as [e| |]; simpl in *.
  - unfold pull_listed, cloud_get, cloud_call. simpl. rewrite Hu. simpl.
    match goal with |- context [net ?lg ?rq] =>
      destruct (Hgood lg rq eq_refl) as (Hok & Hitems) end.
    rewrite Hok. unfold rows_of. rewrite Hitems.
    match goal with |- context [store_rows now e ?d ?r ?b] =>
      pose proof (store_rows_success e d r b Hcount Hst) as Hs;
      destruct (store_rows now e d r b) end.
    exact Hs.
  - unfold pullLocationSettings, cloud_get, cloud_call. simpl. rewrite Hu. simpl.
    match goal with |- context [net ?lg ?rq] =>
      destruct (Hgood lg rq eq_refl) as (Hok & Hd & Hid) end.
    rewrite Hok, Hd, Hid. simpl.
    unfold replace_row. rewrite Hst. simpl.
    eexists. rewrite lookup_insert_eq. split; reflexivity.
  - unfold pullTerminalSettings. specialize (Hterm eq_refl).
    unfold location_terminals in Hterm.
    destruct (List.filter _ (table (tables db) "terminals")) as [|t ts]; [congruence|].
    match goal with |- context [fold_left ?f ?l ?a] =>
      rewrite (terminal_fold_ok l a Hu Hgood Hst eq_refl) end.
    simpl. eexists. rewrite lookup_insert_eq. split; reflexivity.
Qed.

(** What the failing entity's turn appends to the results when the cloud
    answers it with HTTP 500. *)
Lemma pull_turn_failure p st :
  In p plan -> p <> TerminalSettings ->
  URL_ok (entry_path p) (baseUrl cfg) = true ->
  answers_with net 500 (entry_path p) ->
  ps_results (pull_turn cfg net now st p) =
  ps_results st ++ [{| entity := entry_name p; pulled := 0; errors := ["HTTP 500"] |}].
Proof.
  intros Hin Hnt Hu Hbad.
  pose proof (plan_checks p Hin) as Hchk.
  unfold pull_turn. destruct p as [e| |]; simpl in *; [| |congruence].
  - unfold pull_listed, cloud_get, cloud_call. simpl. rewrite Hu. simpl.
    match goal with |- context [net ?lg ?rq] =>
      destruct (Hbad lg rq eq_refl) as (bd & -> & Hnb) end.
    destruct bd as [|v|m]; [| |destruct (Hnb m); reflexivity]; simpl;
      destruct (e_fetch e); reflexivity.
  - unfold pullLocationSettings, cloud_get, cloud_call. simpl. rewrite Hu. simpl.
    match goal with |- context [net ?lg ?rq] =>
      destruct (Hbad lg rq eq_refl) as (bd & -> & Hnb) end.
    destruct bd as [|v|m]; [| |destruct (Hnb m); reflexivity]; reflexivity.
Qed.

(** And when its handler throws: the [catch] of the cycle records the
    message. *)
Lemma pull_turn_throw p st :
  handler_throws cfg net now p ->
  exists msg,
    ps_results (pull_turn cfg net now st p) =
    ps_results st ++ [{| entity := entry_name p; pulled := 0; errors := [msg] |}].
Proof.
  intros Hthrow. unfold pull_turn.
  destruct (Hthrow (ps_db st) (ps_log st)) as (msg & Hmsg).
  destruct (pull_entry cfg net now p (ps_db st) (ps_log st)) as [[r db'] log'].
  simpl in Hmsg. subst r. exists msg. reflexivity.
Qed.

Lemma pull_fold_prefix entries : forall st,
  exists more,
    ps_results (fold_left (pull_turn cfg net now) entries st) = ps_results st ++ more.
Proof.
  induction entries as [|p rest IH]; intros st; simpl.
  - exists []. rewrite app_nil_r. reflexivity.
  - destruct (IH (pull_turn cfg net now st p)) as (more & ->).
    assert (Hone : exists x, ps_results (pull_turn cfg net now st p) = ps_results st ++ [x]).
    { unfold pull_turn.
      destruct (pull_entry cfg net now p (ps_db st) (ps_log st)) as [[r db'] log'].
      simpl. eauto. }
    destruct Hone as (x & ->). rewrite <- app_assoc. eauto.
Qed.

Variable bad : PlanEntry.
Hypothesis Hconf : isConfigured cfg = true.
Hypothesis Hurl : forall p, In p plan -> p <> bad ->
  URL_ok (entry_path p) (baseUrl cfg) = true.
Hypothesis Hgood : forall p, In p plan -> p <> bad ->
  forall lg rq, req_path rq = entry_path p -> digestible p (net lg rq).

Lemma location_terminals_same db1 db2 :
  tables db1 !! "terminals" = tables db2 !! "terminals" ->
  location_terminals cfg db1 = location_terminals cfg db2.
Proof. unfold location_terminals, table. intros ->. reflexivity. Qed.

Lemma fold_success entries : forall st p,
  (forall q, In q entries -> In q plan) ->
  List.NoDup (map entry_name entries) ->
  In p entries -> p <> bad -> entry_name p <> "pizza_cheese_prices" ->
  storable p ->
  (p = TerminalSettings -> location_terminals cfg (ps_db st) <> []) ->
  exists s,
    sync_state (ps_db (fold_left (pull_turn cfg net now) entries st)) !! entry_name p = Some s /\
    sync_status s = "SUCCESS".
Proof.
  induction entries as [|q rest IH]; intros st p Hsub Hnd Hin Hpb Hcheese Hst Hterm;
    [destruct Hin|].
  inversion Hnd as [|? ? Hq Hrest]; subst. cbn [fold_left].
  assert (Hq_plan : In q plan) by (apply Hsub; left; reflexivity).
  assert (Hdb : ps_db (pull_turn cfg net now st q) =
                (pull_entry cfg net now q (ps_db st) (ps_log st)).1.2).
  { unfold pull_turn.
    destruct (pull_entry cfg net now q (ps_db st) (ps_log st)) as [[r db'] log']. reflexivity. }
  destruct Hin as [->|Hin].
  - rewrite pull_fold_frame by exact Hq. rewrite Hdb.
    apply pull_entry_success; try assumption.
    + apply Hurl; assumption.
    + pose proof (plan_checks p Hq_plan) as Hchk. unfold plan_entry_checks in Hchk.
      apply andb_true_iff in Hchk as [Hchk _]. apply andb_true_iff in Hchk as [_ Hchk].
      apply orb_true_iff in Hchk as [Hchk|Hchk].
      * apply negb_true_iff in Hchk. exact Hchk.
      * apply String.eqb_eq in Hchk. contradiction.
    + apply Hgood; assumption.
  - apply IH; try assumption.
    + intros q' Hq'. apply Hsub. right. exact Hq'.
    + intros Hp. rewrite (location_terminals_same _ (ps_db st)); [exact (Hterm Hp)|].
      rewrite Hdb. apply pull_entry_terminals. exact Hq_plan.
Qed.

Lemma fold_records entries r : forall st,
  In bad entries ->
  (forall st, ps_results (pull_turn cfg net now st bad) = ps_results st ++ [r]) ->
  In r (ps_results (fold_left (pull_turn cfg net now) entries st)).
Proof.
  induction entries as [|q rest IH]; intros st Hin Hturn; [destruct Hin|].
  cbn [fold_left]. destruct Hin as [->|Hin].
  - destruct (pull_fold_prefix rest (pull_turn cfg net now st bad)) as (more & ->).
    rewrite Hturn. apply in_or_app. left. apply in_or_app. right. left. reflexivity.
  - apply IH; assumption.
Qed.

Lemma fold_throws entries : forall st,
  In bad entries ->
  handler_throws cfg net now bad ->
  exists msg,
    In {| entity := entry_name bad; pulled := 0; errors := [msg] |}
       (ps_results (fold_left (pull_turn cfg net now) entries st)).
Proof.
  induction entries as [|q rest IH]; intros st Hin Hthrow; [destruct Hin|].
  cbn [fold_left]. destruct Hin as [->|Hin].
  - destruct (pull_turn_throw bad st Hthrow) as (msg & Hres). exists msg.
    destruct (pull_fold_prefix rest (pull_turn cfg net now st bad)) as (more & ->).
    rewrite Hres. apply in_or_app. left. apply in_or_app. right. left. reflexivity.
  - apply IH; assumption.
Qed.


End PullIsolation.

Section PullNotFound.
Context `{Runtime} `{EntityCodec}.
Variables (cfg : Config) (net : Net) (now : string).

Lemma with_tables_same db : with_tables (fun _ => tables db) db = db.
Proof. destruct db; reflexivity. Qed.

(** C4, what the code does.  On HTTP 404 a handler that goes through
    [fetchAndTransform] stores nothing, reports zero pulled with no error
    and marks the entity synced; a handler with the explicit 404 guard
    reports zero pulled with no error and touches nothing; a handler
    without the guard (products, users, deals, ...) reports the 404 in its
    error list. *)
Theorem pull_404_by_fetch_style (e : EntityPlan) (db : Db) (log : list Request) :
  In (Listed e) plan ->
  URL_ok (e_path e) (baseUrl cfg) = true ->
  answers_with net 404 (e_path e) ->
  let out := pull_listed cfg net now e db log in
  match e_fetch e with
  | ViaFetchAndTransform =>
      out.1.1 = Ok {| entity := e_name e; pulled := 0; errors := [] |} /\
      out.1.2 = updateSyncState now (e_name e) 0 db
  | DirectTolerant =>
      out.1.1 = Ok {| entity := e_name e; pulled := 0; errors := [] |} /\ out.1.2 = db
  | DirectStrict =>
      out.1.1 = Ok {| entity := e_name e; pulled := 0; errors := ["HTTP 404"] |} /\
      out.1.2 = db
  end.
Proof.
  intros Hin Hu Hnet out. subst out.
  apply (plan_checks (Listed e)) in Hin. unfold plan_entry_checks in Hin.
  apply andb_true_iff in Hin as [_ Hshape].
  unfold pull_listed, cloud_get, cloud_call. simpl. rewrite Hu. simpl.
  match goal with |- context [net ?lg ?rq] =>
    destruct (Hnet lg rq eq_refl) as (bd & -> & Hnb) end.
  destruct bd as [|v|m]; [| |destruct (Hnb m); reflexivity]; simpl;
    destruct (e_fetch e); simpl; try (split; reflexivity);
    unfold store_rows;
    destruct (e_write e); try discriminate; destruct (e_side e); try discriminate;
    simpl; rewrite with_tables_same; split; reflexivity.
Qed.

End PullNotFound.

Lemma pull_404_by_fetch_style_witness :
  let out := pull_listed (H := demo_runtime) (H0 := demo_codec) demo_cfg
               (net_missing "/api/hub/sync/products") "2026-01-01 10:00:00"
               products_plan empty_db [] in
  out.1.1 = Ok {| entity := "products"; pulled := 0; errors := ["HTTP 404"] |} /\
  out.1.2 = empty_db.
Proof.
  apply (@pull_404_by_fetch_style demo_runtime demo_codec demo_cfg
           (net_missing "/api/hub/sync/products") "2026-01-01 10:00:00"
           products_plan empty_db []).
  - right. left. reflexivity.
  - reflexivity.
  - intros lg rq Hp. exists NotJson. unfold net_missing. rewrite Hp.
    split; [reflexivity|discriminate].
Defined.

(** The handlers that report a 404 as an error, and a whole cycle against a
    cloud that lacks the products endpoint: the products result carries the
    error, products is not marked synced, and the cycle goes on to the
    remaining entities. *)
Example strict_handlers :
  map entry_name (List.filter is_strict plan) =
  ["products"; "discount_templates"; "gift_cards"; "coupon_codes"; "deals"; "users";
   "location_settings"; "terminal_settings"; "floors"; "areas"; "tables"; "courses"].
Proof. vm_compute. reflexivity. Qed.

Example cycle_with_products_missing :
  let out := runFullSync (H := demo_runtime) (H0 := demo_codec) demo_cfg
               (net_missing "/api/hub/sync/products") "2026-01-01 10:00:00"
               {| pull_running := false |} db_with_terminal [] in
  length out.1.1.1 = 53%nat /\
  result_of "products" out.1.1.1 =
    Some {| entity := "products"; pulled := 0; errors := ["HTTP 404"] |} /\
  status_of "products" out.1.2 = None /\
  status_of "product_variants" out.1.2 = Some "SUCCESS" /\
  status_of "sale_items" out.1.2 = Some "SUCCESS".
Proof. vm_compute. repeat split; reflexivity. Qed.


(** Against a cloud that treats one path of the plan in its own way and
    answers every other with a small well-formed object, every other
    entity of the plan gets a digestible answer. *)
Lemma others_digestible (net : Net) (bad : PlanEntry) :
  In bad plan ->
  (forall lg rq, req_path rq <> entry_path bad ->
     net lg rq = Http 200 (JsonBody (VObj [("id", VStr "x1"); ("items", VArr [])]))) ->
  forall p, In p plan -> p <> bad ->
  forall lg rq, req_path rq = entry_path p -> digestible p (net lg rq).
Proof.
  intros Hbad Hnet p Hin Hne lg rq Hp.
  rewrite Hnet.
  - destruct p; repeat split; reflexivity.
  - rewrite Hp. intros Heq. apply Hne.
    eapply NoDup_map_eq; [apply plan_paths_NoDup| | |exact Heq]; assumption.
Qed.


(** A terminal whose settings carry a number as [cartPosition] makes the
    handler throw at [toLowerCase]: the row written for the terminal
    before it stays, the entity is not marked synced, and the cycle
    records the message and goes on. *)
Example terminal_settings_throw_midway :
  let db := with_tables (fun _ => {["terminals" :=
              [list_to_map [("id", VStr "term1"); ("location_id", VStr "loc1")];
               list_to_map [("id", VStr "term2"); ("location_id", VStr "loc1")]]]})
              empty_db in
  let net : Net := fun _ rq =>
    if decide (req_params rq = [("terminalId", "term2")])
    then Http 200 (JsonBody (VObj [("id", VStr "term2"); ("cartPosition", VNum 1)]))
    else Http 200 (JsonBody (VObj [("id", VStr "term1"); ("items", VArr [])])) in
  let out := pullTerminalSettings (H := demo_runtime) demo_cfg net "2026-01-01 10:00:00"
               db [] in
  out.1.1 = Throw "data.cartPosition?.toLowerCase is not a function" /\
  map (fun r => col r "terminal_id") (table (tables out.1.2) "terminal_settings")
    = [VStr "term1"] /\
  status_of "terminal_settings" out.1.2 = None /\
  length out.2 = 2%nat.
Proof. vm_compute. repeat split; reflexivity. Qed.

(** A table that lacks a listed column: the upsert statement does not
    compile, the handler throws before any row is written and the entity
    is not marked synced; with no rows to store nothing is prepared. *)
Example upsert_prepare_fails :
  let rt : Runtime :=
    {| JSON_stringify := fun _ => "{}"; JSON_parse := fun _ => None;
       URL_ok := fun _ _ => true; bcrypt_compare := fun _ _ => None;
       bcrypt_hashSync := fun p => p; sql_accepts := fun _ _ _ => true;
       sql_can_clear := fun _ _ => true;
       sql_prepares := fun name _ => negb (String.eqb name "deals");
       toLowerCase := fun s => s |} in
  let row : Row := {["id" := VStr "d1"]} in
  (exists msg, upsertRows (H := rt) "deals" [row] ["id"; "description"] ∅ = Throw msg) /\
  upsertRows (H := rt) "deals" [] ["id"; "description"] ∅ = Ok (0, ∅) /\
  option_map (fun ct : Z * Tables => (ct.1, map (fun r => col r "name") (table ct.2 "floors")))
    (match upsertRows (H := rt) "floors" [row] ["id"; "name"]
             {["floors" := [{["id" := VStr "d1"; "name" := VStr "old"]}]]} with
     | Ok ct => Some ct | Throw _ => None end)
    = Some (1, [VNull]).
Proof. vm_compute. repeat split; eauto. Qed.

Section PushCycle.
Context `{Runtime}.
Variables (cfg : Config) (net : Net) (now : string).

Lemma apply_outcome_identity o r :
  outbox_identity (apply_outcome now o r) = outbox_identity r.
Proof. destruct o; reflexivity. Qed.

Lemma turned_identity items l l' :
  Forall2 (turned cfg net now items) l l' ->
  map outbox_identity l' = map outbox_identity l.
Proof.
  induction 1 as [|a b l l' Hab _ IH]; simpl; [reflexivity|].
  rewrite IH. f_equal.
  destruct Hab as [[_ ->]|[_ [lg ->]]]; [reflexivity|apply apply_outcome_identity].
Qed.

Lemma fold_rest items : forall st,
  let st' := fold_left (process_item cfg net now) items st in
  outbox_seq (p_db st') = outbox_seq (p_db st) /\
  order_sequence (p_db st') = order_sequence (p_db st) /\
  sync_state (p_db st') = sync_state (p_db st) /\
  tables (p_db st') = tables (p_db st).
Proof.
  induction items as [|it rest IH]; intros st; simpl; [tauto|].
  destruct (IH (process_item cfg net now st it)) as (-> & -> & -> & ->).
  rewrite process_item_spec. simpl. tauto.
Qed.

(** X1. A push cycle never adds, deletes or reorders outbox rows and never
    rewrites what a row carries (id, entity, action, payload, correlation
    id, priority, attempt limit, creation time); a row outside the selected
    batch, and so every row that is not PENDING or is out of attempts, is
    left exactly as it was; and nothing but the outbox is written. *)
Theorem push_keeps_rows (batch : Z) (eng : PushSyncEngine) (db : Db)
    (log : list Request) :
  List.NoDup (map item_id (outbox_queue db)) ->
  let db' := (processOutbox cfg net now batch eng db log).1.2 in
  map outbox_identity (outbox_queue db') = map outbox_identity (outbox_queue db) /\
  Forall2 (fun a b => ~ In a (select_pending batch db) -> b = a)
    (outbox_queue db) (outbox_queue db') /\
  Forall2 (fun a b => eligible a = false -> b = a)
    (outbox_queue db) (outbox_queue db') /\
  outbox_seq db' = outbox_seq db /\ order_sequence db' = order_sequence db /\
  sync_state db' = sync_state db /\ tables db' = tables db.
Proof.
  intros Hnd db'.
  assert (Hsame : db' = db ->
    map outbox_identity (outbox_queue db') = map outbox_identity (outbox_queue db) /\
    Forall2 (fun a b => ~ In a (select_pending batch db) -> b = a)
      (outbox_queue db) (outbox_queue db') /\
    Forall2 (fun a b => eligible a = false -> b = a)
      (outbox_queue db) (outbox_queue db') /\
    outbox_seq db' = outbox_seq db /\ order_sequence db' = order_sequence db /\
    sync_state db' = sync_state db /\ tables db' = tables db).
  { intros ->. repeat split; try reflexivity;
      apply Forall2_same_length_lookup_2; try done; intros; congruence. }
  subst db'. unfold processOutbox in *.
  destruct (running eng); [apply Hsame; reflexivity|].
  destruct (isConfigured cfg) eqn:Hc; simpl in *; [|apply Hsame; reflexivity].
  clear Hsame.
  pose proof (processOutbox_turns cfg net now batch db log Hc Hnd) as HT.
  unfold processOutbox in HT. simpl in HT. rewrite Hc in HT. simpl in HT.
  split; [eapply turned_identity; exact HT|].
  split; [|split].
  - eapply Forall2_impl; [exact HT|].
    intros a b [[_ ->]|[Hin _]] Hn; [reflexivity|tauto].
  - eapply Forall2_impl; [exact HT|].
    intros a b [[_ ->]|[Hin _]] Hn; [reflexivity|].
    apply select_pending_In in Hin. destruct Hin as [_ Hin]. congruence.
  - apply (fold_rest (select_pending batch db)
             {| p_db := db; p_log := log; p_result := no_result |}).
Qed.

(** X2. A push cycle leaves no row in PROCESSING that was not already
    there, raises a row's attempt counter by at most one, and never takes
    it past the row's attempt limit. *)
Theorem push_cycle_invariants (batch : Z) (eng : PushSyncEngine) (db : Db)
    (log : list Request) :
  List.NoDup (map item_id (outbox_queue db)) ->
  let db' := (processOutbox cfg net now batch eng db log).1.2 in
  Forall2 (fun a b =>
             (status b = PROCESSING -> b = a) /\
             attempts a <= attempts b <= attempts a + 1 /\
             (attempts a <= max_attempts a -> attempts b <= max_attempts b))
    (outbox_queue db) (outbox_queue db').
Proof.
  intros Hnd db'. subst db'. unfold processOutbox.
  assert (Hsame : Forall2 (fun a b =>
             (status b = PROCESSING -> b = a) /\
             attempts a <= attempts b <= attempts a + 1 /\
             (attempts a <= max_attempts a -> attempts b <= max_attempts b))
    (outbox_queue db) (outbox_queue db)).
  { apply Forall2_same_length_lookup_2; [done|].
    intros i a b Ha Hb. assert (b = a) by congruence. subst b.
    split; [done|]. split; [lia|done]. }
  destruct (running eng); [exact Hsame|].
  destruct (isConfigured cfg) eqn:Hc; simpl; [|exact Hsame]. clear Hsame.
  pose proof (processOutbox_turns cfg net now batch db log Hc Hnd) as HT.
  unfold processOutbox in HT. simpl in HT. rewrite Hc in HT. simpl in HT.
  eapply Forall2_impl; [exact HT|].
  intros a b [[_ ->]|[Hin [lg ->]]].
  - split; [done|]. split; [lia|done].
  - apply select_pending_In in Hin. destruct Hin as [_ Hel].
    unfold eligible in Hel. destruct (status a); try discriminate.
    apply Z.ltb_lt in Hel.
    destruct (decide_outcome cfg net lg a).1; simpl;
      (split; [discriminate|]); (split; [lia|]); intros _; lia.
Qed.

Lemma process_item_counts st it :
  let r := p_result st in
  let r' := p_result (process_item cfg net now st it) in
  processed r' = processed r + 1 /\
  succeeded r' + failed r' + deadLettered r' =
    succeeded r + failed r + deadLettered r + 1 /\
  succeeded r <= succeeded r' /\ failed r <= failed r' /\
  deadLettered r <= deadLettered r'.
Proof.
  unfold process_item.
  destruct (endpoint_of (entity_type it)); simpl; [|lia].
  destruct (JSON_parse (payload it)); simpl; [|lia].
  destruct (cloud_post cfg net _ _ (p_log st)) as [[res|msg] log']; simpl; [|lia].
  unfold settle.
  destruct (res_ok res); simpl; [lia|].
  destruct (res_status res =? 409); simpl; [lia|].
  destruct ((400 <=? res_status res) && (res_status res <? 500)); simpl; [lia|].
  destruct (max_attempts it <=? attempts it + 1); simpl; lia.
Qed.

Lemma fold_counts items : forall st,
  let r := p_result st in
  let r' := p_result (fold_left (process_item cfg net now) items st) in
  processed r' = processed r + Z.of_nat (length items) /\
  succeeded r' + failed r' + deadLettered r' =
    succeeded r + failed r + deadLettered r + Z.of_nat (length items) /\
  succeeded r <= succeeded r' /\ failed r <= failed r' /\
  deadLettered r <= deadLettered r'.
Proof.
  induction items as [|it rest IH]; intros st; simpl; [lia|].
  specialize (IH (process_item cfg net now st it)).
  pose proof (process_item_counts st it) as Hs. simpl in *. lia.
Qed.

Lemma limit_length {A} n (l : list A) :
  0 <= n -> Z.of_nat (length (limit n l)) <= n.
Proof.
  intros Hn. unfold limit. destruct (n <? 0) eqn:E; [apply Z.ltb_lt in E; lia|].
  rewrite length_take. lia.
Qed.

(** X3. The counters a push cycle returns add up: [processed] is the
    number of rows selected, every selected row is counted exactly once as
    succeeded, failed or dead-lettered, and with a batch size of at least
    zero no more than that many rows are processed. *)
Theorem push_counters (batch : Z) (db : Db) (log : list Request) :
  isConfigured cfg = true ->
  let res := (processOutbox cfg net now batch {| running := false |} db log).1.1.1 in
  processed res = Z.of_nat (length (select_pending batch db)) /\
  processed res = succeeded res + failed res + deadLettered res /\
  0 <= succeeded res /\ 0 <= failed res /\ 0 <= deadLettered res /\
  (0 <= batch -> processed res <= batch).
Proof.
  intros Hc res. subst res. unfold processOutbox. simpl. rewrite Hc. simpl.
  pose proof (fold_counts (select_pending batch db)
                {| p_db := db; p_log := log; p_result := no_result |}) as Hf.
  simpl in Hf.
  assert (Hl : 0 <= batch -> Z.of_nat (length (select_pending batch db)) <= batch).
  { intros Hb. apply limit_length. exact Hb. }
  repeat split; lia.
Qed.

End PushCycle.

Section PushAnswers.
Context `{Runtime}.
Variables (cfg : Config) (net : Net) (now : string).

(** A picked-up row is left as its own turn decided. *)
Lemma picked_row batch db log r :
  isConfigured cfg = true ->
  List.NoDup (map item_id (outbox_queue db)) ->
  In r (select_pending batch db) ->
  exists lg,
    find_item (item_id r)
      (processOutbox cfg net now batch {| running := false |} db log).1.2 =
    Some (apply_outcome now (decide_outcome cfg net lg r).1 r).
Proof.
  intros Hc Hnd Hsel.
  pose proof (select_pending_In _ _ _ Hsel) as [Hin _].
  destruct (processOutbox_row cfg net now batch db log r Hc Hnd Hin)
    as (Hnd' & _ & b & Hb & HT).
  destruct HT as [[Hn _]|[_ [lg ->]]]; [tauto|].
  exists lg.
  match type of Hb with In (apply_outcome now ?o r) _ =>
    rewrite <- (apply_outcome_id now o r) end.
  apply find_item_In; [exact Hnd'|exact Hb].
Qed.

(** X4. A picked-up row whose POST is answered with a 4xx status other
    than 409 is marked DEAD_LETTER at once, with the status in its error
    text, however many attempts it had left: client errors are never
    retried. *)
Theorem push_client_error_dead_letters (batch : Z) (db : Db) (log : list Request)
    (r : OutboxItem) (ep : string) (parsed : JsVal) (st : Z) :
  isConfigured cfg = true ->
  URL_ok ep (baseUrl cfg) = true ->
  pushEndpoints !! entity_type r = Some ep ->
  JSON_parse (payload r) = Some parsed ->
  400 <= st < 500 -> st <> 409 ->
  answers_with net st ep ->
  List.NoDup (map item_id (outbox_queue db)) ->
  In r (select_pending batch db) ->
  exists row,
    find_item (item_id r)
      (processOutbox cfg net now batch {| running := false |} db log).1.2 = Some row /\
    status row = DEAD_LETTER /\
    error row = Some ("HTTP " +:+ String_of_Z st +:+ ": Client error") /\
    attempts row = attempts r + 1 /\
    eligible row = false.
Proof.
  intros Hc Hurl Hep Hp Hst H409 Hnet Hnd Hsel.
  destruct (picked_row batch db log r Hc Hnd Hsel) as (lg & Hf).
  destruct (decide_answer cfg net st r ep parsed lg Hep Hp Hurl Hnet) as (d & Hd).
  rewrite Hd in Hf. eexists. split; [exact Hf|].
  unfold outcome_of_response. simpl.
  assert (E1 : http_ok st = false).
  { unfold http_ok. apply andb_false_iff. right. apply Z.leb_gt. lia. }
  assert (E2 : (st =? 409) = false) by (apply Z.eqb_neq; exact H409).
  assert (E3 : (400 <=? st) && (st <? 500) = true).
  { apply andb_true_iff. split; [apply Z.leb_le|apply Z.ltb_lt]; lia. }
  rewrite E1, E2, E3. simpl. repeat split; reflexivity.
Qed.

(** A picked-up row whose entity type has an endpoint but whose
    payload is not JSON is marked DEAD_LETTER with error
    'Invalid JSON payload' in that turn; when it is the only row of the
    batch, the cycle sends nothing to the cloud. *)
Theorem push_invalid_payload_dead_letters (batch : Z) (db : Db)
    (log : list Request) (r : OutboxItem) (ep : string) :
  isConfigured cfg = true ->
  pushEndpoints !! entity_type r = Some ep ->
  JSON_parse (payload r) = None ->
  List.NoDup (map item_id (outbox_queue db)) ->
  In r (select_pending batch db) ->
  let out := processOutbox cfg net now batch {| running := false |} db log in
  (exists row,
     find_item (item_id r) out.1.2 = Some row /\
     status row = DEAD_LETTER /\
     error row = Some "Invalid JSON payload" /\
     attempts row = attempts r + 1) /\
  (select_pending batch db = [r] -> out.2 = log /\ deadLettered out.1.1.1 = 1).
Proof.
  intros Hc Hep Hp Hnd Hsel out. split.
  - destruct (picked_row batch db log r Hc Hnd Hsel) as (lg & Hf).
    unfold decide_outcome in Hf. rewrite (endpoint_of_own _ _ Hep), Hp in Hf. simpl in Hf.
    eexists. split; [exact Hf|]. repeat split; reflexivity.
  - intros Hone. subst out. unfold processOutbox. simpl. rewrite Hc. simpl.
    rewrite Hone. simpl. unfold process_item. rewrite (endpoint_of_own _ _ Hep), Hp. simpl.
    split; reflexivity.
Qed.

Lemma decide_failure r ep parsed lg msg :
  pushEndpoints !! entity_type r = Some ep ->
  JSON_parse (payload r) = Some parsed ->
  URL_ok ep (baseUrl cfg) = true ->
  fetch_fails net msg ep ->
  (decide_outcome cfg net lg r).1 =
  outcome_of_response r
    {| res_ok := false; res_status := 0; res_data := VNull; res_error := Some msg |}.
Proof.
  intros Hep Hp Hurl Hnet. unfold decide_outcome, cloud_post, cloud_call.
  rewrite (endpoint_of_own _ _ Hep), Hp. simpl. rewrite Hurl. simpl.
  rewrite Hnet by reflexivity. reflexivity.
Qed.

(** X5. A picked-up row whose [fetch] rejects (network down, timeout) is
    treated like a server error: it uses up an attempt and goes back to
    PENDING with the error recorded as 'HTTP 0: <message>', or, when that
    was its last attempt, is marked DEAD_LETTER. *)
Theorem push_network_failure_retries (batch : Z) (db : Db) (log : list Request)
    (r : OutboxItem) (ep : string) (parsed : JsVal) (msg : string) :
  isConfigured cfg = true ->
  URL_ok ep (baseUrl cfg) = true ->
  pushEndpoints !! entity_type r = Some ep ->
  JSON_parse (payload r) = Some parsed ->
  fetch_fails net msg ep ->
  List.NoDup (map item_id (outbox_queue db)) ->
  In r (select_pending batch db) ->
  exists row,
    find_item (item_id r)
      (processOutbox cfg net now batch {| running := false |} db log).1.2 = Some row /\
    attempts row = attempts r + 1 /\
    (attempts r + 1 < max_attempts r ->
       status row = PENDING /\ error row = Some ("HTTP 0: " +:+ msg) /\
       eligible row = true) /\
    (max_attempts r <= attempts r + 1 ->
       status row = DEAD_LETTER /\
       error row = Some "Max attempts reached. Last: HTTP 0").
Proof.
  intros Hc Hurl Hep Hp Hnet Hnd Hsel.
  destruct (picked_row batch db log r Hc Hnd Hsel) as (lg & Hf).
  rewrite (decide_failure r ep parsed lg msg Hep Hp Hurl Hnet) in Hf.
  eexists. split; [exact Hf|].
  unfold outcome_of_response. simpl.
  destruct (max_attempts r <=? attempts r + 1) eqn:E; simpl.
  - apply Z.leb_le in E. split; [reflexivity|]. split; [lia|].
    intros _. split; reflexivity.
  - apply Z.leb_gt in E. split; [reflexivity|]. split; [|lia].
    intros _. split; [reflexivity|]. split; [reflexivity|].
    unfold eligible. simpl. apply Z.ltb_lt. lia.
Qed.

End PushAnswers.

Section PushRequests.
Context `{Runtime}.
Variables (cfg : Config) (net : Net) (now : string).

Lemma decide_outcome_sent lg it :
  exists new,
    (decide_outcome cfg net lg it).2 = lg ++ new /\
    map req_path new = option_list (post_target cfg it) /\
    Forall (fun rq => req_method rq = POST) new.
Proof.
  unfold decide_outcome, post_target.
  destruct (endpoint_of (entity_type it)) as [ep|];
    [|exists []; rewrite app_nil_r; repeat split; constructor].
  destruct (JSON_parse (payload it)) as [parsed|];
    [|exists []; rewrite app_nil_r; repeat split; constructor].
  unfold cloud_post, cloud_call; simpl.
  destruct (URL_ok ep (baseUrl cfg)); simpl.
  - eexists [_]. split; [reflexivity|]. split; [reflexivity|].
    constructor; [reflexivity|constructor].
  - exists []. rewrite app_nil_r. repeat split; constructor.
Qed.

Lemma fold_sent items : forall st,
  exists new,
    p_log (fold_left (process_item cfg net now) items st) = p_log st ++ new /\
    map req_path new = omap (post_target cfg) items /\
    Forall (fun rq => req_method rq = POST) new.
Proof.
  induction items as [|it rest IH]; intros st; simpl.
  - exists []. rewrite app_nil_r. repeat split; constructor.
  - destruct (IH (process_item cfg net now st it)) as (new2 & -> & Hp2 & Hm2).
    rewrite process_item_spec. simpl.
    destruct (decide_outcome_sent (p_log st) it) as (new1 & -> & Hp1 & Hm1).
    exists (new1 ++ new2). rewrite app_assoc. split; [done|]. split.
    + rewrite map_app, Hp1, Hp2.
      destruct (post_target cfg it); reflexivity.
    + apply Forall_app. tauto.
Qed.

(** X6. A push cycle only appends to the request log, and what it appends
    is exactly one POST per selected row that has an endpoint, a payload
    that parses and a base URL the URL constructor accepts, to that row's
    endpoint and in batch order; rows that fail one of the three send
    nothing. *)
Theorem push_requests (batch : Z) (db : Db) (log : list Request) :
  isConfigured cfg = true ->
  exists new,
    (processOutbox cfg net now batch {| running := false |} db log).2 = log ++ new /\
    map req_path new = omap (post_target cfg) (select_pending batch db) /\
    Forall (fun rq => req_method rq = POST) new /\
    (length new <= length (select_pending batch db))%nat.
Proof.
  intros Hc. unfold processOutbox. simpl. rewrite Hc. simpl.
  destruct (fold_sent (select_pending batch db)
              {| p_db := db; p_log := log; p_result := no_result |})
    as (new & Hl & Hp & Hm).
  exists new. split; [exact Hl|]. split; [exact Hp|]. split; [exact Hm|].
  rewrite <- (length_map req_path new), Hp.
  generalize (select_pending batch db). intros l.
  induction l as [|x l IH]; [reflexivity|].
  change (omap (post_target cfg) (x :: l))
    with (match post_target cfg x with
          | Some y => y :: omap (post_target cfg) l
          | None => omap (post_target cfg) l
          end).
  destruct (post_target cfg x); simpl; lia.
Qed.

Lemma throw_step batch db log r ep parsed a row :
  isConfigured cfg = true ->
  pushEndpoints !! entity_type r = Some ep ->
  JSON_parse (payload r) = Some parsed ->
  URL_ok ep (baseUrl cfg) = false ->
  List.NoDup (map item_id (outbox_queue db)) ->
  batch < 0 \/ Z.of_nat (length (List.filter eligible (outbox_queue db))) <= batch ->
  In row (outbox_queue db) -> 0 <= a <= max_attempts r -> after_throws r a row ->
  let db' := (processOutbox cfg net now batch {| running := false |} db log).1.2 in
  List.NoDup (map item_id (outbox_queue db')) /\
  (batch < 0 \/ Z.of_nat (length (List.filter eligible (outbox_queue db'))) <= batch) /\
  exists row', In row' (outbox_queue db') /\
    after_throws r (Z.min (a + 1) (max_attempts r)) row'.
Proof.
  intros Hc Hep Hp Hurl Hnd Hb Hin Ha (Hid & Hat & Hs & He) db'.
  destruct (processOutbox_row cfg net now batch db log row Hc Hnd Hin)
    as (Hnd' & Hlen & b & Hb' & HT).
  fold db' in Hnd', Hlen, Hb'.
  split; [exact Hnd'|]. split; [destruct Hb; [left; done|right; lia]|].
  exists b. split; [exact Hb'|].
  assert (Hmx : max_attempts row = max_attempts r) by (injection Hid; congruence).
  assert (Het : entity_type row = entity_type r) by (injection Hid; congruence).
  assert (Hpl : payload row = payload r) by (injection Hid; congruence).
  destruct (Z.lt_ge_cases a (max_attempts r)) as [Hlt|Hge].
  - assert (Hel : eligible row = true).
    { unfold eligible. rewrite Hs. apply Z.ltb_lt. lia. }
    pose proof (select_pending_picks batch db row Hb Hin Hel) as Hpick.
    destruct HT as [[Hn _]|[_ [lg ->]]]; [tauto|].
    unfold decide_outcome, cloud_post, cloud_call.
    rewrite Het, (endpoint_of_own _ _ Hep), Hpl, Hp. simpl. rewrite Hurl. simpl.
    unfold after_throws. simpl. split; [exact Hid|]. split; [|split; reflexivity].
    rewrite Hat. lia.
  - assert (Hel : eligible row = false).
    { unfold eligible. rewrite Hs. apply Z.ltb_ge. lia. }
    destruct HT as [[_ ->]|[Hsel _]].
    + unfold after_throws. split; [exact Hid|]. split; [lia|]. split; [exact Hs|].
      intros Hpos. apply He. lia.
    + apply select_pending_In in Hsel. destruct Hsel as [_ Hsel]. congruence.
Qed.

(** X7. A row whose POST throws before [fetch] (the URL constructor
    rejects the configured base URL) is put back to PENDING by every
    attempt and is never dead-lettered: once its attempts are used up it
    stays PENDING with [attempts = max_attempts], is no longer selected,
    and is not among the rows [retryDeadLetters] resets. *)
Theorem push_thrown_post_stays_pending (batch : Z) (db : Db) (log : list Request)
    (r : OutboxItem) (ep : string) (parsed : JsVal) :
  isConfigured cfg = true ->
  pushEndpoints !! entity_type r = Some ep ->
  JSON_parse (payload r) = Some parsed ->
  URL_ok ep (baseUrl cfg) = false ->
  List.NoDup (map item_id (outbox_queue db)) ->
  batch < 0 \/ Z.of_nat (length (List.filter eligible (outbox_queue db))) <= batch ->
  In r (outbox_queue db) ->
  status r = PENDING -> attempts r = 0 -> 1 <= max_attempts r ->
  forall k : nat,
  exists row,
    find_item (item_id r) (push_cycles cfg net now batch k db log).1 = Some row /\
    status row = PENDING /\
    attempts row = Z.min (Z.of_nat k) (max_attempts r) /\
    ((0 < k)%nat -> error row = Some "Invalid URL") /\
    (max_attempts r <= Z.of_nat k ->
       eligible row = false /\ forall t, dead_letter_of t row = false).
Proof.
  intros Hc Hep Hp Hurl Hnd Hb Hin Hs Ha Hm k.
  assert (G : forall k a db log row,
    List.NoDup (map item_id (outbox_queue db)) ->
    batch < 0 \/ Z.of_nat (length (List.filter eligible (outbox_queue db))) <= batch ->
    In row (outbox_queue db) -> 0 <= a <= max_attempts r -> after_throws r a row ->
    exists row',
      find_item (item_id r) (push_cycles cfg net now batch k db log).1 = Some row' /\
      after_throws r (Z.min (a + Z.of_nat k) (max_attempts r)) row').
  { clear k db log Hnd Hb Hin. induction k as [|k IH]; intros a db log row Hnd Hb Hin Ha' Haf.
    - simpl. exists row. split.
      + destruct Haf as (Hid & _).
        replace (item_id r) with (item_id row) by (injection Hid; congruence).
        apply find_item_In; assumption.
      + replace (Z.min (a + Z.of_nat 0) (max_attempts r)) with a by lia. exact Haf.
    - simpl.
      destruct (throw_step batch db log r ep parsed a row) as (Hnd' & Hb' & row' & Hin' & Haf');
        try assumption.
      destruct (processOutbox cfg net now batch {| running := false |} db log)
        as [[[res eng] db'] log'] eqn:E. simpl in *.
      destruct (IH (Z.min (a + 1) (max_attempts r)) db' log' row' Hnd' Hb' Hin') as (row2 & Hf & Haf2);
        [lia|exact Haf'|].
      exists row2. split; [exact Hf|].
      replace (Z.min (a + Z.of_nat (S k)) (max_attempts r))
        with (Z.min (Z.min (a + 1) (max_attempts r) + Z.of_nat k) (max_attempts r)) by lia.
      exact Haf2. }
  destruct (G k 0 db log r Hnd Hb Hin) as (row & Hf & Haf); [lia| |].
  { unfold after_throws. split; [reflexivity|]. split; [exact Ha|]. split; [exact Hs|]. lia. }
  exists row. split; [exact Hf|].
  destruct Haf as (Hid & Hat & Hst & He). simpl in Hat.
  split; [exact Hst|]. split; [exact Hat|]. split.
  - intros Hk. apply He. lia.
  - intros Hk. split.
    + unfold eligible. rewrite Hst. apply Z.ltb_ge.
      replace (max_attempts row) with (max_attempts r) by (injection Hid; congruence). lia.
    + intros t. unfold dead_letter_of. rewrite Hst. reflexivity.
Qed.

End PushRequests.

Section DeadLetters.

(** X8. [retryDeadLetters] returns the number of DEAD_LETTER rows of the
    given entity type (of any type when none, or an empty one, is given),
    puts exactly those rows back to PENDING with zero attempts, keeping
    their error text, leaves every other row as it was, and finds nothing
    left to reset when called again. *)
Theorem retry_dead_letters_resets (t : option string) (db : Db) :
  let out := retryDeadLetters t db in
  out.1 = Z.of_nat (length (List.filter (dead_letter_of t) (outbox_queue db))) /\
  map outbox_identity (outbox_queue out.2) = map outbox_identity (outbox_queue db) /\
  Forall2 (fun a b =>
             if dead_letter_of t a
             then status b = PENDING /\ attempts b = 0 /\ error b = error a /\
                  synced_at b = synced_at a /\ (0 < max_attempts a -> eligible b = true)
             else b = a)
    (outbox_queue db) (outbox_queue out.2) /\
  retryDeadLetters t out.2 = (0, out.2).
Proof.
  assert (Heq : retryDeadLetters t db =
                (Z.of_nat (length (List.filter (dead_letter_of t) (outbox_queue db))),
                 with_outbox (map (fun r => if dead_letter_of t r
                                            then reset_attempts r else r)) db))
    by reflexivity.
  assert (Hnone : forall l : list OutboxItem,
            List.filter (dead_letter_of t)
              (map (fun r => if dead_letter_of t r then reset_attempts r else r) l) = []).
  { induction l as [|x l IH]; simpl; [reflexivity|].
    destruct (dead_letter_of t x) eqn:E; simpl.
    - exact IH.
    - rewrite E. exact IH. }
  intros out. subst out. rewrite Heq. cbn [fst snd].
  split; [reflexivity|]. split; [|split].
  - simpl. rewrite map_map. apply map_ext. intros r.
    destruct (dead_letter_of t r); reflexivity.
  - simpl. apply Forall2_same_length_lookup_2; [rewrite length_map; reflexivity|].
    intros i a b Ha Hb.
    rewrite list_lookup_fmap, Ha in Hb. simpl in Hb. injection Hb as <-.
    destruct (dead_letter_of t a) eqn:E; [|reflexivity]. simpl.
    repeat split. intros Hm. unfold eligible. simpl. apply Z.ltb_lt. exact Hm.
  - assert (Heq2 : forall d, retryDeadLetters t d =
                (Z.of_nat (length (List.filter (dead_letter_of t) (outbox_queue d))),
                 with_outbox (map (fun r => if dead_letter_of t r
                                            then reset_attempts r else r)) d))
      by reflexivity.
    rewrite Heq2. simpl. rewrite Hnone. simpl. f_equal.
    unfold with_outbox. simpl. f_equal. rewrite map_map.
    apply map_ext. intros r. destruct (dead_letter_of t r) eqn:E.
    + reflexivity.
    + rewrite E. reflexivity.
Qed.

End DeadLetters.

Section BatchOrder.

Lemma ascii_compare_trans_lt x y z :
  Ascii.compare x y = Lt -> Ascii.compare y z = Lt -> Ascii.compare x z = Lt.
Proof.
  unfold Ascii.compare. rewrite !N.compare_lt_iff. lia.
Qed.

Lemma string_leb_trans a : forall b c,
  String.leb a b = true -> String.leb b c = true -> String.leb a c = true.
Proof.
  unfold String.leb.
  induction a as [|x a IH]; intros [|y b] [|z c]; simpl; try done.
  destruct (Ascii.compare x y) eqn:Exy; try done;
    destruct (Ascii.compare y z) eqn:Eyz; try done.
  - apply Ascii.compare_eq_iff in Exy, Eyz. subst y z.
    assert (E : Ascii.compare x x = Eq) by (unfold Ascii.compare; apply N.compare_refl).
    rewrite E. apply IH.
  - apply Ascii.compare_eq_iff in Exy. subst y. rewrite Eyz. done.
  - apply Ascii.compare_eq_iff in Eyz. subst z. rewrite Exy. done.
  - rewrite (ascii_compare_trans_lt x y z Exy Eyz). done.
Qed.

Lemma outbox_before_total a b :
  outbox_before a b = true \/ outbox_before b a = true.
Proof.
  unfold outbox_before.
  destruct (Z.lt_trichotomy (priority a) (priority b)) as [Hlt|[Heq|Hgt]].
  - right. apply orb_true_iff. left. apply Z.ltb_lt. exact Hlt.
  - rewrite Heq, Z.eqb_refl, Z.ltb_irrefl. simpl.
    apply String.leb_total.
  - left. apply orb_true_iff. left. apply Z.ltb_lt. lia.
Qed.

Lemma outbox_before_trans a b c :
  outbox_before a b = true -> outbox_before b c = true -> outbox_before a c = true.
Proof.
  unfold outbox_before. rewrite !orb_true_iff, !andb_true_iff, !Z.ltb_lt, !Z.eqb_eq.
  intros [H1|[H1 L1]] [H2|[H2 L2]].
  - left. lia.
  - left. lia.
  - left. lia.
  - right. split; [lia|]. eapply string_leb_trans; eassumption.
Qed.

Lemma insert_sorted_sorted x l :
  StronglySorted (fun a b => outbox_before a b = true) l ->
  StronglySorted (fun a b => outbox_before a b = true) (insert_sorted outbox_before x l).
Proof.
  induction 1 as [|y l Hs IH Hy]; simpl.
  - constructor; constructor.
  - destruct (outbox_before y x) eqn:E.
    + constructor; [exact IH|].
      rewrite List.Forall_forall. intros z Hz.
      apply (Permutation_in _ (insert_sorted_perm outbox_before x l)) in Hz.
      destruct Hz as [<-|Hz]; [exact E|].
      rewrite List.Forall_forall in Hy. apply Hy. exact Hz.
    + assert (Hxy : outbox_before x y = true).
      { destruct (outbox_before_total x y) as [Hxy|Hyx]; [exact Hxy|congruence]. }
      constructor; [constructor; assumption|].
      constructor; [exact Hxy|].
      rewrite List.Forall_forall in Hy |- *. intros z Hz.
      eapply outbox_before_trans; [exact Hxy|]. apply Hy. exact Hz.
Qed.

Lemma order_by_sorted l :
  StronglySorted (fun a b => outbox_before a b = true) (order_by outbox_before l).
Proof.
  unfold order_by.
  assert (G : forall acc,
            StronglySorted (fun a b => outbox_before a b = true) acc ->
            StronglySorted (fun a b => outbox_before a b = true)
              (fold_left (fun acc x => insert_sorted outbox_before x acc) l acc)).
  { induction l as [|x l IH]; intros acc Hacc; simpl; [exact Hacc|].
    apply IH. apply insert_sorted_sorted. exact Hacc. }
  apply G. constructor.
Qed.

Lemma sorted_app_before {A} (R : A -> A -> Prop) l1 : forall l2,
  StronglySorted R (l1 ++ l2) ->
  StronglySorted R l1 /\ forall a b, In a l1 -> In b l2 -> R a b.
Proof.
  induction l1 as [|x l1 IH]; intros l2 Hs; simpl in *.
  - split; [constructor|]. tauto.
  - inversion Hs as [|? ? Hs' Hx]; subst.
    destruct (IH l2 Hs') as [Hs1 Hb].
    rewrite List.Forall_forall in Hx. split.
    + constructor; [exact Hs1|]. rewrite List.Forall_forall. intros z Hz.
      apply Hx. apply in_or_app. tauto.
    + intros a b [<-|Ha] Hbin; [apply Hx; apply in_or_app; tauto|auto].
Qed.

(** X9. The batch a push cycle selects is in priority order, higher
    priority first and older rows first among equals, and it never leaves
    out an eligible row in favour of one that comes after it: every
    selected row precedes every eligible row that did not fit. *)
Theorem select_pending_order (batch : Z) (db : Db) :
  StronglySorted (fun a b => outbox_before a b = true) (select_pending batch db) /\
  (forall a b,
     In a (select_pending batch db) ->
     In b (outbox_queue db) -> eligible b = true ->
     ~ In b (select_pending batch db) ->
     outbox_before a b = true) /\
  (0 <= batch -> Z.of_nat (length (select_pending batch db)) <= batch).
Proof.
  unfold select_pending.
  set (sorted := order_by outbox_before (List.filter eligible (outbox_queue db))).
  pose proof (order_by_sorted (List.filter eligible (outbox_queue db))) as Hs.
  fold sorted in Hs.
  assert (Hin : forall b, In b (outbox_queue db) -> eligible b = true -> In b sorted).
  { intros b Hb He. unfold sorted.
    apply (Permutation_in _ (Permutation_sym (order_by_perm _ _))).
    apply filter_In. tauto. }
  split; [|split].
  - unfold limit. destruct (batch <? 0); [exact Hs|].
    rewrite <- (take_drop (Z.to_nat batch) sorted) in Hs.
    apply sorted_app_before in Hs. tauto.
  - intros a b Ha Hb He Hn. specialize (Hin b Hb He).
    unfold limit in *. destruct (batch <? 0); [tauto|].
    rewrite <- (take_drop (Z.to_nat batch) sorted) in Hs, Hin.
    apply sorted_app_before in Hs. destruct Hs as [_ Hs].
    apply in_app_or in Hin. destruct Hin as [Hin|Hin]; [tauto|].
    apply Hs; assumption.
  - intros Hb. unfold limit. destruct (batch <? 0) eqn:E; [apply Z.ltb_lt in E; lia|].
    rewrite length_take. lia.
Qed.

End BatchOrder.

Section PushCycleExamples.

Ltac distinct_ids :=
  simpl; repeat (constructor; [simpl; intuition discriminate|]); constructor.

Lemma push_keeps_rows_witness :
  let db' := (processOutbox (H := demo_runtime) demo_cfg (net_status 500)
                "2026-01-01 10:00:05" 20 {| running := false |} demo_queue []).1.2 in
  map outbox_identity (outbox_queue db') = map outbox_identity (outbox_queue demo_queue) /\
  find_item 3 db' = find_item 3 demo_queue /\
  tables db' = tables demo_queue.
Proof.
  intros db'.
  destruct (@push_keeps_rows demo_runtime demo_cfg (net_status 500) "2026-01-01 10:00:05"
              20 {| running := false |} demo_queue []) as (Hid & _ & _ & _ & _ & _ & Ht).
  - distinct_ids.
  - split; [exact Hid|]. split; [reflexivity|exact Ht].
Defined.

Lemma push_cycle_invariants_witness :
  Forall2 (fun a b =>
             (status b = PROCESSING -> b = a) /\
             attempts a <= attempts b <= attempts a + 1 /\
             (attempts a <= max_attempts a -> attempts b <= max_attempts b))
    (outbox_queue demo_queue)
    (outbox_queue (processOutbox (H := demo_runtime) demo_cfg (net_status 500)
                     "2026-01-01 10:00:05" 20 {| running := false |} demo_queue []).1.2).
Proof.
  apply (@push_cycle_invariants demo_runtime demo_cfg (net_status 500)
           "2026-01-01 10:00:05" 20 {| running := false |} demo_queue []).
  distinct_ids.
Defined.

Lemma push_counters_witness :
  let res := (processOutbox (H := demo_runtime) demo_cfg (net_status 500)
                "2026-01-01 10:00:05" 20 {| running := false |} demo_queue []).1.1.1 in
  processed res = 3 /\ succeeded res = 0 /\ failed res = 1 /\ deadLettered res = 2.
Proof.
  intros res.
  destruct (@push_counters demo_runtime demo_cfg (net_status 500) "2026-01-01 10:00:05"
              20 demo_queue []) as (Hp & _).
  - reflexivity.
  - split; [exact Hp|]. repeat split; reflexivity.
Defined.

Lemma push_client_error_dead_letters_witness :
  exists row,
    find_item 1 (processOutbox (H := demo_runtime) demo_cfg (net_status 422)
                   "2026-01-01 10:00:05" 20 {| running := false |} demo_queue []).1.2
      = Some row /\
    status row = DEAD_LETTER /\ error row = Some "HTTP 422: Client error" /\
    attempts row = 1.
Proof.
  destruct (@push_client_error_dead_letters demo_runtime demo_cfg (net_status 422)
              "2026-01-01 10:00:05" 20 demo_queue []
              (demo_row 1 5 "sale" "{}" "2026-01-01 10:00:00" PENDING 0)
              "/api/hub/push/sale" (VObj []) 422)
    as (row & Hf & Hs & He & Ha & _).
  - reflexivity.
  - reflexivity.
  - reflexivity.
  - reflexivity.
  - lia.
  - discriminate.
  - intros lg rq _. exists NotJson. split; [reflexivity|discriminate].
  - distinct_ids.
  - vm_compute. tauto.
  - exists row. split; [exact Hf|]. split; [exact Hs|]. split; [exact He|exact Ha].
Defined.

Lemma push_invalid_payload_dead_letters_witness :
  exists row,
    find_item 2 (processOutbox (H := demo_runtime) demo_cfg (net_status 200)
                   "2026-01-01 10:00:05" 20 {| running := false |} demo_queue []).1.2
      = Some row /\
    status row = DEAD_LETTER /\ error row = Some "Invalid JSON payload".
Proof.
  destruct (@push_invalid_payload_dead_letters demo_runtime demo_cfg (net_status 200)
              "2026-01-01 10:00:05" 20 demo_queue []
              (demo_row 2 10 "sale" "" "2026-01-01 10:00:01" PENDING 4)
              "/api/hub/push/sale")
    as [(row & Hf & Hs & He & _) _].
  - reflexivity.
  - reflexivity.
  - reflexivity.
  - distinct_ids.
  - vm_compute. tauto.
  - exists row. split; [exact Hf|]. split; [exact Hs|exact He].
Defined.

Lemma push_network_failure_retries_witness :
  exists row1 row4,
    let db' := (processOutbox (H := demo_runtime) demo_cfg (net_down "fetch failed")
                  "2026-01-01 10:00:05" 20 {| running := false |} demo_queue []).1.2 in
    find_item 1 db' = Some row1 /\ status row1 = PENDING /\
    error row1 = Some "HTTP 0: fetch failed" /\
    find_item 4 db' = Some row4 /\ status row4 = DEAD_LETTER /\
    error row4 = Some "Max attempts reached. Last: HTTP 0".
Proof.
  destruct (@push_network_failure_retries demo_runtime demo_cfg (net_down "fetch failed")
              "2026-01-01 10:00:05" 20 demo_queue []
              (demo_row 1 5 "sale" "{}" "2026-01-01 10:00:00" PENDING 0)
              "/api/hub/push/sale" (VObj []) "fetch failed")
    as (row1 & Hf1 & _ & Hp1 & _);
    [reflexivity|reflexivity|reflexivity|reflexivity|intros lg rq _; reflexivity
    |distinct_ids|vm_compute; tauto|].
  destruct (@push_network_failure_retries demo_runtime demo_cfg (net_down "fetch failed")
              "2026-01-01 10:00:05" 20 demo_queue []
              (demo_row 4 10 "kitchen_order" "{}" "2026-01-01 09:30:00" PENDING 4)
              "/api/hub/push/kitchen-order" (VObj []) "fetch failed")
    as (row4 & Hf4 & _ & _ & Hd4);
    [reflexivity|reflexivity|reflexivity|reflexivity|intros lg rq _; reflexivity
    |distinct_ids|vm_compute; tauto|].
  exists row1, row4. intros db'.
  destruct Hp1 as (Hs1 & He1 & _); [simpl; lia|].
  destruct Hd4 as (Hs4 & He4); [simpl; lia|].
  repeat split; assumption.
Defined.

Lemma push_requests_witness :
  exists new,
    (processOutbox (H := demo_runtime) demo_cfg (net_status 200)
       "2026-01-01 10:00:05" 20 {| running := false |} demo_queue []).2 = new /\
    map req_path new = ["/api/hub/push/kitchen-order"; "/api/hub/push/sale"].
Proof.
  destruct (@push_requests demo_runtime demo_cfg (net_status 200) "2026-01-01 10:00:05"
              20 demo_queue []) as (new & Hl & Hp & _).
  - reflexivity.
  - exists new. split; [exact Hl|]. rewrite Hp. reflexivity.
Defined.

Lemma push_thrown_post_stays_pending_witness :
  exists row,
    find_item 1
      (push_cycles (H := scheme_runtime) schemeless_cfg (net_status 200)
         "2026-01-01 10:00:05" 20 7
         (db_with_outbox [demo_row 1 5 "sale" "{}" "2026-01-01 10:00:00" PENDING 0]) []).1
      = Some row /\
    status row = PENDING /\ attempts row = 5 /\ error row = Some "Invalid URL" /\
    eligible row = false.
Proof.
  destruct (@push_thrown_post_stays_pending scheme_runtime schemeless_cfg (net_status 200)
              "2026-01-01 10:00:05" 20
              (db_with_outbox [demo_row 1 5 "sale" "{}" "2026-01-01 10:00:00" PENDING 0]) []
              (demo_row 1 5 "sale" "{}" "2026-01-01 10:00:00" PENDING 0)
              "/api/hub/push/sale" (VObj [])) with (k := 7%nat)
    as (row & Hf & Hs & Ha & He & Hl).
  - reflexivity.
  - reflexivity.
  - reflexivity.
  - reflexivity.
  - distinct_ids.
  - right. simpl. lia.
  - left. reflexivity.
  - reflexivity.
  - reflexivity.
  - simpl. lia.
  - exists row. split; [exact Hf|]. split; [exact Hs|]. split; [exact Ha|].
    split; [apply He; lia|]. apply Hl. simpl. lia.
Defined.

(** The demo queue, one cycle against a cloud that answers 200: the batch
    is ordered by priority and age, the row with the unparseable payload is
    dead-lettered, the SYNCED row is not touched, and a later
    [retryDeadLetters] puts the dead letter back. *)
Example push_cycle_on_demo_queue :
  let out := processOutbox (H := demo_runtime) demo_cfg (net_status 200)
               "2026-01-01 10:00:05" 20 {| running := false |} demo_queue [] in
  map item_id (select_pending 20 demo_queue) = [4; 2; 1] /\
  map item_id (select_pending 2 demo_queue) = [4; 2] /\
  map status (outbox_queue out.1.2) = [SYNCED; DEAD_LETTER; SYNCED; SYNCED] /\
  map attempts (outbox_queue out.1.2) = [1; 5; 1; 5] /\
  (retryDeadLetters None out.1.2).1 = 1 /\
  (retryDeadLetters (Some "refund") out.1.2).1 = 0 /\
  map status (outbox_queue (retryDeadLetters (Some "") out.1.2).2)
    = [SYNCED; PENDING; SYNCED; SYNCED].
Proof. vm_compute. repeat split; reflexivity. Qed.

End PushCycleExamples.

Section KeyConversion.

Lemma to_lower_not_upper c : is_upper c = true -> is_upper (to_lower c) = false.
Proof.
  unfold is_upper, to_lower. intros Hu.
  apply andb_true_iff in Hu as [H1 H2].
  apply Nat.leb_le in H1, H2.
  rewrite nat_ascii_embedding by lia.
  apply andb_false_iff. right. apply Nat.leb_gt. lia.
Qed.

Lemma to_lower_inj c d :
  is_upper c = true -> is_upper d = true -> to_lower c = to_lower d -> c = d.
Proof.
  unfold is_upper, to_lower. intros Hc Hd E.
  apply andb_true_iff in Hc as [Hc1 Hc2]. apply andb_true_iff in Hd as [Hd1 Hd2].
  apply Nat.leb_le in Hc1, Hc2, Hd1, Hd2.
  apply (f_equal nat_of_ascii) in E.
  rewrite !nat_ascii_embedding in E by lia.
  rewrite <- (ascii_nat_embedding c), <- (ascii_nat_embedding d). f_equal. lia.
Qed.

Lemma camelToSnake_no_upper s : has_upper (camelToSnake s) = false.
Proof.
  unfold has_upper. induction s as [|c s IH]; simpl; [reflexivity|].
  destruct (is_upper c) eqn:E; simpl.
  - rewrite (to_lower_not_upper c E). exact IH.
  - rewrite E. exact IH.
Qed.

Lemma camelToSnake_fixed s : has_upper s = false -> camelToSnake s = s.
Proof.
  unfold has_upper. induction s as [|c s IH]; simpl; [reflexivity|].
  intros Hn. apply orb_false_iff in Hn as [Hc Hs].
  rewrite Hc, IH by exact Hs. reflexivity.
Qed.

(** X10. [camelToSnake] leaves no letter A-Z in its result, returns a
    string without such letters unchanged, and so is idempotent; it
    lengthens the string by one character per capital letter. *)
Theorem camelToSnake_lower (s : string) :
  has_upper (camelToSnake s) = false /\
  (has_upper s = false -> camelToSnake s = s) /\
  camelToSnake (camelToSnake s) = camelToSnake s /\
  String.length (camelToSnake s) =
    (String.length s + length (List.filter is_upper (list_ascii_of_string s)))%nat.
Proof.
  split; [apply camelToSnake_no_upper|]. split; [apply camelToSnake_fixed|]. split.
  - apply camelToSnake_fixed, camelToSnake_no_upper.
  - induction s as [|c s IH]; simpl; [reflexivity|].
    destruct (is_upper c); simpl; rewrite IH; lia.
Qed.

Lemma camelToSnake_inj s : forall t,
  has_underscore s = false -> has_underscore t = false ->
  camelToSnake s = camelToSnake t -> s = t.
Proof.
  unfold has_underscore.
  induction s as [|c s IH]; intros [|d t]; simpl; intros Hs Ht E.
  - reflexivity.
  - destruct (is_upper d); discriminate.
  - destruct (is_upper c); discriminate.
  - apply orb_false_iff in Hs as [Hc Hs]. apply orb_false_iff in Ht as [Hd Ht].
    destruct (is_upper c) eqn:Ec, (is_upper d) eqn:Ed.
    + injection E as E1 E2. apply to_lower_inj in E1; [|assumption..]. subst d.
      f_equal. apply IH; assumption.
    + injection E as E1 _. subst d. discriminate.
    + injection E as E1 _. subst c. discriminate.
    + injection E as E1 E2. subst d. f_equal. apply IH; assumption.
Qed.

Lemma camelToSnake_not_proto s :
  has_underscore s = false -> String.eqb (camelToSnake s) "__proto__" = false.
Proof.
  intros Hs. apply String.eqb_neq. intros E.
  destruct s as [|c s]; [discriminate|].
  unfold has_underscore in Hs. simpl in Hs, E.
  apply orb_false_iff in Hs as [Hc Hs].
  destruct (is_upper c) eqn:Ec.
  - injection E as E1 _. unfold is_upper, to_lower in *.
    apply andb_true_iff in Ec as [H1 H2]. apply Nat.leb_le in H1, H2.
    apply (f_equal nat_of_ascii) in E1. rewrite nat_ascii_embedding in E1 by lia.
    change (nat_of_ascii "_") with 95%nat in E1. lia.
  - injection E as E1 _. subst c. discriminate.
Qed.

Lemma convertKeys_fold obj : forall (acc : Row) (k : string) (v : JsVal),
  Forall (fun kv => has_underscore kv.1 = false) obj ->
  has_underscore k = false ->
  List.NoDup (map fst obj) ->
  (In (k, v) obj \/ (~ In k (map fst obj) /\ acc !! camelToSnake k = Some v)) ->
  fold_left
    (fun result kv =>
       let k := camelToSnake kv.1 in
       if String.eqb k "__proto__" then result else <[k := kv.2]> result)
    obj acc !! camelToSnake k = Some v.
Proof.
  induction obj as [|[k1 v1] obj IH]; intros acc k v Hu Hk Hnd Hin; simpl.
  - destruct Hin as [[]|[_ Hacc]]. exact Hacc.
  - inversion Hu as [|? ? Hu1 Hu2]; subst. inversion Hnd as [|? ? Hn1 Hn2]; subst.
    simpl in Hu1. rewrite (camelToSnake_not_proto k1 Hu1).
    apply IH; try assumption.
    destruct Hin as [[Heq|Hin]|[Hn Hacc]].
    + injection Heq as -> ->. right. split; [exact Hn1|]. apply lookup_insert_eq.
    + left. exact Hin.
    + right. simpl in Hn. split; [tauto|].
      rewrite lookup_insert_ne; [exact Hacc|].
      intros E. apply camelToSnake_inj in E; [|assumption..]. tauto.
Qed.

(** X11. On keys without an underscore [camelToSnake] is injective, so
    [convertKeys] loses nothing of an object whose keys have none: every
    field is found under its converted key with its value, and the result
    has as many fields as the object. *)
Theorem convertKeys_keeps_fields (obj : list (string * JsVal)) :
  Forall (fun kv => has_underscore kv.1 = false) obj ->
  List.NoDup (map fst obj) ->
  (forall s t, has_underscore s = false -> has_underscore t = false ->
     camelToSnake s = camelToSnake t -> s = t) /\
  (forall k v, In (k, v) obj -> convertKeys obj !! camelToSnake k = Some v) /\
  size (convertKeys obj) = length obj.
Proof.
  intros Hu Hnd. split; [intros s t; apply camelToSnake_inj|]. split.
  - intros k v Hin. unfold convertKeys. apply convertKeys_fold; try assumption; [|tauto].
    rewrite List.Forall_forall in Hu. apply (Hu (k, v)). exact Hin.
  - unfold convertKeys.
    assert (G : forall acc : Row,
              (forall kv, In kv obj -> acc !! camelToSnake kv.1 = None) ->
              size (fold_left
                      (fun result kv =>
                         let k := camelToSnake kv.1 in
                         if String.eqb k "__proto__" then result else <[k := kv.2]> result)
                      obj acc) = (size acc + length obj)%nat).
    { clear -Hu Hnd. induction obj as [|[k1 v1] obj IH]; intros acc Hacc; simpl; [lia|].
      inversion Hu as [|? ? Hu1 Hu2]; subst. inversion Hnd as [|? ? Hn1 Hn2]; subst.
      simpl in Hu1. rewrite (camelToSnake_not_proto k1 Hu1).
      rewrite IH; try assumption.
      - rewrite map_size_insert_None; [lia|]. apply (Hacc (k1, v1)). left. reflexivity.
      - intros [k2 v2] Hin. simpl.
        rewrite lookup_insert_ne; [apply (Hacc (k2, v2)); right; exact Hin|].
        intros E. apply camelToSnake_inj in E; try assumption.
        + subst k2. apply Hn1. apply (in_map fst) in Hin. exact Hin.
        + rewrite List.Forall_forall in Hu2. apply (Hu2 (k2, v2)). exact Hin. }
    rewrite G; [rewrite map_size_empty; lia|].
    intros kv _. apply lookup_empty.
Qed.

End KeyConversion.

Section ItemTransform.
Context `{Runtime}.

Lemma to_cell_bindable v : bindable (to_cell v) = true.
Proof. destruct v; reflexivity. Qed.

Lemma convertKeys_keys obj : forall acc : Row,
  (forall k, is_Some (acc !! k) -> has_upper k = false) ->
  forall k, is_Some (fold_left
                       (fun result kv =>
                          let k := camelToSnake kv.1 in
                          if String.eqb k "__proto__" then result else <[k := kv.2]> result)
                       obj acc !! k) -> has_upper k = false.
Proof.
  induction obj as [|[k1 v1] obj IH]; intros acc Hacc k; simpl; [apply Hacc|].
  apply IH. intros k2. destruct (String.eqb (camelToSnake k1) "__proto__"); [apply Hacc|].
  destruct (decide (camelToSnake k1 = k2)) as [<-|Hne].
  - intros _. apply camelToSnake_no_upper.
  - rewrite lookup_insert_ne by exact Hne. apply Hacc.
Qed.

(** Every cell of a row [transformItems] returns is a value SQLite
    binds as it is (null, number or string): booleans have become 0 or 1,
    arrays and objects their JSON text; and without a field map every
    column name is free of capital letters. *)
Theorem transformItems_cells (items : list (list (string * JsVal)))
    (fieldMap : list (string * FieldSource)) (row : Row) (k : string) (v : JsVal) :
  In row (transformItems items fieldMap) -> row !! k = Some v ->
  bindable v = true /\ (fieldMap = [] -> has_upper k = false).
Proof.
  unfold transformItems. intros Hin Hk.
  apply in_map_iff in Hin as (item & <- & _).
  rewrite lookup_fmap in Hk.
  destruct (fold_left (apply_field item) fieldMap (convertKeys item) !! k) as [v0|] eqn:E;
    [|discriminate].
  injection Hk as <-. split; [apply to_cell_bindable|].
  intros ->. simpl in E. unfold convertKeys in E.
  eapply (convertKeys_keys item ∅).
  - intros k0 [x Hx]. rewrite lookup_empty in Hx. discriminate.
  - exists v0. exact E.
Qed.

End ItemTransform.

Lemma convertKeys_keeps_fields_witness :
  convertKeys [("tenantId", VStr "t1"); ("isActive", VBool true); ("name", VStr "Tea")]
    !! "is_active" = Some (VBool true).
Proof.
  destruct (convertKeys_keeps_fields
              [("tenantId", VStr "t1"); ("isActive", VBool true); ("name", VStr "Tea")])
    as (_ & Hl & _).
  - repeat constructor.
  - simpl. repeat (constructor; [simpl; intuition discriminate|]). constructor.
  - apply (Hl "isActive" (VBool true)). right. left. reflexivity.
Defined.

Lemma transformItems_cells_witness :
  bindable (VNum 1) = true /\ has_upper "is_active" = false.
Proof.
  destruct (@transformItems_cells demo_runtime
              [[("tenantId", VStr "t1"); ("isActive", VBool true)]] []
              {["tenant_id" := VStr "t1"; "is_active" := VNum 1]} "is_active" (VNum 1))
    as [Hb Hk].
  - left. vm_compute. reflexivity.
  - vm_compute. reflexivity.
  - split; [exact Hb|]. apply Hk. reflexivity.
Defined.

(** Two keys that differ only in how they spell a word boundary collide,
    and the later one wins; and a field map entry renames a column. *)
Example convertKeys_collision :
  map_to_list (convertKeys [("aB", VNum 1); ("a_b", VNum 2)]) = [("a_b", VNum 2)] /\
  map (fun row => (row !! "picture", row !! "image_url", row !! "tags"))
    (transformItems (H := demo_runtime) [[("imageUrl", VStr "u"); ("tags", VArr [])]]
       [("picture", FromField "imageUrl")])
  = [(Some (VStr "u"), None, Some (VStr "{}"))].
Proof. vm_compute. split; reflexivity. Qed.

Section PullStore.
Context `{Runtime} `{EntityCodec}.
Variables (cfg : Config) (net : Net) (now : string).

Ltac break_match :=
  match goal with
  | |- context [match ?x with _ => _ end] => destruct x eqn:?
  end.

Lemma key_eqb_eq a b : key_eqb a b = true -> a = b /\ a <> VNull.
Proof.
  destruct a, b; simpl; try discriminate.
  - intros E. apply Z.eqb_eq in E. subst. split; [reflexivity|discriminate].
  - intros E. apply String.eqb_eq in E. subst. split; [reflexivity|discriminate].
Qed.

Lemma col_union_key (r x : Row) key :
  key_eqb (col x key) (col r key) = true -> col (r ∪ x) key = col x key.
Proof.
  intros E. apply key_eqb_eq in E as [E Hn]. unfold col in *.
  destruct (r !! key) as [v|] eqn:Er; simpl in E.
  - rewrite (lookup_union_Some_l r x key v Er). simpl. congruence.
  - congruence.
Qed.

Lemma upsert_into_spec key rows (r : Row) :
  (length rows <= length (upsert_into key rows r) <= S (length rows))%nat /\
  (forall x, In x rows -> exists y, In y (upsert_into key rows r) /\ col y key = col x key) /\
  (exists y, In y (upsert_into key rows r) /\ col y key = col r key /\
             forall c v, r !! c = Some v -> y !! c = Some v).
Proof.
  induction rows as [|x rows (IHl & IHx & IHr)]; simpl.
  - split; [lia|]. split; [tauto|]. exists r. split; [left; reflexivity|]. split; auto.
  - destruct (key_eqb (col x key) (col r key)) eqn:E; simpl.
    + split; [lia|]. split.
      * intros x0 [<-|Hin].
        -- exists (r ∪ x). split; [left; reflexivity|]. apply col_union_key. exact E.
        -- exists x0. split; [right; exact Hin|reflexivity].
      * exists (r ∪ x). split; [left; reflexivity|]. split.
        -- rewrite col_union_key by exact E. apply key_eqb_eq in E. tauto.
        -- intros c v Hc. apply lookup_union_Some_l. exact Hc.
    + split; [lia|]. split.
      * intros x0 [<-|Hin].
        -- exists x. split; [left; reflexivity|reflexivity].
        -- destruct (IHx x0 Hin) as (y & Hy & Hc). exists y. split; [right; exact Hy|exact Hc].
      * destruct IHr as (y & Hy & Hc). exists y. split; [right; exact Hy|exact Hc].
Qed.

Lemma table_insert (t : Tables) name l : table (<[name := l]> t) name = l.
Proof. unfold table. rewrite lookup_insert_eq. reflexivity. Qed.

Lemma upsert_fold name rows : forall acc : Z * Tables,
  let out := fold_left
               (fun (acc : Z * Tables) r =>
                  if sql_accepts acc.2 name r
                  then (acc.1 + 1, <[name := upsert_into "id" (table acc.2 name) r]> acc.2)
                  else acc)
               rows acc in
  acc.1 <= out.1 <= acc.1 + Z.of_nat (length rows) /\
  (Z.of_nat (length (table acc.2 name)) <= Z.of_nat (length (table out.2 name))
     <= Z.of_nat (length (table acc.2 name)) + (out.1 - acc.1)) /\
  (forall x, In x (table acc.2 name) ->
     exists y, In y (table out.2 name) /\ col y "id" = col x "id") /\
  (forall other, other <> name -> out.2 !! other = acc.2 !! other) /\
  ((forall (t : Tables) r, sql_accepts t name r = true) ->
   out.1 = acc.1 + Z.of_nat (length rows) /\
   forall r, In r rows -> exists y, In y (table out.2 name) /\ col y "id" = col r "id").
Proof.
  induction rows as [|r rows IH]; intros acc; simpl.
  - split; [lia|]. split; [lia|]. split; [eauto|]. split; [auto|].
    intros _. split; [lia|tauto].
  - set (acc1 := if sql_accepts acc.2 name r
                 then (acc.1 + 1, <[name := upsert_into "id" (table acc.2 name) r]> acc.2)
                 else acc).
    specialize (IH acc1). simpl in IH. destruct IH as (I1 & I2 & I3 & I4 & I5).
    destruct (upsert_into_spec "id" (table acc.2 name) r) as (U1 & U2 & U3).
    assert (Hstep : acc.1 <= acc1.1 <= acc.1 + 1 /\
              (Z.of_nat (length (table acc.2 name)) <= Z.of_nat (length (table acc1.2 name))
                 <= Z.of_nat (length (table acc.2 name)) + (acc1.1 - acc.1)) /\
              (forall x, In x (table acc.2 name) ->
                 exists y, In y (table acc1.2 name) /\ col y "id" = col x "id") /\
              (forall other, other <> name -> acc1.2 !! other = acc.2 !! other) /\
              (sql_accepts acc.2 name r = true ->
                 acc1.1 = acc.1 + 1 /\
                 exists y, In y (table acc1.2 name) /\ col y "id" = col r "id")).
    { subst acc1. destruct (sql_accepts acc.2 name r); cbn [fst snd].
      - rewrite !table_insert.
        split; [lia|]. split; [lia|]. split; [exact U2|]. split.
        + intros other Hne. apply lookup_insert_ne. congruence.
        + intros _. split; [reflexivity|].
          destruct U3 as (y & Hy & Hc & _). eauto.
      - split; [lia|]. split; [lia|]. split; [eauto|]. split; [auto|]. discriminate. }
    destruct Hstep as (S1 & S2 & S3 & S4 & S5).
    split; [lia|]. split; [lia|]. split; [|split].
    + intros x Hx. destruct (S3 x Hx) as (y & Hy & Hc).
      destruct (I3 y Hy) as (z & Hz & Hc'). exists z. split; [exact Hz|congruence].
    + intros other Hne. rewrite I4, S4 by exact Hne. reflexivity.
    + intros Hall. destruct (I5 Hall) as [I6 I7]. destruct (S5 (Hall _ _)) as [S6 (y & Hy & Hc)].
      split; [lia|]. intros r0 [<-|Hin]; [|auto].
      destruct (I3 y Hy) as (z & Hz & Hc'). exists z. split; [exact Hz|congruence].
Qed.

(** A listed column is bound to the row's value for it, NULL when the row
    has none: the value an earlier row left there does not survive. *)
Lemma bound_col columns (r : Row) c :
  In c columns -> col (bound columns r) c = bind_value (col r c).
Proof.
  unfold bound. induction columns as [|c0 cs IH]; intros Hin; [destruct Hin|].
  cbn [map]. rewrite list_to_map_cons. unfold col at 1.
  destruct (String.eqb_spec c0 c) as [->|Hne].
  - rewrite lookup_insert_eq. reflexivity.
  - rewrite lookup_insert_ne by exact Hne. destruct Hin as [E|Hin]; [congruence|].
    apply IH. exact Hin.
Qed.

(** X12. [upsertRows] throws only when it has rows to store and SQLite does
    not compile its statement, and then before it has written anything.
    Otherwise it never removes a row: the table does not shrink and every
    id it held is still there; it grows by at most the number of rows it
    reports, which is at most the number it was given; it writes no other
    table; and when SQLite accepts every row, all are counted and each
    one's bound id is in the table afterwards. *)
Theorem upsertRows_never_deletes (name : string) (rows : list Row)
    (columns : list string) (t : Tables) :
  match upsertRows name rows columns t with
  | Throw _ => rows <> [] /\ sql_prepares name columns = false
  | Ok out =>
      0 <= out.1 <= Z.of_nat (length rows) /\
      (Z.of_nat (length (table t name)) <= Z.of_nat (length (table out.2 name))
         <= Z.of_nat (length (table t name)) + out.1) /\
      (forall x, In x (table t name) ->
         exists y, In y (table out.2 name) /\ col y "id" = col x "id") /\
      (forall other, other <> name -> out.2 !! other = t !! other) /\
      ((forall (t : Tables) r, sql_accepts t name r = true) ->
       out.1 = Z.of_nat (length rows) /\
       (In "id" columns ->
        forall r, In r rows ->
          exists y, In y (table out.2 name) /\ col y "id" = bind_value (col r "id")))
  end.
Proof.
  unfold upsertRows. destruct rows as [|r rows].
  - simpl. split; [lia|]. split; [lia|]. split; [eauto|]. split; [auto|].
    intros _. split; [reflexivity|]. intros _ r [].
  - destruct (sql_prepares name columns); [|split; [discriminate|reflexivity]].
    unfold insertMany.
    pose proof (upsert_fold name (map (bound columns) (r :: rows)) (0, t)) as Hf.
    cbv zeta in Hf. cbn [fst snd] in Hf. rewrite length_map in Hf.
    destruct Hf as (F1 & F2 & F3 & F4 & F5).
    split; [lia|]. split; [lia|]. split; [exact F3|]. split; [exact F4|].
    intros Hall. destruct (F5 Hall) as [F6 F7]. split; [lia|].
    intros Hid r0 Hr0.
    destruct (F7 (bound columns r0) (in_map _ _ _ Hr0)) as (y & Hy & Hc).
    exists y. split; [exact Hy|]. rewrite Hc. apply bound_col. exact Hid.
Qed.

Lemma replace_fold name rows : forall acc : Tables,
  let out := fold_left
               (fun (acc : Tables) r =>
                  if sql_accepts acc name r then <[name := table acc name ++ [r]]> acc
                  else acc)
               rows acc in
  (exists kept, table out name = table acc name ++ kept /\ sublist kept rows /\
     ((forall (t : Tables) r, sql_accepts t name r = true) -> kept = rows)) /\
  (forall other, other <> name -> out !! other = acc !! other).
Proof.
  induction rows as [|r rows IH]; intros acc; simpl.
  - split; [|auto]. exists []. rewrite app_nil_r. repeat split; constructor.
  - destruct (sql_accepts acc name r) eqn:E.
    + destruct (IH (<[name := table acc name ++ [r]]> acc)) as [(kept & Hk & Hs & Ha) Ho].
      split.
      * exists (r :: kept). rewrite table_insert in Hk.
        rewrite Hk, <- app_assoc. split; [reflexivity|].
        split; [constructor; exact Hs|]. intros Hall. rewrite Ha by exact Hall. reflexivity.
      * intros other Hne. rewrite Ho by exact Hne. apply lookup_insert_ne. congruence.
    + destruct (IH acc) as [(kept & Hk & Hs & Ha) Ho]. split; [|exact Ho].
      exists kept. split; [exact Hk|]. split; [apply sublist_cons; exact Hs|].
      intros Hall. rewrite Hall in E. discriminate.
Qed.


End PullStore.

Section PullCycle.
Context `{Runtime} `{EntityCodec}.
Variables (cfg : Config) (net : Net) (now : string).

Ltac break_match :=
  match goal with
  | |- context [match ?x with _ => _ end] => destruct x eqn:?
  end.

Lemma same_outbox_refl db : same_outbox db db.
Proof. repeat split. Qed.

Lemma same_outbox_trans a b c : same_outbox a b -> same_outbox b c -> same_outbox a c.
Proof. unfold same_outbox. intros (-> & -> & ->) (-> & -> & ->). repeat split. Qed.

Lemma store_rows_outbox e data rows db :
  same_outbox db (store_rows now e data rows db).2.
Proof.
  unfold store_rows, same_outbox.
  repeat (break_match; simpl; try tauto).
Qed.

Lemma replace_row_outbox name key r db db1 :
  replace_row name key r db = Ok db1 -> same_outbox db db1.
Proof.
  unfold replace_row. destruct (sql_accepts (tables db) name r); [|discriminate].
  intros [= <-]. repeat split.
Qed.

Lemma terminal_fold_outbox ts : forall s0,
  same_outbox (tl_db s0) (tl_db (fold_left (terminal_turn cfg net) ts s0)).
Proof.
  induction ts as [|t ts IH]; intros s0; cbn [fold_left]; [apply same_outbox_refl|].
  eapply same_outbox_trans; [|apply IH].
  unfold terminal_turn. destruct (tl_thrown s0); [apply same_outbox_refl|].
  destruct (cloud_get cfg net _ _ (tl_log s0)) as [[res|?] log']; [|apply same_outbox_refl].
  destruct (negb (res_ok res)); [apply same_outbox_refl|].
  destruct (negb (truthy (res_data res)) || negb (truthy (field (res_data res) "id")));
    [apply same_outbox_refl|].
  destruct (terminal_settings_cells (res_data res)) as [cells|]; [|apply same_outbox_refl].
  destruct (replace_row "terminal_settings" "terminal_id" cells (tl_db s0)) as [db1|] eqn:Er;
    [|apply same_outbox_refl].
  simpl. eapply replace_row_outbox. exact Er.
Qed.

Lemma pull_entry_outbox p db log :
  same_outbox db (pull_entry cfg net now p db log).1.2.
Proof.
  destruct p as [e| |]; simpl.
  - unfold pull_listed.
    destruct (cloud_get cfg net (e_path e) (cursor_params e db) log) as [[res|msg] log'];
      [|apply same_outbox_refl].
    assert (Hgo : forall data items,
      same_outbox db (match rows_of (e_name e) items with
                      | Throw msg => (Throw msg, db, log')
                      | Ok rows => let '(r, db') := store_rows now e data rows db in (r, db', log')
                      end).1.2).
    { intros data items. destruct (rows_of (e_name e) items) as [rows|];
        [|apply same_outbox_refl].
      pose proof (store_rows_outbox e data rows db) as Hf.
      destruct (store_rows now e data rows db). exact Hf. }
    destruct (res_ok res); [apply Hgo|].
    destruct (e_fetch e);
      [destruct (res_status res =? 404); [apply Hgo|apply same_outbox_refl]| |];
      [destruct (res_status res =? 404)|]; apply same_outbox_refl.
  - unfold pullLocationSettings.
    destruct (cloud_get cfg net _ _ log) as [[res|?] log']; [|apply same_outbox_refl].
    destruct (negb (res_ok res)); [apply same_outbox_refl|].
    destruct (negb (truthy (res_data res)) || negb (truthy (field (res_data res) "id")));
      [apply same_outbox_refl|].
    destruct (replace_row _ _ _ db) as [db1|] eqn:Er; [|apply same_outbox_refl].
    apply replace_row_outbox in Er. simpl. exact Er.
  - unfold pullTerminalSettings.
    destruct (List.filter _ (table (tables db) "terminals")) as [|t ts] eqn:Et;
      [apply same_outbox_refl|].
    match goal with |- context [fold_left ?f ?l ?a] =>
      pose proof (terminal_fold_outbox l a) as Hf; destruct (tl_thrown (fold_left f l a))
    end; simpl in *; exact Hf.
Qed.

Lemma pull_fold_outbox entries : forall st,
  same_outbox (ps_db st) (ps_db (fold_left (pull_turn cfg net now) entries st)).
Proof.
  induction entries as [|p rest IH]; intros st; simpl; [apply same_outbox_refl|].
  eapply same_outbox_trans; [|apply IH].
  unfold pull_turn.
  pose proof (pull_entry_outbox p (ps_db st) (ps_log st)) as Hf.
  destruct (pull_entry cfg net now p (ps_db st) (ps_log st)) as [[r db'] log'].
  exact Hf.
Qed.

(** X14. A pull cycle that starts always runs to the end of the plan,
    whatever the cloud answers and whichever handlers throw: it returns
    one result per plan entity, in plan order, and clears its running
    flag; it never writes the outbox or the receipt counters; and it
    touches no [sync_state] row other than those of the plan's entities. *)
Theorem full_sync_never_aborts (db : Db) (log : list Request) :
  isConfigured cfg = true ->
  let out := runFullSync cfg net now {| pull_running := false |} db log in
  map entity out.1.1.1 = map entry_name plan /\
  length out.1.1.1 = 53%nat /\
  out.1.1.2 = {| pull_running := false |} /\
  same_outbox db out.1.2 /\
  (forall k, ~ In k (map entry_name plan) ->
     sync_state out.1.2 !! k = sync_state db !! k).
Proof.
  intros Hc out. subst out. unfold runFullSync, runFullSync_over.
  cbn [pull_running]. rewrite Hc. cbn [negb fst snd].
  assert (Hn : map entity
                 (ps_results (fold_left (pull_turn cfg net now) plan
                    {| ps_results := []; ps_db := db; ps_log := log |})) =
               map entry_name plan).
  { rewrite pull_fold_results. reflexivity. }
  split; [exact Hn|]. split.
  - rewrite <- (length_map entity), Hn. reflexivity.
  - split; [reflexivity|]. split.
    + apply (pull_fold_outbox plan {| ps_results := []; ps_db := db; ps_log := log |}).
    + intros k Hk.
      apply (pull_fold_frame cfg net now plan k
               {| ps_results := []; ps_db := db; ps_log := log |}). exact Hk.
Qed.

(** X15. When the cloud does not deliver an entity's list (the base URL is
    rejected, the request fails, or the answer is neither 2xx nor 404), the
    handler writes nothing at all: the store is exactly as before, so the
    entity's cursor is not advanced, and the cycle records one result for
    the entity with nothing pulled and a single error. *)
Theorem pull_failure_leaves_store (e : EntityPlan) (st : PullState) :
  URL_ok (e_path e) (baseUrl cfg) = false \/ pull_fails net (e_path e) ->
  let st' := pull_turn cfg net now st (Listed e) in
  ps_db st' = ps_db st /\
  cursor_params e (ps_db st') = cursor_params e (ps_db st) /\
  exists msg,
    ps_results st' =
    ps_results st ++ [{| entity := e_name e; pulled := 0; errors := [msg] |}].
Proof.
  intros Hfail st'. subst st'. unfold pull_turn, pull_entry, pull_listed, cloud_get, cloud_call.
  simpl.
  destruct (URL_ok (e_path e) (baseUrl cfg)) eqn:Hu.
  - destruct Hfail as [Hf|Hf]; [discriminate|].
    match goal with |- context [net ?lg ?rq] =>
      destruct (Hf lg rq eq_refl) as [Hok H404]; set (o := net lg rq) in * end.
    simpl. rewrite Hok.
    assert (E : (res_status (envelope_of o) =? 404) = false) by (apply Z.eqb_neq; exact H404).
    destruct (e_fetch e); rewrite ?E; simpl; (split; [reflexivity|]);
      (split; [reflexivity|]); eexists; reflexivity.
  - simpl. split; [reflexivity|]. split; [reflexivity|]. eexists; reflexivity.
Qed.

End PullCycle.

Section PullCursor.
Context `{Runtime} `{EntityCodec}.
Variables (cfg : Config) (net : Net).

Lemma pull_listed_ok (e : EntityPlan) (t : string) (db : Db) (log : list Request) :
  e_write e = Upsert ->
  sql_prepares (e_name e) (e_columns e) = true ->
  URL_ok (e_path e) (baseUrl cfg) = true ->
  (forall lg rq, req_path rq = e_path e -> digestible (Listed e) (net lg rq)) ->
  (forall data tb, exists tb', side_writes (e_name e) data tb = Ok tb') ->
  exists c db',
    pull_listed cfg net t e db log =
      (Ok {| entity := e_name e; pulled := c; errors := [] |}, db',
       log ++ [{| req_method := GET; req_path := e_path e;
                  req_params := cursor_params e db; req_body := VUndefined |}]) /\
    exists s, sync_state db' !! e_name e = Some s /\ last_synced_at s = Some t /\
              record_count s = c /\ sync_status s = "SUCCESS".
Proof.
  intros Hw Hprep Hu Hnet Hside. unfold pull_listed, cloud_get, cloud_call. simpl. rewrite Hu.
  match goal with |- context [net ?lg ?rq] =>
    destruct (Hnet lg rq eq_refl) as [Hok Hnn]; set (o := net lg rq) in * end.
  simpl in Hnn. rewrite Hok. unfold rows_of. rewrite Hnn.
  unfold store_rows. rewrite Hw.
  assert (Hup : exists ct, upsertRows (e_name e)
                             (map (row_cells (e_name e)) (extractItems (res_data (envelope_of o))))
                             (e_columns e) (tables db) = Ok ct).
  { unfold upsertRows. destruct (map _ _); [eauto|]. rewrite Hprep. eauto. }
  destruct Hup as ([c tb] & ->). cbn [mbind result_bind fst snd].
  destruct (e_side e) eqn:Es.
  - eexists _, _. split; [reflexivity|]. eexists. simpl. rewrite lookup_insert_eq.
    repeat split.
  - destruct (Hside (res_data (envelope_of o)) tb) as (tb' & ->).
    eexists _, _. split; [reflexivity|]. eexists. simpl. rewrite lookup_insert_eq.
    repeat split.
  - simpl.
    match goal with |- context [side_writes ?n ?d ?x] =>
      destruct (Hside d x) as (tb' & ->) end.
    eexists _, _. split; [reflexivity|]. eexists. simpl. rewrite lookup_insert_eq.
    repeat split.
Qed.

(** X16. Incremental sync: when an entity that keeps a cursor, and whose
    upsert statement SQLite compiles, is pulled successfully at time t1 and
    then pulled again, the second request asks the cloud only for what
    changed since t1 ([sinceVersion = t1]), while the first one carried
    whatever cursor the store held before; each successful pull records
    its own time and count in [sync_state]. *)
Theorem incremental_pull (e : EntityPlan) (db : Db) (log : list Request)
    (t1 t2 : string) :
  e_cursor e = true -> e_write e = Upsert ->
  sql_prepares (e_name e) (e_columns e) = true ->
  URL_ok (e_path e) (baseUrl cfg) = true ->
  t1 <> "" ->
  (forall lg rq, req_path rq = e_path e -> digestible (Listed e) (net lg rq)) ->
  (forall data tb, exists tb', side_writes (e_name e) data tb = Ok tb') ->
  let out1 := pull_listed cfg net t1 e db log in
  let out2 := pull_listed cfg net t2 e out1.1.2 out1.2 in
  exists rq1 rq2 r1 r2,
    out2.2 = log ++ [rq1; rq2] /\
    req_params rq1 = cursor_params e db /\
    req_params rq2 = [("sinceVersion", t1)] /\
    out1.1.1 = Ok r1 /\ errors r1 = [] /\
    out2.1.1 = Ok r2 /\ errors r2 = [] /\
    last_synced_at (getSyncState (e_name e) out1.1.2) = Some t1 /\
    last_synced_at (getSyncState (e_name e) out2.1.2) = Some t2 /\
    record_count (getSyncState (e_name e) out2.1.2) = pulled r2.
Proof.
  intros Hc Hw Hprep Hu Ht1 Hnet Hside out1 out2.
  destruct (pull_listed_ok e t1 db log Hw Hprep Hu Hnet Hside)
    as (c1 & db1 & E1 & s1 & Hs1 & Hl1 & _).
  subst out2 out1. rewrite E1. cbn [fst snd].
  destruct (pull_listed_ok e t2 db1 (log ++ [{| req_method := GET; req_path := e_path e;
                  req_params := cursor_params e db; req_body := VUndefined |}])
              Hw Hprep Hu Hnet Hside) as (c2 & db2 & E2 & s2 & Hs2 & Hl2 & Hc2 & _).
  rewrite E2. cbn [fst snd].
  eexists _, _, _, _. split; [rewrite <- app_assoc; reflexivity|].
  split; [reflexivity|]. split.
  - simpl. unfold cursor_params, getSyncState. rewrite Hc, Hs1. simpl. rewrite Hl1.
    destruct (String.eqb t1 "") eqn:E; [apply String.eqb_eq in E; congruence|reflexivity].
  - split; [reflexivity|]. split; [reflexivity|]. split; [reflexivity|].
    split; [reflexivity|]. unfold getSyncState. rewrite Hs1, Hs2. simpl. tauto.
Qed.

End PullCursor.

Section SyncReset.
Variable trim : string -> string.

Lemma reset_fold names : forall (acc : Z * gmap string SyncState),
  let out := fold_left
               (fun (acc : Z * gmap string SyncState) entity =>
                  match acc.2 !! entity with
                  | Some _ => (acc.1 + 1, delete entity acc.2)
                  | None => acc
                  end)
               names acc in
  (forall name, In name names -> out.2 !! name = None) /\
  (forall name, ~ In name names -> out.2 !! name = acc.2 !! name) /\
  (forall name, acc.2 !! name = None -> out.2 !! name = None) /\
  Z.of_nat (size out.2) = Z.of_nat (size acc.2) - (out.1 - acc.1) /\
  acc.1 <= out.1.
Proof.
  induction names as [|n names IH]; intros acc; simpl.
  - split; [tauto|]. split; [reflexivity|]. split; [auto|]. lia.
  - set (acc1 := match acc.2 !! n with
                 | Some _ => (acc.1 + 1, delete n acc.2)
                 | None => acc
                 end).
    destruct (IH acc1) as (I1 & I2 & I3 & I4 & I5). cbv zeta in *.
    assert (Hstep : acc1.2 !! n = None /\
                    (forall name, name <> n -> acc1.2 !! name = acc.2 !! name) /\
                    (forall name, acc.2 !! name = None -> acc1.2 !! name = None) /\
                    Z.of_nat (size acc1.2) = Z.of_nat (size acc.2) - (acc1.1 - acc.1) /\
                    acc.1 <= acc1.1).
    { subst acc1. destruct (acc.2 !! n) as [s|] eqn:E; simpl.
      - split; [apply lookup_delete_eq|]. split.
        + intros name Hne. apply lookup_delete_ne. congruence.
        + split.
          * intros name Hn. destruct (decide (n = name)) as [->|Hne];
              [apply lookup_delete_eq|rewrite lookup_delete_ne by exact Hne; exact Hn].
          * split; [|lia]. rewrite map_size_delete, E.
            assert (size acc.2 <> 0%nat).
            { intros Hz. apply map_size_empty_inv in Hz. rewrite Hz, lookup_empty in E.
              discriminate. }
            simpl. lia.
      - split; [exact E|]. split; [reflexivity|]. split; [auto|]. lia. }
    destruct Hstep as (S1 & S2 & S3 & S4 & S5).
    split; [|split; [|split; [|lia]]].
    + intros name [<-|Hin]; [apply I3; exact S1|apply I1; exact Hin].
    + intros name Hn. rewrite I2 by tauto. apply S2. intros ->. tauto.
    + intros name Hn. apply I3, S3. exact Hn.
Qed.

(** X17. [POST /api/sync/reset] removes the [sync_state] row of every
    entity it is asked to reset (of all entities when no list, or an empty
    one, is given) and of no other, reports how many rows it removed, and
    writes nothing else; an entity that was reset has lost its cursor, so
    its next pull sends no [sinceVersion] and fetches everything. *)
Theorem sync_reset_forces_refetch (entities : option string) (db : Db) :
  let out := post_sync_reset trim entities db in
  (forall name, reset_covers trim entities name -> sync_state out.2 !! name = None) /\
  (forall name, ~ reset_covers trim entities name ->
     sync_state out.2 !! name = sync_state db !! name) /\
  (forall e, reset_covers trim entities (e_name e) -> cursor_params e out.2 = []) /\
  0 <= out.1.1 /\
  Z.of_nat (size (sync_state out.2)) = Z.of_nat (size (sync_state db)) - out.1.1 /\
  same_outbox db out.2 /\ tables out.2 = tables db.
Proof.
  intros out.
  assert (Hall : post_sync_reset trim entities db =
                 (Z.of_nat (size (sync_state db)), None, with_sync_state (fun _ => ∅) db) ->
                 (forall name, reset_covers trim entities name) ->
    (forall name, reset_covers trim entities name -> sync_state out.2 !! name = None) /\
    (forall name, ~ reset_covers trim entities name ->
       sync_state out.2 !! name = sync_state db !! name) /\
    0 <= out.1.1 /\
    Z.of_nat (size (sync_state out.2)) = Z.of_nat (size (sync_state db)) - out.1.1 /\
    same_outbox db out.2 /\ tables out.2 = tables db).
  { intros E Hcov. subst out. rewrite E. simpl.
    split; [intros; apply lookup_empty|]. split; [intros name Hn; destruct (Hn (Hcov name))|].
    split; [lia|]. split; [rewrite map_size_empty; lia|]. repeat split. }
  assert (Hmain :
    (forall name, reset_covers trim entities name -> sync_state out.2 !! name = None) /\
    (forall name, ~ reset_covers trim entities name ->
       sync_state out.2 !! name = sync_state db !! name) /\
    0 <= out.1.1 /\
    Z.of_nat (size (sync_state out.2)) = Z.of_nat (size (sync_state db)) - out.1.1 /\
    same_outbox db out.2 /\ tables out.2 = tables db).
  { destruct entities as [s|]; [|apply Hall; [reflexivity|intros; exact I]].
    destruct (String.eqb s "") eqn:Es.
    - apply Hall.
      + unfold post_sync_reset. rewrite Es. reflexivity.
      + intros name. left. apply String.eqb_eq. exact Es.
    - clear Hall. subst out. unfold post_sync_reset. rewrite Es.
      destruct (reset_fold (map trim (split_commas s)) (0, sync_state db))
        as (R1 & R2 & _ & R4 & R5).
      cbv zeta in *. cbn [fst snd] in *.
      split.
      + intros name [Hs|Hin]; [subst s; discriminate|]. simpl. apply R1. exact Hin.
      + split.
        * intros name Hn. simpl. apply R2. intros Hin. apply Hn. right. exact Hin.
        * split; [lia|]. split; [simpl; lia|]. repeat split. }
  destruct Hmain as (M1 & M2 & M3 & M4 & M5 & M6).
  split; [exact M1|]. split; [exact M2|]. split; [|tauto].
  intros e He. unfold cursor_params, getSyncState. rewrite (M1 _ He). simpl.
  destruct (e_cursor e); reflexivity.
Qed.

End SyncReset.

Lemma full_sync_never_aborts_witness :
  let out := runFullSync (H := demo_runtime) (H0 := demo_codec) demo_cfg
               (net_status 503) "2026-01-01 10:00:00"
               {| pull_running := false |} demo_queue [] in
  length out.1.1.1 = 53%nat /\ outbox_queue out.1.2 = outbox_queue demo_queue.
Proof.
  intros out.
  destruct (@full_sync_never_aborts demo_runtime demo_codec demo_cfg (net_status 503)
              "2026-01-01 10:00:00" demo_queue []) as (_ & Hl & _ & (Ho & _) & _).
  - reflexivity.
  - split; [exact Hl|exact Ho].
Defined.

Lemma pull_failure_leaves_store_witness :
  let st := {| ps_results := []; ps_db := db_synced; ps_log := [] |} in
  let st' := pull_turn (H := demo_runtime) (H0 := demo_codec) demo_cfg
               (net_failing "/api/hub/sync/categories") "2026-01-01 10:00:00"
               st (Listed categories_plan) in
  ps_db st' = db_synced /\
  cursor_params categories_plan (ps_db st') = [("sinceVersion", "2026-01-01 09:00:00")].
Proof.
  intros st st'.
  destruct (@pull_failure_leaves_store demo_runtime demo_codec demo_cfg
              (net_failing "/api/hub/sync/categories") "2026-01-01 10:00:00"
              categories_plan st) as (Hdb & Hcur & _).
  - right. intros lg rq Hp. unfold net_failing. rewrite Hp. simpl.
    split; [reflexivity|discriminate].
  - split; [exact Hdb|]. unfold st'. rewrite Hcur. reflexivity.
Defined.

Lemma incremental_pull_witness :
  let out1 := pull_listed (H := demo_runtime) (H0 := demo_codec) demo_cfg
                (net_status 200) "2026-01-01 10:00:00" categories_plan empty_db [] in
  let out2 := pull_listed (H := demo_runtime) (H0 := demo_codec) demo_cfg
                (net_status 200) "2026-01-01 10:01:00" categories_plan out1.1.2 out1.2 in
  map req_params out2.2 = [[]; [("sinceVersion", "2026-01-01 10:00:00")]].
Proof.
  intros out1 out2.
  destruct (@incremental_pull demo_runtime demo_codec demo_cfg (net_status 200)
              categories_plan empty_db [] "2026-01-01 10:00:00" "2026-01-01 10:01:00")
    as (rq1 & rq2 & r1 & r2 & Hlog & Hp1 & Hp2 & _).
  - reflexivity.
  - reflexivity.
  - reflexivity.
  - reflexivity.
  - discriminate.
  - intros lg rq _. split; reflexivity.
  - intros data tb. exists tb. reflexivity.
  - unfold out2, out1. rewrite Hlog. simpl. rewrite Hp1, Hp2. reflexivity.
Defined.

(** A reset of two entities, spelled with a space after the comma. *)
Example sync_reset_example :
  let out := post_sync_reset trim_spaces (Some "categories, users") db_synced in
  out.1 = (2, Some ["categories"; "users"]) /\
  map fst (map_to_list (sync_state out.2)) = ["products"] /\
  cursor_params categories_plan out.2 = [] /\
  cursor_params products_plan out.2 = [("sinceVersion", "2026-01-01 09:00:01")] /\
  (post_sync_reset trim_spaces (Some "") db_synced).1 = (3, None).
Proof. vm_compute. repeat split; reflexivity. Qed.

(** An empty answer keeps the old rows; a full one replaces them; an
    upsert keeps them and updates in place. *)
Example replaceTable_example :
  let old : Tables := {["pizza_crust_prices" := [{["id" := VStr "old"]}]]} in
  let ids (r : Result Tables) :=
    match r with
    | Ok t => Some (map (fun x => col x "id") (table t "pizza_crust_prices"))
    | Throw _ => None
    end in
  ids (replaceTable (H := demo_runtime) "pizza_crust_prices" [] old) = Some [VStr "old"] /\
  ids (replaceTable (H := demo_runtime) "pizza_crust_prices"
         [{["id" := VStr "a"]}; {["id" := VStr "b"]}] old) = Some [VStr "a"; VStr "b"] /\
  match upsertRows (H := demo_runtime) "pizza_crust_prices"
          [{["id" := VStr "a"]}; {["id" := VStr "old"; "price" := VNum 3]}]
          ["id"; "price"] old with
  | Ok out =>
      out.1 = 2 /\
      map (fun x => (col x "id", col x "price")) (table out.2 "pizza_crust_prices")
      = [(VStr "old", VNum 3); (VStr "a", VNull)]
  | Throw _ => False
  end.
Proof. vm_compute. repeat split; reflexivity. Qed.

Section RecentUsers.
Context `{Runtime}.
Variable cfg : Config.

Lemma remove_first_In x y l : In y (remove_first x l) -> In y l.
Proof.
  induction l as [|z l IH]; simpl; [tauto|].
  destruct (String.eqb z x); simpl; tauto.
Qed.

Lemma remove_first_NoDup x l :
  List.NoDup l -> List.NoDup (remove_first x l) /\ ~ In x (remove_first x l).
Proof.
  induction 1 as [|z l Hz Hl [IH1 IH2]]; simpl; [split; [constructor|tauto]|].
  destruct (String.eqb z x) eqn:E.
  - apply String.eqb_eq in E. subst z. split; assumption.
  - apply String.eqb_neq in E. split.
    + constructor; [|exact IH1]. intros Hin. apply Hz. eapply remove_first_In. exact Hin.
    + simpl. intros [->|Hin]; [congruence|tauto].
Qed.

Lemma NoDup_removelast {A} (l : list A) : List.NoDup l -> List.NoDup (removelast l).
Proof.
  intros Hnd. rewrite removelast_firstn_len.
  rewrite <- (firstn_skipn (Nat.pred (length l)) l) in Hnd.
  apply NoDup_ListNoDup, NoDup_app in Hnd as (Hnd & _).
  apply NoDup_ListNoDup. exact Hnd.
Qed.

Lemma recordRecentUser_spec u l :
  List.NoDup l -> (length l <= MAX_RECENT_USERS)%nat ->
  List.NoDup (recordRecentUser u l) /\
  (length (recordRecentUser u l) <= MAX_RECENT_USERS)%nat /\
  head (recordRecentUser u l) = Some u /\
  (forall x, In x (recordRecentUser u l) -> x = u \/ In x l).
Proof.
  intros Hnd Hlen. unfold recordRecentUser.
  destruct (remove_first_NoDup u l Hnd) as [Hnd1 Hn1].
  pose proof (remove_first_length u l) as Hl1.
  assert (Hnd2 : List.NoDup (u :: remove_first u l)) by (constructor; assumption).
  destruct (MAX_RECENT_USERS <? length (u :: remove_first u l))%nat eqn:E.
  - split; [apply NoDup_removelast; exact Hnd2|]. split; [|split].
    + rewrite removelast_firstn_len, length_firstn. unfold MAX_RECENT_USERS in *.
      simpl in *. lia.
    + apply Nat.ltb_lt in E. unfold MAX_RECENT_USERS in E.
      destruct (remove_first u l) as [|a l']; [simpl in E; lia|reflexivity].
    + intros x Hx.
      assert (Hin : In x (u :: remove_first u l)).
      { rewrite removelast_firstn_len in Hx.
        rewrite <- (firstn_skipn (Nat.pred (length (u :: remove_first u l)))
                      (u :: remove_first u l)).
        apply in_or_app. left. exact Hx. }
      destruct Hin as [<-|Hin]; [left; reflexivity|right; eapply remove_first_In; exact Hin].
  - apply Nat.ltb_ge in E. split; [exact Hnd2|]. split; [exact E|]. split; [reflexivity|].
    intros x [<-|Hin]; [left; reflexivity|right; eapply remove_first_In; exact Hin].
Qed.

(** What the PIN handler does to the recent-user cache. *)
Lemma post_auth_pin_recent rq h :
  recentUserIds (post_auth_pin cfg rq h).2 = recentUserIds h \/
  exists p user,
    pin rq = Some p /\
    find_user p (active_users cfg (hub_db h)) (recentUserIds h) = Some user /\
    recentUserIds (post_auth_pin cfg rq h).2 =
      recordRecentUser (js_id user) (recentUserIds h).
Proof.
  unfold post_auth_pin.
  destruct (pin rq) as [p|] eqn:Hp; [|left; reflexivity].
  destruct (pin_malformed (Some p)); [left; reflexivity|].
  destruct (checkPinRateLimit (at_ms rq) (default "unknown" (ip rq)) (pinAttempts h))
    as [allowed attempts'].
  destruct allowed; simpl; [|left; reflexivity].
  destruct (find_user p (active_users cfg (hub_db h)) (recentUserIds h)) as [user|] eqn:Ef;
    [|left; reflexivity].
  right. exists p, user. split; [reflexivity|]. split; [exact Ef|].
  destruct (match terminalId_field rq with Some t => Some t | None => x_terminal_id rq end)
    as [t|]; [|reflexivity].
  destruct (String.eqb t ""); [reflexivity|].
  destruct (find_row "terminals" (has_id t) (hub_db h)); [|reflexivity].
  match goal with |- context [transaction ?f ?d] => destruct (transaction f d) as [[?|?] ?] end;
    reflexivity.
Qed.

(** X18. Across any run of PIN requests the recent-user cache never holds
    an id twice and never more than five ids, and it only ever gains ids
    of users who have just authenticated: an invariant of the handler, not
    just of [recordRecentUser]. *)
Theorem recent_users_invariant (rqs : list PinRequest) (h : Hub) :
  List.NoDup (recentUserIds h) ->
  (length (recentUserIds h) <= MAX_RECENT_USERS)%nat ->
  let h' := (serve_pins cfg rqs h).2 in
  List.NoDup (recentUserIds h') /\
  (length (recentUserIds h') <= MAX_RECENT_USERS)%nat.
Proof.
  revert h. induction rqs as [|rq rest IH]; intros h Hnd Hlen; [simpl; tauto|].
  cbn [serve_pins].
  pose proof (post_auth_pin_recent rq h) as Hstep.
  destruct (post_auth_pin cfg rq h) as [r h1]. simpl in Hstep.
  specialize (IH h1). destruct (serve_pins cfg rest h1) as [rs h2]. simpl in *.
  apply IH.
  - destruct Hstep as [->|(p & user & _ & _ & ->)]; [exact Hnd|].
    apply recordRecentUser_spec; assumption.
  - destruct Hstep as [->|(p & user & _ & _ & ->)]; [exact Hlen|].
    apply recordRecentUser_spec; assumption.
Qed.

End RecentUsers.

Section PinWindow.
Context `{Runtime}.
Variable cfg : Config.

Lemma post_auth_pin_429 rq h :
  code (post_auth_pin cfg rq h).1 = 429 <->
  pin_malformed (pin rq) = false /\
  (checkPinRateLimit (at_ms rq) (client_ip rq) (pinAttempts h)).1 = false.
Proof.
  unfold post_auth_pin, client_ip.
  destruct (pin rq) as [p|] eqn:Hp; [|simpl; split; [discriminate|intros [? _]; discriminate]].
  destruct (pin_malformed (Some p)); [simpl; split; [discriminate|intros [? _]; discriminate]|].
  destruct (checkPinRateLimit (at_ms rq) (default "unknown" (ip rq)) (pinAttempts h))
    as [allowed attempts'].
  destruct allowed; simpl; [|tauto].
  split; [|intros [_ ?]; discriminate].
  destruct (find_user p (active_users cfg (hub_db h)) (recentUserIds h)); [|discriminate].
  destruct (match terminalId_field rq with Some t => Some t | None => x_terminal_id rq end)
    as [t|]; [|discriminate].
  destruct (String.eqb t ""); [discriminate|].
  destruct (find_row "terminals" (has_id t) (hub_db h)); [|discriminate].
  match goal with |- context [transaction ?f ?d] => destruct (transaction f d) as [[?|?] ?] end;
    discriminate.
Qed.

(** X19. A lock-out ends when the window that started it ends, however
    many attempts were made meanwhile: attempts inside the window, blocked
    or not, never extend it, and the first well-formed attempt at or after
    its end is not answered 429 and opens a fresh window. *)
Theorem pin_lockout_ends (addr : string) (before : list PinRequest) (rq : PinRequest)
    (h : Hub) (first : PinRequest) (rest : list PinRequest) :
  List.filter (attempt_from addr) before = first :: rest ->
  match pinAttempts h !! addr with
  | Some e => resetAt e <= at_ms first
  | None => True
  end ->
  Forall (fun r => at_ms r < at_ms first + PIN_RATE_WINDOW_MS) rest ->
  attempt_from addr rq = true ->
  let h1 := (serve_pins cfg before h).2 in
  pinAttempts h1 !! addr =
    Some {| count := 1 + Z.of_nat (length rest);
            resetAt := at_ms first + PIN_RATE_WINDOW_MS |} /\
  (at_ms first + PIN_RATE_WINDOW_MS <= at_ms rq ->
   code (post_auth_pin cfg rq h1).1 <> 429 /\
   pinAttempts (post_auth_pin cfg rq h1).2 !! addr =
     Some {| count := 1; resetAt := at_ms rq + PIN_RATE_WINDOW_MS |}).
Proof.
  intros Hf Hfresh Hrest Hrq h1.
  assert (Hentry : pinAttempts h1 !! addr =
                   Some {| count := 1 + Z.of_nat (length rest);
                           resetAt := at_ms first + PIN_RATE_WINDOW_MS |}).
  { subst h1. rewrite serve_pins_entry, Hf. cbn [fold_left].
    assert (E : next_entry (at_ms first) (pinAttempts h !! addr) =
                {| count := 1; resetAt := at_ms first + PIN_RATE_WINDOW_MS |}).
    { unfold next_entry. destruct (pinAttempts h !! addr) as [e|]; [|reflexivity].
      assert (E : (resetAt e <=? at_ms first) = true) by (apply Z.leb_le; exact Hfresh).
      rewrite E. reflexivity. }
    rewrite E. apply window_fills. exact Hrest. }
  split; [exact Hentry|]. intros Hlate.
  unfold attempt_from in Hrq. apply andb_true_iff in Hrq as [Hwf Hip].
  apply negb_true_iff in Hwf. apply String.eqb_eq in Hip.
  split.
  - intros H429. apply post_auth_pin_429 in H429 as [_ Hv].
    rewrite checkPinRateLimit_verdict, Hip, Hentry in Hv. simpl in Hv.
    assert (E : (at_ms first + PIN_RATE_WINDOW_MS <=? at_ms rq) = true)
      by (apply Z.leb_le; exact Hlate).
    rewrite E in Hv. discriminate.
  - rewrite post_auth_pin_entry. unfold attempt_from. rewrite Hwf, Hip, String.eqb_refl.
    simpl. rewrite Hentry. unfold next_entry. simpl.
    assert (E : (at_ms first + PIN_RATE_WINDOW_MS <=? at_ms rq) = true)
      by (apply Z.leb_le; exact Hlate).
    rewrite E. reflexivity.
Qed.

Lemma cleanup_lookup t (m : gmap string RateEntry) k :
  cleanup_pinAttempts t m !! k =
  match m !! k with
  | Some e => if bool_decide (t < resetAt e) then Some e else None
  | None => None
  end.
Proof.
  unfold cleanup_pinAttempts. rewrite map_lookup_filter.
  destruct (m !! k) as [e|]; simpl; [|reflexivity].
  unfold guard. case_bool_decide; simpl; destruct (decide _); try reflexivity; tauto.
Qed.

End PinWindow.

Section PinCheck.
Context `{Runtime}.
Variable cfg : Config.

Lemma try_recent_Some p users recent u :
  try_recent p users recent = Some u -> In u users /\ pin_matches p u = true.
Proof.
  induction recent as [|i recent IH]; simpl; [discriminate|].
  destruct (List.find (has_id i) users) as [c|] eqn:Ef; [|exact IH].
  destruct (pin_matches p c) eqn:Em; [|exact IH].
  intros [= <-]. apply find_some in Ef. tauto.
Qed.

Lemma find_user_Some p users recent u :
  find_user p users recent = Some u -> In u users /\ pin_matches p u = true.
Proof.
  unfold find_user. destruct (try_recent p users recent) as [c|] eqn:Et.
  - intros [= <-]. eapply try_recent_Some. exact Et.
  - intros Hf. apply find_some in Hf as [Hin Hm]. apply filter_In in Hin. tauto.
Qed.

(** The reply of a request that reaches the PIN check, by what the search
    finds. *)
Lemma post_auth_pin_checked rq h p :
  pin rq = Some p -> pin_checked rq h ->
  match find_user p (active_users cfg (hub_db h)) (recentUserIds h) with
  | None => (post_auth_pin cfg rq h).1 = reply_error 401 "Invalid PIN"
  | Some user =>
      (code (post_auth_pin cfg rq h).1 = 200 /\
       reply_user_id (post_auth_pin cfg rq h).1 = col user "id" /\
       field (body (post_auth_pin cfg rq h).1) "sessionId" = VStr (new_session rq))
      \/ code (post_auth_pin cfg rq h).1 = 500
  end.
Proof.
  intros Hp [Hwf Hv]. unfold post_auth_pin. unfold client_ip in Hv. rewrite Hp in *.
  rewrite Hwf.
  destruct (checkPinRateLimit (at_ms rq) (default "unknown" (ip rq)) (pinAttempts h))
    as [allowed attempts']. simpl in Hv. subst allowed. simpl.
  destruct (find_user p (active_users cfg (hub_db h)) (recentUserIds h)) as [user|];
    [|reflexivity].
  destruct (match terminalId_field rq with Some t => Some t | None => x_terminal_id rq end)
    as [t|]; [|left; repeat split].
  destruct (String.eqb t ""); [left; repeat split|].
  destruct (find_row "terminals" (has_id t) (hub_db h)); [|left; repeat split].
  match goal with |- context [transaction ?f ?d] => destruct (transaction f d) as [[?|?] ?] end;
    [left; repeat split|right; reflexivity].
Qed.

(** X20. The PIN check is sound whatever the recent-user cache holds and
    in whatever order the candidates are tried: a request that reaches the
    check with a PIN matching no active user of the tenant is answered 401
    'Invalid PIN', and a 200 reply names an active user of the tenant
    whose hash matches the PIN. *)
Theorem pin_auth_sound (rq : PinRequest) (h : Hub) (p : string) :
  pin rq = Some p -> pin_checked rq h ->
  let r := (post_auth_pin cfg rq h).1 in
  ((forall u, In u (active_users cfg (hub_db h)) -> pin_matches p u = false) ->
   r = reply_error 401 "Invalid PIN") /\
  (code r = 200 ->
   exists u, In u (active_users cfg (hub_db h)) /\ pin_matches p u = true /\
             reply_user_id r = col u "id").
Proof.
  intros Hp Hck r. subst r.
  pose proof (post_auth_pin_checked rq h p Hp Hck) as Hr.
  destruct (find_user p (active_users cfg (hub_db h)) (recentUserIds h)) as [user|] eqn:Ef.
  - apply find_user_Some in Ef as [Hin Hm]. split.
    + intros Hnone. rewrite (Hnone user Hin) in Hm. discriminate.
    + intros H200. destruct Hr as [(_ & Hid & _)|H500]; [|congruence].
      exists user. tauto.
  - rewrite Hr. split; [reflexivity|]. simpl. discriminate.
Qed.

End PinCheck.

Section Cleanup.
Context `{Runtime}.
Variable cfg : Config.

Lemma cleanup_check t now addr (m : gmap string RateEntry) :
  t <= now ->
  (checkPinRateLimit now addr (cleanup_pinAttempts t m)).1 =
    (checkPinRateLimit now addr m).1 /\
  (checkPinRateLimit now addr (cleanup_pinAttempts t m)).2 !! addr =
    (checkPinRateLimit now addr m).2 !! addr.
Proof.
  intros Ht. rewrite !checkPinRateLimit_verdict, !checkPinRateLimit_self, cleanup_lookup.
  destruct (m !! addr) as [e|]; [|tauto].
  case_bool_decide; [tauto|].
  assert (E : (resetAt e <=? now) = true) by (apply Z.leb_le; lia).
  unfold next_entry. rewrite E. simpl. tauto.
Qed.

(** X21. The ten-minute timer that drops expired rate-limit buckets
    cannot be observed: it removes only buckets whose window is over, and
    any PIN request served afterwards gets the same reply and leaves the
    same store and the same recent-user cache as if the timer had not run,
    and, when it counts as an attempt, the same bucket for its address. *)
Theorem cleanup_is_unobservable (t : Z) (rq : PinRequest) (h : Hub) :
  t <= at_ms rq ->
  let a := post_auth_pin cfg rq (run_cleanup t h) in
  let b := post_auth_pin cfg rq h in
  a.1 = b.1 /\ hub_db a.2 = hub_db b.2 /\ recentUserIds a.2 = recentUserIds b.2 /\
  (pin_malformed (pin rq) = false ->
   pinAttempts a.2 !! client_ip rq = pinAttempts b.2 !! client_ip rq) /\
  (forall k e, pinAttempts (run_cleanup t h) !! k = Some e ->
     pinAttempts h !! k = Some e /\ t < resetAt e).
Proof.
  intros Ht a b.
  destruct (cleanup_check t (at_ms rq) (client_ip rq) (pinAttempts h) Ht) as [Hv Hs].
  assert (Hlast : forall k e, pinAttempts (run_cleanup t h) !! k = Some e ->
                    pinAttempts h !! k = Some e /\ t < resetAt e).
  { intros k e. simpl. rewrite cleanup_lookup.
    destruct (pinAttempts h !! k) as [e0|]; [|discriminate].
    case_bool_decide; [|discriminate]. intros [= <-]. tauto. }
  assert (Hbucket : pin_malformed (pin rq) = false ->
            pinAttempts a.2 !! client_ip rq = pinAttempts b.2 !! client_ip rq).
  { intros Hm. subst a b. rewrite !post_auth_pin_attempts, Hm. exact Hs. }
  split; [|split; [|split; [|split; [exact Hbucket|exact Hlast]]]];
    subst a b; unfold post_auth_pin, run_cleanup; unfold client_ip in Hv; simpl;
    (destruct (pin rq) as [p|]; [|reflexivity]);
    (destruct (pin_malformed (Some p)); [reflexivity|]);
    destruct (checkPinRateLimit (at_ms rq) (default "unknown" (ip rq))
                (cleanup_pinAttempts t (pinAttempts h))) as [a1 m1];
    destruct (checkPinRateLimit (at_ms rq) (default "unknown" (ip rq)) (pinAttempts h))
      as [a2 m2];
    simpl in Hv; subst a2; (destruct a1; simpl; [|reflexivity]);
    (destruct (find_user p (active_users cfg (hub_db h)) (recentUserIds h)); [|reflexivity]);
    (destruct (match terminalId_field rq with Some t => Some t | None => x_terminal_id rq end)
       as [tm|]; [|reflexivity]);
    (destruct (String.eqb tm ""); [reflexivity|]);
    (destruct (find_row "terminals" (has_id tm) (hub_db h)); [|reflexivity]);
    match goal with |- context [transaction ?f ?d] => destruct (transaction f d) as [[?|?] ?] end;
    reflexivity.
Qed.

End Cleanup.

Section Sessions.
Context `{Runtime}.
Variable cfg : Config.

Lemma has_id_set_cols cs i r :
  ~ In "id" (map fst cs) -> has_id i (set_cols cs r) = has_id i r.
Proof. intros Hn. unfold has_id. rewrite col_set_cols_other by exact Hn. reflexivity. Qed.

Lemma logout_rows sid now (rows : list Row) sid' :
  let rows' := map (fun r => if has_id sid r
                             then set_cols [("is_active", VNum 0); ("ended_at", VStr now)] r
                             else r) rows in
  List.filter (session_active sid) rows' = [] /\
  (sid' <> sid -> List.find (session_active sid') rows' = None <->
                  List.find (session_active sid') rows = None).
Proof.
  induction rows as [|r rows [IH1 IH2]]; simpl; [tauto|].
  assert (Hid : forall i, has_id i (set_cols [("is_active", VNum 0); ("ended_at", VStr now)] r)
                          = has_id i r).
  { intros i. apply has_id_set_cols. simpl. intuition discriminate. }
  destruct (has_id sid r) eqn:E.
  - split.
    + assert (Hoff : session_active sid
                       (set_cols [("is_active", VNum 0); ("ended_at", VStr now)] r) = false).
      { unfold session_active. apply andb_false_iff. right.
        unfold set_cols, col. simpl.
        rewrite lookup_insert_ne by discriminate. rewrite lookup_insert_eq. reflexivity. }
      rewrite Hoff. exact IH1.
    + intros Hne.
      assert (Hr : has_id sid' r = false).
      { unfold has_id, JsVal_is_str in *. destruct (col r "id"); try reflexivity.
        apply String.eqb_eq in E. subst. apply String.eqb_neq. congruence. }
      unfold session_active at 1 3. rewrite Hid, Hr. simpl. apply IH2. exact Hne.
  - split.
    + unfold session_active at 1. rewrite E. simpl. exact IH1.
    + intros Hne. destruct (session_active sid' r); [tauto|]. apply IH2. exact Hne.
Qed.

(** X22. Logging out closes the session for good: afterwards the
    middleware answers 401 'Invalid or expired session' to that session id
    on every protected route and the session route answers 401, while what
    the middleware decides for any other session id is unchanged. *)
Theorem logout_closes_session (sid now : string) (h : Hub) :
  sid <> "" ->
  let h' := (post_logout (Some sid) now h).2 in
  (forall url, isPublicRoute url = false ->
     auth_hook url (Some sid) h' = Some (reply_error 401 "Invalid or expired session")) /\
  get_session (Some sid) h' = reply_error 401 "Invalid or expired session" /\
  (forall url sid', sid' <> sid ->
     auth_hook url (Some sid') h' = auth_hook url (Some sid') h).
Proof.
  intros Hne h'. apply String.eqb_neq in Hne as Hne'.
  assert (Ht : table (tables (hub_db h')) "terminal_sessions" =
               map (fun r => if has_id sid r
                             then set_cols [("is_active", VNum 0); ("ended_at", VStr now)] r
                             else r) (table (tables (hub_db h)) "terminal_sessions")).
  { subst h'. unfold post_logout. rewrite Hne'. simpl. unfold update_where.
    apply table_insert. }
  assert (Hu : table (tables (hub_db h')) "users" = table (tables (hub_db h)) "users").
  { subst h'. unfold post_logout. rewrite Hne'. simpl. unfold update_where, table.
    rewrite lookup_insert_ne by discriminate. reflexivity. }
  split; [|split].
  - intros url Hp. unfold auth_hook, find_row. rewrite Hp, Hne', Ht.
    destruct (logout_rows sid now (table (tables (hub_db h)) "terminal_sessions") sid)
      as [Hnone _]. cbv zeta in Hnone.
    match goal with |- context [List.find ?p ?l] => destruct (List.find p l) as [r|] eqn:Ef end;
      [|reflexivity].
    apply find_some in Ef.
    assert (Hin : In r (List.filter (session_active sid)
                          (map (fun r => if has_id sid r
                                         then set_cols [("is_active", VNum 0);
                                                        ("ended_at", VStr now)] r
                                         else r)
                               (table (tables (hub_db h)) "terminal_sessions"))))
      by (apply filter_In; exact Ef).
    rewrite Hnone in Hin. destruct Hin.
  - unfold get_session. rewrite Hne', Ht.
    destruct (logout_rows sid now (table (tables (hub_db h)) "terminal_sessions") sid)
      as [Hnone _]. cbv zeta in Hnone. rewrite Hnone. reflexivity.
  - intros url sid' Hs. unfold auth_hook, find_row.
    destruct (isPublicRoute url); [reflexivity|].
    destruct (String.eqb sid' ""); [reflexivity|]. rewrite Ht.
    destruct (logout_rows sid now (table (tables (hub_db h)) "terminal_sessions") sid')
      as [_ Hiff]. cbv zeta in Hiff. specialize (Hiff Hs).
    destruct (List.find (session_active sid') (map _ _)) as [r1|] eqn:E1;
      destruct (List.find (session_active sid') (table _ _)) as [r2|] eqn:E2;
      try reflexivity.
    + destruct Hiff as [_ Hb]. specialize (Hb eq_refl). discriminate.
    + destruct Hiff as [Ha _]. specialize (Ha eq_refl). discriminate.
Qed.

(** X23. A PIN login always answers with a session id, but it stores a
    session only when the request names a terminal the hub knows.
    Without one the store is left as it was, so the id it returned is no
    session: unless that id already was an active session, the middleware
    answers 401 to it on every protected route. *)
Theorem login_without_terminal_has_no_session (rq : PinRequest) (h : Hub) :
  match pin_terminal rq with
  | Some t => t = "" \/ find_row "terminals" (has_id t) (hub_db h) = None
  | None => True
  end ->
  let out := post_auth_pin cfg rq h in
  hub_db out.2 = hub_db h /\
  (code out.1 = 200 ->
   field (body out.1) "sessionId" = VStr (new_session rq) /\
   forall url,
     isPublicRoute url = false ->
     find_row "terminal_sessions" (session_active (new_session rq)) (hub_db h) = None ->
     exists r, auth_hook url (Some (new_session rq)) out.2 = Some r /\ code r = 401).
Proof.
  intros Hterm out.
  assert (Hdb : hub_db out.2 = hub_db h /\
                (code out.1 = 200 ->
                 field (body out.1) "sessionId" = VStr (new_session rq))).
  { subst out. unfold post_auth_pin. unfold pin_terminal in Hterm.
    destruct (pin rq) as [p|]; [|split; [reflexivity|discriminate]].
    destruct (pin_malformed (Some p)); [split; [reflexivity|discriminate]|].
    destruct (checkPinRateLimit (at_ms rq) (default "unknown" (ip rq)) (pinAttempts h))
      as [allowed attempts'].
    destruct allowed; simpl; [|split; [reflexivity|discriminate]].
    destruct (find_user p (active_users cfg (hub_db h)) (recentUserIds h));
      [|split; [reflexivity|discriminate]].
    destruct (match terminalId_field rq with Some t => Some t | None => x_terminal_id rq end)
      as [t|]; [|split; reflexivity].
    destruct (String.eqb t "") eqn:Et; [split; reflexivity|].
    destruct Hterm as [->|Hnone]; [discriminate|]. rewrite Hnone. split; reflexivity. }
  destruct Hdb as [Hdb Hsid]. split; [exact Hdb|].
  intros H200. split; [apply Hsid; exact H200|].
  intros url Hp Hnone. unfold auth_hook. rewrite Hp, Hdb, Hnone.
  destruct (String.eqb (new_session rq) ""); eexists; split; reflexivity.
Qed.

(** X24. A PIN login that names a known terminal and is answered 200 has
    stored its session: the middleware lets the returned session id through
    on every route, and, the id being new, the session route answers 200
    for it with the id of the user who logged in. *)
Theorem login_opens_session (rq : PinRequest) (h : Hub) (t uid : string) :
  pin_terminal rq = Some t -> t <> "" ->
  is_Some (find_row "terminals" (has_id t) (hub_db h)) ->
  new_session rq <> "" ->
  let out := post_auth_pin cfg rq h in
  code out.1 = 200 ->
  reply_user_id out.1 = VStr uid ->
  (forall url, auth_hook url (Some (new_session rq)) out.2 = None) /\
  (List.filter (has_id (new_session rq))
     (table (tables (hub_db h)) "terminal_sessions") = [] ->
   code (get_session (Some (new_session rq)) out.2) = 200 /\
   field (body (get_session (Some (new_session rq)) out.2)) "sessionId"
     = VStr (new_session rq) /\
   reply_user_id (get_session (Some (new_session rq)) out.2) = VStr uid).
Proof.
  intros Hterm Ht [trow Htrow] Hsid out H200 Huid.
  apply String.eqb_neq in Ht as Ht'. apply String.eqb_neq in Hsid as Hsid'.
  (* what the committed transaction left *)
  assert (Hshape : exists user,
            In user (table (tables (hub_db h)) "users") /\ col user "id" = VStr uid /\
            table (tables (hub_db out.2)) "terminal_sessions" =
              table (tables (hub_db h)) "terminal_sessions" ++
              [list_to_map
                 [("id", VStr (new_session rq)); ("terminal_id", VStr t);
                  ("user_id", col user "id"); ("user_name", col user "name");
                  ("started_at", VStr (at_sql rq)); ("is_active", VNum 1)]] /\
            table (tables (hub_db out.2)) "users" = table (tables (hub_db h)) "users").
  { subst out. revert H200 Huid. unfold post_auth_pin. unfold pin_terminal in Hterm.
    destruct (pin rq) as [p|]; [|discriminate].
    destruct (pin_malformed (Some p)); [discriminate|].
    destruct (checkPinRateLimit (at_ms rq) (default "unknown" (ip rq)) (pinAttempts h))
      as [allowed attempts'].
    destruct allowed; simpl; [|discriminate].
    destruct (find_user p (active_users cfg (hub_db h)) (recentUserIds h)) as [user|] eqn:Ef;
      [|discriminate].
    rewrite Hterm, Ht', Htrow.
    unfold transaction, mbind, result_bind, insert_row.
    destruct (sql_accepts (tables (hub_db h)) "terminal_sessions" _); [|discriminate].
    simpl. intros _ Huid. exists user.
    apply find_user_Some in Ef as [Hin _]. unfold active_users in Hin.
    apply filter_In in Hin as [Hin _].
    split; [exact Hin|]. split; [exact Huid|].
    unfold update_where, table. split.
    - rewrite lookup_insert_ne by discriminate. rewrite lookup_insert_eq. reflexivity.
    - rewrite !lookup_insert_ne by discriminate. reflexivity. }
  destruct Hshape as (user & Huser & Hcol & Hts & Hus).
  set (row := list_to_map
                [("id", VStr (new_session rq)); ("terminal_id", VStr t);
                 ("user_id", col user "id"); ("user_name", col user "name");
                 ("started_at", VStr (at_sql rq)); ("is_active", VNum 1)] : Row) in *.
  assert (Hrow : session_active (new_session rq) row = true).
  { unfold session_active, has_id, col, row. simpl.
    rewrite lookup_insert_eq. simpl. rewrite String.eqb_refl.
    rewrite !lookup_insert_ne by discriminate. rewrite lookup_insert_eq.
    reflexivity. }
  assert (Hrowuser : col row "user_id" = VStr uid /\ col row "id" = VStr (new_session rq)).
  { unfold col, row. simpl. rewrite lookup_insert_eq. simpl.
    rewrite !lookup_insert_ne by discriminate. rewrite lookup_insert_eq. simpl.
    tauto. }
  split.
  - intros url. unfold auth_hook, find_row. destruct (isPublicRoute url); [reflexivity|].
    rewrite Hsid', Hts.
    destruct (List.find (session_active (new_session rq))
                (table (tables (hub_db h)) "terminal_sessions" ++ [row])) eqn:Ef;
      [reflexivity|].
    pose proof (find_none _ _ Ef row) as Hn.
    rewrite Hrow in Hn. discriminate Hn. apply in_or_app. right. left. reflexivity.
  - intros Hfresh. unfold get_session. rewrite Hsid', Hts, Hus.
    assert (Hold : List.filter (session_active (new_session rq))
                     (table (tables (hub_db h)) "terminal_sessions") = []).
    { revert Hfresh. generalize (table (tables (hub_db h)) "terminal_sessions").
      induction l as [|x l IH]; simpl; [reflexivity|].
      unfold session_active at 1. destruct (has_id (new_session rq) x); [discriminate|].
      simpl. exact IH. }
    rewrite List.filter_app, Hold. simpl. rewrite Hrow. simpl. rewrite app_nil_r.
    destruct Hrowuser as [Hru Hri]. rewrite Hru.
    destruct (List.filter (fun u => key_eqb (col u "id") (VStr uid))
                (table (tables (hub_db h)) "users")) as [|u0 us] eqn:Eu.
    + exfalso.
      assert (Hin : In user (List.filter (fun u => key_eqb (col u "id") (VStr uid))
                               (table (tables (hub_db h)) "users"))).
      { apply filter_In. split; [exact Huser|]. rewrite Hcol. simpl. apply String.eqb_refl. }
      rewrite Eu in Hin. destruct Hin.
    + simpl. unfold reply_user_id. simpl. rewrite Hri. repeat split. exact Hru.
Qed.

End Sessions.

Section UserAdmin.
Context `{Runtime}.
Variable cfg : Config.

Lemma no_match_401 rq h p :
  pin rq = Some p -> pin_checked rq h ->
  (forall u, In u (active_users cfg (hub_db h)) -> pin_matches p u = false) ->
  code (post_auth_pin cfg rq h).1 = 401.
Proof.
  intros Hp Hck Hnone.
  pose proof (post_auth_pin_checked cfg rq h p Hp Hck) as Hr.
  destruct (find_user p (active_users cfg (hub_db h)) (recentUserIds h)) as [user|] eqn:Ef.
  - apply find_user_Some in Ef as [Hin Hm]. rewrite (Hnone user Hin) in Hm. discriminate.
  - rewrite Hr. reflexivity.
Qed.

(** The [users] table after a committed change of PIN. *)
Lemma change_pin_users userId newPin now h :
  code (post_change_pin cfg userId newPin now h).1 = 200 ->
  table (tables (hub_db (post_change_pin cfg userId newPin now h).2)) "users" =
  map (fun r => if has_id userId r
                then set_cols [("pin_hash", VStr (bcrypt_hashSync newPin));
                               ("updated_at", VStr now)] r
                else r)
      (table (tables (hub_db h)) "users").
Proof.
  unfold post_change_pin.
  destruct (find_row "users" _ (hub_db h)); [|discriminate].
  unfold transaction, mbind, result_bind, enqueue_stmt. simpl.
  destruct (sql_accepts _ "outbox_queue" _); [|discriminate].
  intros _. simpl. unfold update_where. apply table_insert.
Qed.

(** X25. A changed PIN takes effect at once, although the recent-user
    cache is not cleared: after a committed change, a PIN that bcrypt does
    not match against the new hash no longer logs that user in (it is
    answered 401 unless it is some other user's PIN), and a login with a
    PIN that is no other user's is a login of that user, with a PIN that
    matches the new hash. *)
Theorem change_pin_takes_effect (userId newPin now : string) (rq : PinRequest)
    (h : Hub) (p : string) :
  let out := post_change_pin cfg userId newPin now h in
  code out.1 = 200 ->
  pin rq = Some p -> pin_checked rq out.2 ->
  (forall u, In u (active_users cfg (hub_db h)) -> has_id userId u = false ->
     pin_matches p u = false) ->
  (bcrypt_compare p (bcrypt_hashSync newPin) <> Some true ->
   code (post_auth_pin cfg rq out.2).1 = 401) /\
  (code (post_auth_pin cfg rq out.2).1 = 200 ->
   bcrypt_compare p (bcrypt_hashSync newPin) = Some true /\
   reply_user_id (post_auth_pin cfg rq out.2).1 = VStr userId) /\
  recentUserIds out.2 = recentUserIds h.
Proof.
  intros out H200 Hp Hck Hothers.
  pose proof (change_pin_users userId newPin now h H200) as Hus. fold out in Hus.
  set (upd := set_cols [("pin_hash", VStr (bcrypt_hashSync newPin)); ("updated_at", VStr now)]).
  assert (Hupd_id : forall i r, has_id i (upd r) = has_id i r).
  { intros i r. apply has_id_set_cols. simpl. intuition discriminate. }
  assert (Hupd_hash : forall r, col (upd r) "pin_hash" = VStr (bcrypt_hashSync newPin)).
  { intros r. unfold upd, set_cols, col. simpl.
    rewrite lookup_insert_ne by discriminate. rewrite lookup_insert_eq. reflexivity. }
  (* an active user after the change is the changed user or an old active user *)
  assert (Hactive : forall u', In u' (active_users cfg (hub_db out.2)) ->
            (has_id userId u' = true /\ col u' "pin_hash" = VStr (bcrypt_hashSync newPin)) \/
            (has_id userId u' = false /\ In u' (active_users cfg (hub_db h)))).
  { intros u' Hin. unfold active_users in Hin. rewrite Hus in Hin.
    apply filter_In in Hin as [Hin Hact]. apply in_map_iff in Hin as (r & <- & Hr).
    fold upd. destruct (has_id userId r) eqn:E.
    - left. split; [rewrite <- E; apply Hupd_id|apply Hupd_hash].
    - right. split; [exact E|]. unfold active_users. apply filter_In. tauto. }
  split; [|split].
  - intros Hno. apply (no_match_401 rq out.2 p Hp Hck).
    intros u' Hin. destruct (Hactive u' Hin) as [[_ Hh]|[Hid Hold]].
    + unfold pin_matches. rewrite Hh.
      destruct (bcrypt_compare p (bcrypt_hashSync newPin)) as [[|]|]; try reflexivity.
      congruence.
    + apply Hothers; assumption.
  - intros Hc. pose proof (post_auth_pin_checked cfg rq out.2 p Hp Hck) as Hr.
    destruct (find_user p (active_users cfg (hub_db out.2)) (recentUserIds out.2))
      as [user|] eqn:Ef; [|rewrite Hr in Hc; discriminate].
    apply find_user_Some in Ef as [Hin Hm].
    destruct Hr as [(_ & Hrid & _)|Hc5]; [|congruence].
    rewrite Hrid. destruct (Hactive user Hin) as [[Hi Hh]|[Hi Hold]].
    + split.
      * unfold pin_matches in Hm. rewrite Hh in Hm.
        destruct (bcrypt_compare p (bcrypt_hashSync newPin)) as [[|]|];
          [reflexivity|discriminate|discriminate].
      * unfold has_id, JsVal_is_str in Hi. destruct (col user "id"); try discriminate.
        apply String.eqb_eq in Hi. subst. reflexivity.
    + rewrite (Hothers user Hold Hi) in Hm. discriminate.
  - subst out. unfold post_change_pin.
    destruct (find_row "users" _ (hub_db h)); [|reflexivity].
    match goal with |- context [transaction ?f ?d] =>
      destruct (transaction f d) as [[?|?] ?] end; reflexivity.
Qed.

(** The [users] table after a committed toggle of an active user. *)
Lemma toggle_users userId now h user :
  find_row "users"
    (fun u => has_id userId u
              && JsVal_is_str (col u "tenant_id") (default "" (tenantId cfg))) (hub_db h)
    = Some user ->
  truthy (col user "is_active") = true ->
  code (post_toggle_active cfg userId now h).1 = 200 ->
  table (tables (hub_db (post_toggle_active cfg userId now h).2)) "users" =
  map (fun r => if has_id userId r
                then set_cols [("is_active", VNum 0); ("updated_at", VStr now)] r
                else r)
      (table (tables (hub_db h)) "users") /\
  recentUserIds (post_toggle_active cfg userId now h).2 = recentUserIds h /\
  exists row,
    outbox_queue (hub_db (post_toggle_active cfg userId now h).2) =
      outbox_queue (hub_db h) ++ [row] /\
    entity_type row = "user" /\ entity_id row = userId /\ action row = "toggle_active".
Proof.
  unfold post_toggle_active. intros -> ->.
  unfold transaction, mbind, result_bind, enqueue_stmt. simpl.
  destruct (sql_accepts _ "outbox_queue" _); [|discriminate].
  intros _. simpl. split; [unfold update_where; apply table_insert|].
  split; [reflexivity|]. eexists. split; [reflexivity|]. repeat split.
Qed.

(** X26. Deactivating a user locks them out at once, cached or not: after
    a committed toggle of an active user, a PIN that matches nobody else
    is answered 401 even while the user's id is still in the recent-user
    cache; and the toggle queues one 'user' / 'toggle_active' outbox row. *)
Theorem deactivated_user_cannot_log_in (userId now : string) (rq : PinRequest)
    (h : Hub) (p : string) (user : Row) :
  find_row "users"
    (fun u => has_id userId u
              && JsVal_is_str (col u "tenant_id") (default "" (tenantId cfg))) (hub_db h)
    = Some user ->
  truthy (col user "is_active") = true ->
  let out := post_toggle_active cfg userId now h in
  code out.1 = 200 ->
  pin rq = Some p -> pin_checked rq out.2 ->
  (forall u, In u (active_users cfg (hub_db h)) -> has_id userId u = false ->
     pin_matches p u = false) ->
  code (post_auth_pin cfg rq out.2).1 = 401 /\
  recentUserIds out.2 = recentUserIds h /\
  field (body out.1) "isActive" = VBool false /\
  exists row,
    outbox_queue (hub_db out.2) = outbox_queue (hub_db h) ++ [row] /\
    entity_type row = "user" /\ entity_id row = userId /\ action row = "toggle_active".
Proof.
  intros Hfind Hact out H200 Hp Hck Hothers.
  destruct (toggle_users userId now h user Hfind Hact H200) as (Hus & Hrec & Hrow).
  fold out in Hus, Hrec, Hrow.
  split; [|split; [exact Hrec|split; [|exact Hrow]]].
  - apply (no_match_401 rq out.2 p Hp Hck).
    intros u' Hin. unfold active_users in Hin. rewrite Hus in Hin.
    apply filter_In in Hin as [Hin Hactive]. apply in_map_iff in Hin as (r & <- & Hr).
    destruct (has_id userId r) eqn:E.
    + exfalso. revert Hactive. unfold set_cols, col. simpl.
      rewrite (lookup_insert_ne _ "updated_at" "is_active") by discriminate.
      rewrite lookup_insert_eq. simpl. rewrite andb_false_r. discriminate.
    + apply Hothers; [|exact E]. unfold active_users. apply filter_In. tauto.
  - subst out. unfold post_toggle_active in *. rewrite Hfind, Hact in *.
    revert H200. match goal with |- context [transaction ?f ?d] =>
      destruct (transaction f d) as [[?|?] ?] end; [reflexivity|discriminate].
Qed.

End UserAdmin.

Section AuthExamples.

Lemma recent_users_invariant_witness :
  let h' := (serve_pins (H := demo_runtime) demo_cfg
               [demo_pin_request 0 "5678"; demo_pin_request 1 "1234";
                demo_pin_request 2 "5678"] demo_hub).2 in
  List.NoDup (recentUserIds h') /\ (length (recentUserIds h') <= MAX_RECENT_USERS)%nat /\
  recentUserIds h' = ["u2"; "u1"].
Proof.
  intros h'.
  destruct (@recent_users_invariant demo_runtime demo_cfg
              [demo_pin_request 0 "5678"; demo_pin_request 1 "1234";
               demo_pin_request 2 "5678"] demo_hub) as [Hnd Hlen].
  - simpl. constructor; [simpl; tauto|constructor].
  - simpl. unfold MAX_RECENT_USERS. lia.
  - split; [exact Hnd|]. split; [exact Hlen|]. vm_compute. reflexivity.
Defined.

Lemma pin_lockout_ends_witness :
  let h1 := (serve_pins (H := demo_runtime) demo_cfg
               (ten_wrong_pins ++ [demo_pin_request 10 "0000"; demo_pin_request 11 "1234"])
               empty_hub).2 in
  pinAttempts h1 !! "10.0.0.5" = Some {| count := 12; resetAt := 300000 |} /\
  code (post_auth_pin (H := demo_runtime) demo_cfg (demo_pin_request 300000 "0000") h1).1
    <> 429.
Proof.
  intros h1.
  destruct (@pin_lockout_ends demo_runtime demo_cfg "10.0.0.5"
              (ten_wrong_pins ++ [demo_pin_request 10 "0000"; demo_pin_request 11 "1234"])
              (demo_pin_request 300000 "0000") empty_hub
              (demo_pin_request 0 "0000")
              (map (fun t => demo_pin_request t "0000") [1; 2; 3; 4; 5; 6; 7; 8; 9; 10]
               ++ [demo_pin_request 11 "1234"]))
    as [He Hl].
  - reflexivity.
  - simpl. exact I.
  - repeat constructor.
  - reflexivity.
  - split; [exact He|]. apply Hl. vm_compute. discriminate.
Defined.

Lemma pin_auth_sound_witness :
  code (post_auth_pin (H := demo_runtime) demo_cfg (demo_pin_request 0 "5678") demo_hub).1
    = 200 /\
  (post_auth_pin (H := demo_runtime) demo_cfg (demo_pin_request 0 "9999") demo_hub).1
    = reply_error 401 "Invalid PIN".
Proof.
  destruct (@pin_auth_sound demo_runtime demo_cfg (demo_pin_request 0 "9999") demo_hub "9999")
    as [H401 _].
  - reflexivity.
  - split; reflexivity.
  - split; [reflexivity|]. apply H401.
    intros u [<-|[<-|[]]]; reflexivity.
Defined.

Lemma cleanup_is_unobservable_witness :
  let h := (serve_pins (H := demo_runtime) demo_cfg ten_wrong_pins demo_hub).2 in
  let rq := demo_pin_request 400000 "1234" in
  (post_auth_pin (H := demo_runtime) demo_cfg rq (run_cleanup 350000 h)).1
    = (post_auth_pin (H := demo_runtime) demo_cfg rq h).1 /\
  pinAttempts (run_cleanup 350000 h) = ∅.
Proof.
  intros h rq.
  destruct (@cleanup_is_unobservable demo_runtime demo_cfg 350000 rq h) as (Hr & _).
  - simpl. lia.
  - split; [exact Hr|]. vm_compute. reflexivity.
Defined.

Lemma login_opens_session_witness :
  let out := post_auth_pin (H := demo_runtime) demo_cfg
               (demo_pin_at 0 "1234" (Some "term1")) demo_hub_with_terminal in
  auth_hook "/api/sales" (Some "s1") out.2 = None /\
  reply_user_id (get_session (H := demo_runtime) (Some "s1") out.2) = VStr "u1".
Proof.
  intros out.
  destruct (@login_opens_session demo_runtime demo_cfg
              (demo_pin_at 0 "1234" (Some "term1")) demo_hub_with_terminal "term1" "u1")
    as [Hhook Hget].
  - reflexivity.
  - discriminate.
  - eexists. reflexivity.
  - discriminate.
  - reflexivity.
  - reflexivity.
  - split; [apply Hhook|]. apply Hget. reflexivity.
Defined.

Lemma login_without_terminal_has_no_session_witness :
  let out := post_auth_pin (H := demo_runtime) demo_cfg
               (demo_pin_at 0 "1234" None) demo_hub_with_terminal in
  code out.1 = 200 /\ field (body out.1) "sessionId" = VStr "s1" /\
  exists r, auth_hook "/api/sales" (Some "s1") out.2 = Some r /\ code r = 401.
Proof.
  intros out.
  destruct (@login_without_terminal_has_no_session demo_runtime demo_cfg
              (demo_pin_at 0 "1234" None) demo_hub_with_terminal) as [_ Hs].
  - simpl. exact I.
  - destruct Hs as [Hsid Hhook]; [reflexivity|].
    split; [reflexivity|]. split; [exact Hsid|]. apply Hhook; reflexivity.
Defined.

Lemma logout_closes_session_witness :
  let h1 := (post_auth_pin (H := demo_runtime) demo_cfg
               (demo_pin_at 0 "1234" (Some "term1")) demo_hub_with_terminal).2 in
  let h2 := (post_logout (Some "s1") "2026-01-01 11:00:00" h1).2 in
  auth_hook "/api/sales" (Some "s1") h1 = None /\
  auth_hook "/api/sales" (Some "s1") h2 =
    Some (reply_error 401 "Invalid or expired session").
Proof.
  intros h1 h2.
  destruct (@logout_closes_session demo_runtime "s1" "2026-01-01 11:00:00" h1)
    as (Hhook & _).
  - discriminate.
  - split; [reflexivity|]. apply Hhook. reflexivity.
Defined.

Lemma change_pin_takes_effect_witness :
  let h1 := (post_change_pin (H := demo_runtime) demo_cfg "u1" "4321"
               "2026-01-01 10:00:00" demo_hub).2 in
  recentUserIds h1 = ["u1"] /\
  code (post_auth_pin (H := demo_runtime) demo_cfg (demo_pin_request 0 "1234") h1).1 = 401.
Proof.
  intros h1.
  destruct (@change_pin_takes_effect demo_runtime demo_cfg "u1" "4321" "2026-01-01 10:00:00"
              (demo_pin_request 0 "1234") demo_hub "1234") as [Hold _].
  - reflexivity.
  - reflexivity.
  - split; reflexivity.
  - intros u [<-|[<-|[]]]; [discriminate|reflexivity].
  - split; [reflexivity|]. apply Hold. discriminate.
Defined.

Lemma deactivated_user_cannot_log_in_witness :
  let h1 := (post_toggle_active (H := demo_runtime) demo_cfg "u1"
               "2026-01-01 10:00:00" demo_hub).2 in
  recentUserIds h1 = ["u1"] /\
  code (post_auth_pin (H := demo_runtime) demo_cfg (demo_pin_request 0 "1234") h1).1 = 401.
Proof.
  intros h1.
  destruct (@deactivated_user_cannot_log_in demo_runtime demo_cfg "u1" "2026-01-01 10:00:00"
              (demo_pin_request 0 "1234") demo_hub "1234" (demo_user "u1" "1234"))
    as (H401 & Hrec & _).
  - reflexivity.
  - reflexivity.
  - reflexivity.
  - reflexivity.
  - split; reflexivity.
  - intros u [<-|[<-|[]]]; [discriminate|reflexivity].
  - split; [exact Hrec|exact H401].
Defined.

(** Which routes the middleware guards: the query string is not looked
    at, a prefix entry without a trailing slash covers every path that
    starts with it, and logout itself needs a session. *)
Example route_classification :
  map isPublicRoute
    ["/api/auth/pin"; "/api/auth/pin?x=1"; "/api/auth/session"; "/api/sync/status";
     "/api/diagnosticsX"; "/setup.html"] = [true; true; true; true; true; true] /\
  map isPublicRoute
    ["/api/sales"; "/api/sales?next=/api/sync/"; "/api/auth/logout"; "/api/terminals";
     "/api/users/u1/change-pin"; "/api/kitchen-orders/k1/bump"; "/api/auth/pin/"; ""]
    = [false; false; false; false; false; false; false; false].
Proof. vm_compute. split; reflexivity. Qed.

End AuthExamples.

Section SaleVoid.
Context `{Runtime}.

Lemma find_update_id id (f : Row -> Row) (l : list Row) :
  (forall r, has_id id (f r) = has_id id r) ->
  List.find (has_id id) (map (fun r => if has_id id r then f r else r) l) =
  option_map f (List.find (has_id id) l).
Proof. apply find_update. Qed.

(** X27. A sale is voided at most once.  A void that answers 200 has
    marked the sale VOIDED and appended exactly one outbox row
    ('sale', the id, 'void', priority 10) in one transaction; every later
    void of that sale answers 400 and changes nothing; and a void that
    does not answer 200 (unknown sale, already voided, rolled back) leaves
    the hub exactly as it was. *)
Theorem sale_void_once (id : string) (reason userId : option string) (now : string)
    (h : Hub) :
  let out := post_sale_void id reason userId now h in
  (code out.1 <> 200 -> out.2 = h) /\
  (code out.1 = 200 ->
   (exists row,
      outbox_queue (hub_db out.2) = outbox_queue (hub_db h) ++ [row] /\
      entity_type row = "sale" /\ entity_id row = id /\ action row = "void" /\
      priority row = 10 /\ status row = PENDING) /\
   (exists sale,
      find_row "sales" (has_id id) (hub_db out.2) = Some sale /\
      col sale "status" = VStr "VOIDED" /\ col sale "void_reason" = opt_str reason) /\
   (forall reason2 userId2 now2,
      post_sale_void id reason2 userId2 now2 out.2 =
        (reply_error 400 "Sale already voided", out.2))).
Proof.
  intros out. subst out. unfold post_sale_void.
  destruct (find_row "sales" (has_id id) (hub_db h)) as [sale|] eqn:Ef;
    [|split; [reflexivity|discriminate]].
  destruct (JsVal_is_str (col sale "status") "VOIDED") eqn:Ev;
    [split; [reflexivity|discriminate]|].
  unfold transaction, mbind, result_bind, enqueue_stmt. simpl.
  destruct (sql_accepts _ "outbox_queue" _); [|split; [reflexivity|discriminate]].
  simpl. split; [congruence|]. intros _.
  set (f := set_cols [("status", VStr "VOIDED"); ("voided_at", VStr now);
                      ("void_reason", opt_str reason); ("sync_status", VStr "PENDING")]).
  assert (Hf : forall r, has_id id (f r) = has_id id r).
  { intros r. apply has_id_set_cols. simpl. intuition discriminate. }
  assert (Hfind : List.find (has_id id)
                    (table (update_where "sales" (has_id id) f (tables (hub_db h))) "sales")
                  = Some (f sale)).
  { unfold update_where. rewrite table_insert, (find_update_id id f _ Hf).
    unfold find_row in Ef. rewrite Ef. reflexivity. }
  assert (Hst : col (f sale) "status" = VStr "VOIDED" /\
                col (f sale) "void_reason" = opt_str reason).
  { unfold f, set_cols, col. simpl.
    rewrite (lookup_insert_ne _ "sync_status" "status") by discriminate.
    rewrite (lookup_insert_ne _ "void_reason" "status") by discriminate.
    rewrite (lookup_insert_ne _ "voided_at" "status") by discriminate.
    rewrite lookup_insert_eq.
    rewrite (lookup_insert_ne _ "sync_status" "void_reason") by discriminate.
    rewrite lookup_insert_eq. split; reflexivity. }
  split; [|split].
  - eexists. split; [reflexivity|]. repeat split.
  - exists (f sale). unfold find_row. simpl. split; [exact Hfind|exact Hst].
  - intros reason2 userId2 now2. unfold find_row. simpl.
    fold f. rewrite Hfind. destruct Hst as [-> _]. reflexivity.
Qed.

End SaleVoid.

Section QueryLimits.
Variable parseInt : string -> option Z.

(** X28. [clampLimit] with a fallback between 1 and the maximum always
    returns a limit between 1 and the maximum, whatever text the client
    sends: a number in that range is returned as it is, an absent,
    unreadable or non-positive one gives the fallback, a larger one the
    maximum; and [clampOffset] never returns a negative offset. *)
Theorem clampLimit_bounds (value : option string) (fallback max : Z) :
  1 <= fallback <= max ->
  1 <= clampLimit parseInt value fallback max <= max /\
  (forall v n, value = Some v -> parseInt v = Some n ->
     (1 <= n <= max -> clampLimit parseInt value fallback max = n) /\
     (max < n -> clampLimit parseInt value fallback max = max) /\
     (n < 1 -> clampLimit parseInt value fallback max = fallback)) /\
  (forall v, value = Some v -> parseInt v = None ->
     clampLimit parseInt value fallback max = fallback) /\
  0 <= clampOffset parseInt value.
Proof.
  intros Hb. unfold clampLimit, clampOffset. split; [|split; [|split]].
  - destruct (parseInt _) as [n|]; [|lia].
    destruct (n <? 1) eqn:E; [lia|]. apply Z.ltb_ge in E. lia.
  - intros v n -> Hp. simpl. rewrite Hp.
    destruct (n <? 1) eqn:E; [apply Z.ltb_lt in E|apply Z.ltb_ge in E];
      repeat split; intros; lia.
  - intros v -> Hp. simpl. rewrite Hp. reflexivity.
  - destruct (parseInt _) as [n|]; [|lia].
    destruct (n <? 0) eqn:E; [lia|]. apply Z.ltb_ge in E. lia.
Qed.

End QueryLimits.

Lemma clampLimit_bounds_witness :
  map (fun v => clampLimit parse_digits v 50 500)
      [None; Some "20"; Some "9000"; Some "0"; Some "abc"; Some ""]
  = [50; 20; 500; 50; 50; 50] /\
  1 <= clampLimit parse_digits (Some "9000") 50 500 <= 500.
Proof.
  split; [vm_compute; reflexivity|].
  apply (clampLimit_bounds parse_digits (Some "9000") 50 500). lia.
Defined.

Example sale_void_once_example :
  let out := post_sale_void (H := demo_runtime) "sale1" (Some "mistake") None
               "2026-01-01 12:00:00" demo_sale_hub in
  let again := post_sale_void (H := demo_runtime) "sale1" None None
                 "2026-01-01 12:05:00" out.2 in
  code out.1 = 200 /\ code again.1 = 400 /\
  map (fun r => (entity_type r, entity_id r, action r)) (outbox_queue (hub_db again.2))
    = [("sale", "sale1", "void")] /\
  map (fun r => col r "status") (table (tables (hub_db again.2)) "sales")
    = [VStr "VOIDED"; VStr "COMPLETED"] /\
  code (post_sale_void (H := demo_runtime) "nope" None None "t" demo_sale_hub).1 = 404.
Proof. vm_compute. repeat split; reflexivity. Qed.

Section ReceiptDates.

Lemma nextReceiptNumber_key iso db1 db2 :
  order_sequence db1 !! dateKey_of iso = order_sequence db2 !! dateKey_of iso ->
  (nextReceiptNumber iso db1).1 = (nextReceiptNumber iso db2).1 /\
  order_sequence (nextReceiptNumber iso db1).2 !! dateKey_of iso =
    order_sequence (nextReceiptNumber iso db2).2 !! dateKey_of iso.
Proof.
  intros E. unfold nextReceiptNumber, bump_sequence. simpl. rewrite E.
  rewrite !lookup_insert_eq. split; reflexivity.
Qed.

Lemma nextReceiptNumber_other iso db dk :
  dateKey_of iso <> dk ->
  order_sequence (nextReceiptNumber iso db).2 !! dk = order_sequence db !! dk.
Proof.
  intros Hne. unfold nextReceiptNumber, bump_sequence. simpl.
  apply lookup_insert_ne. exact Hne.
Qed.

(** X29. Receipt counters of different dates do not interfere: in any
    interleaving of [nextReceiptNumber] calls, the numbers handed out for
    one date, and that date's counter afterwards, are exactly what the
    calls for that date alone would have produced. *)
Theorem receipt_dates_independent (dk : string) (isos : list string) (db : Db) :
  let every := receipt_calls isos db in
  let alone := receipt_calls (List.filter (on_date dk) isos) db in
  map snd (List.filter (fun p => on_date dk p.1) (combine isos every.1)) = alone.1 /\
  order_sequence every.2 !! dk = order_sequence alone.2 !! dk.
Proof.
  cbv zeta.
  assert (G : forall isos db1 db2,
            order_sequence db1 !! dk = order_sequence db2 !! dk ->
            map snd (List.filter (fun p => on_date dk p.1)
                       (combine isos (receipt_calls isos db1).1))
              = (receipt_calls (List.filter (on_date dk) isos) db2).1 /\
            order_sequence (receipt_calls isos db1).2 !! dk =
              order_sequence (receipt_calls (List.filter (on_date dk) isos) db2).2 !! dk).
  { clear isos db. induction isos as [|iso rest IH]; intros db1 db2 E; [simpl; tauto|].
    rewrite receipt_calls_cons. cbn [fst snd combine List.filter].
    destruct (on_date dk iso) eqn:Ed.
    - unfold on_date in Ed. apply String.eqb_eq in Ed. subst dk.
      destruct (nextReceiptNumber_key iso db1 db2 E) as [Hv Hc].
      rewrite receipt_calls_cons. cbn [fst snd map].
      destruct (IH _ _ Hc) as [I1 I2]. rewrite I1, Hv, I2. split; reflexivity.
    - unfold on_date in Ed. apply String.eqb_neq in Ed.
      apply IH. rewrite nextReceiptNumber_other by exact Ed. exact E. }
  apply G. reflexivity.
Qed.

End ReceiptDates.

Section SaleReceipts.
Context `{Runtime}.
Variable cfg : Config.

Lemma insert_row_sequence name r db db' :
  insert_row name r db = Ok db' -> order_sequence db' = order_sequence db.
Proof.
  unfold insert_row. destruct (sql_accepts (tables db) name r); [|discriminate].
  intros [= <-]. reflexivity.
Qed.

Lemma insert_each_sequence name fp cells xs : forall k db db',
  insert_each name fp cells k xs db = Ok db' -> order_sequence db' = order_sequence db.
Proof.
  induction xs as [|x xs IH]; intros k db db'; simpl.
  - intros [= <-]. reflexivity.
  - unfold mbind, result_bind.
    destruct (prop x fp); [|discriminate].
    destruct (insert_row name (cells k x) db) as [db1|] eqn:E1; [|discriminate].
    intros E2. apply IH in E2. apply insert_row_sequence in E1. congruence.
Qed.

(** A sale takes the next receipt number of its date and keeps it only
    when it commits. *)
Lemma post_sales_receipt env b h :
  match (post_sales cfg env b h).1 with
  | Ok ans =>
      ans_receiptNumber ans = (nextReceiptNumber (sale_iso env) (hub_db h)).1 /\
      order_sequence (hub_db (post_sales cfg env b h).2) =
        order_sequence (nextReceiptNumber (sale_iso env) (hub_db h)).2
  | Throw _ => (post_sales cfg env b h).2 = h
  end.
Proof.
  unfold post_sales, transaction.
  destruct (sale_tx cfg env b (hub_db h)) as [[ans dbf]|msg] eqn:E; cbn [fst snd];
    [|apply hub_same_db].
  unfold sale_tx in E.
  destruct (nextReceiptNumber (sale_iso env) (hub_db h)) as [rn db0] eqn:Hrn.
  cbn [fst snd].
  unfold mbind, result_bind in E.
  destruct (prop b "terminalId"); [|discriminate].
  destruct (insert_row "sales" _ db0) as [db1|] eqn:E1; [|discriminate].
  destruct (iterate (field b "items")) as [items|] eqn:Hitems; [|discriminate].
  destruct (insert_each "sale_items" _ _ _ items db1) as [db2|] eqn:E2; [|discriminate].
  destruct (iterate (field b "payments")) as [payments|] eqn:Hpay; [|discriminate].
  destruct (insert_each "payments" _ _ _ payments db2) as [db3|] eqn:E3; [|discriminate].
  unfold enqueue_stmt in E.
  destruct (sql_accepts (tables db3) "outbox_queue" _); [|discriminate].
  injection E as <- <-. cbn [ans_receiptNumber hub_db with_db order_sequence with_outbox].
  apply insert_row_sequence in E1. apply insert_each_sequence in E2, E3.
  split; [reflexivity|].
  change (order_sequence db3 = order_sequence db0). congruence.
Qed.

Lemma serve_sales_receipts dk rqs : forall h c,
  Forall (fun rq => dateKey_of (sale_iso rq.1) = dk) rqs ->
  default 0 (order_sequence (hub_db h) !! dk) = Z.of_nat c ->
  let out := serve_sales cfg rqs h in
  let k := length (committed_receipts out.1) in
  committed_receipts out.1 = map (receipt_format dk) (seq (S c) k) /\
  default 0 (order_sequence (hub_db out.2) !! dk) = Z.of_nat (c + k).
Proof.
  induction rqs as [|[env b] rest IH]; intros h c HF Hc.
  - simpl. split; [reflexivity|]. rewrite Nat.add_0_r. exact Hc.
  - apply Forall_cons in HF as [Hd Hrest]. cbn [fst] in Hd.
    cbn [serve_sales].
    pose proof (post_sales_receipt env b h) as Hstep.
    destruct (post_sales cfg env b h) as [r h1]. cbn [fst snd] in Hstep.
    destruct r as [ans|msg].
    + destruct Hstep as [Hrn Hseq].
      rewrite <- Hd in Hc.
      destruct (nextReceiptNumber_spec (sale_iso env) (hub_db h) c Hc) as [Hv Hnew].
      assert (Hc1 : default 0 (order_sequence (hub_db h1) !! dateKey_of (sale_iso env))
                    = Z.of_nat (S c)).
      { rewrite Hseq, Hnew, lookup_insert_eq. reflexivity. }
      rewrite Hd in Hc1, Hv.
      specialize (IH h1 (S c) Hrest Hc1).
      destruct (serve_sales cfg rest h1) as [rs h2]. cbv zeta in IH. cbn [fst snd] in *.
      destruct IH as [I1 I2].
      change (committed_receipts (Ok ans :: rs))
        with (ans_receiptNumber ans :: committed_receipts rs).
      cbn [length seq map]. rewrite I1 at 1. rewrite Hrn, Hv.
      split; [reflexivity|]. rewrite I2. f_equal. lia.
    + subst h1. specialize (IH h c Hrest Hc).
      destruct (serve_sales cfg rest h) as [rs h2]. cbv zeta in IH. cbn [fst snd] in *.
      change (committed_receipts (Throw msg :: rs)) with (committed_receipts rs).
      exact IH.
Qed.

(** X30. The receipt numbers of committed sales have no gaps: of any run
    of [POST /api/sales] requests on one date, starting with no counter
    for that date, the sales that commit carry the numbers 1, 2, ..., k
    in order, however many other requests rolled back in between, because
    a rolled-back sale gives its number back. *)
Theorem committed_receipts_gap_free (dk : string) (rqs : list (SaleEnv * JsVal))
    (h : Hub) :
  Forall (fun rq => dateKey_of (sale_iso rq.1) = dk) rqs ->
  order_sequence (hub_db h) !! dk = None ->
  let out := serve_sales cfg rqs h in
  let k := length (committed_receipts out.1) in
  committed_receipts out.1 = map (receipt_format dk) (seq 1 k) /\
  List.NoDup (committed_receipts out.1) /\
  default 0 (order_sequence (hub_db out.2) !! dk) = Z.of_nat k.
Proof.
  intros HF Hnone out k. subst k out.
  destruct (serve_sales_receipts dk rqs h 0 HF) as [Hr Hc].
  { rewrite Hnone. reflexivity. }
  split; [exact Hr|]. split; [|exact Hc].
  rewrite Hr. apply NoDup_ListNoDup, NoDup_fmap_2; [|apply NoDup_ListNoDup, seq_NoDup].
  intros a b E. apply (f_equal (receipt_suffix dk)) in E.
  rewrite !receipt_suffix_format in E. congruence.
Qed.

End SaleReceipts.

Lemma committed_receipts_gap_free_witness :
  let out := serve_sales (H := demo_runtime) demo_cfg
               [(demo_sale_env, demo_sale_body true); (demo_sale_env, demo_sale_body false);
                (demo_sale_env, demo_sale_body true)] empty_hub in
  committed_receipts out.1 = ["20261101-0001"; "20261101-0002"] /\
  length out.1 = 3%nat.
Proof.
  intros out.
  destruct (@committed_receipts_gap_free demo_runtime demo_cfg "20261101"
              [(demo_sale_env, demo_sale_body true); (demo_sale_env, demo_sale_body false);
               (demo_sale_env, demo_sale_body true)] empty_hub) as (Hr & _).
  - repeat constructor.
  - reflexivity.
  - split; [|reflexivity]. unfold out. rewrite Hr. vm_compute. reflexivity.
Defined.

(** Calls on two dates, interleaved. *)
Example receipt_dates_example :
  (receipt_calls ["2026-11-01T09:00:00.000Z"; "2026-11-02T00:00:01.000Z";
                  "2026-11-01T23:59:59.000Z"; "2026-11-02T08:00:00.000Z"] empty_db).1
  = ["20261101-0001"; "20261102-0001"; "20261101-0002"; "20261102-0002"].
Proof. vm_compute. reflexivity. Qed.
